(** * Obsidian-MindForge: the cognitive state engine

    A shallow embedding of the scoring code of the plugin (the
    [DataManager] class with its weight, complexity, centrality,
    engagement and memory-strength functions, and the review-interval
    functions of [DeepSeekPlugin] and [KnowledgeGraph]).

    Modelling conventions.
    - A JavaScript [number] that holds a measurement (a weight, a rank,
      a strength) is a real number of [R]: IEEE-754 rounding is not
      modelled, [Math.exp], [Math.sqrt], [Math.sin], [Math.tanh] and
      [Math.log] are the functions of the Standard Library of reals.
      Where the source can produce [NaN] on well-formed input (the
      logarithm of a negative number in [calculateComplexity]) the
      result type says so. As rounding is not modelled, what is stated
      of such a number follows the expression of the code, is monotone
      in it, or keeps a margin from the thresholds it is compared with;
      nothing is stated that holds by exact cancellation only.
    - Timestamps ([Date.now()]) are integers of [Z], in milliseconds.
      A function that reads the clock takes the reading as an argument.
    - Counters that the code only increments from zero or resets to zero
      are natural numbers.
    - The objects used as dictionaries ([this.data], [this.memoryData],
      [this.interactionDurations]) and the [Map]s of the centrality
      computation are finite maps keyed by strings.
    - A JavaScript string whose characters are inspected is the list of
      its UTF-16 code units. *)

From Stdlib Require Import Reals Lra Lia ZArith Zfloor.
From stdpp Require Import gmap strings list.

Open Scope R_scope.

(** ** Numeric primitives *)

Module Num.

(** [Math.round]: the nearest integer, ties towards plus infinity. *)
Definition round (x : R) : Z := Zfloor (x + / 2).

(** [Number(x.toFixed(2))]: [toFixed] works on the absolute value, picks
    the integer [n] with [n / 100] nearest to it (the larger one on a
    tie) and restores the sign. *)
Definition toFixed2 (x : R) : R :=
  if Rle_dec 0 x
  then IZR (Zfloor (100 * x + / 2)) / 100
  else - (IZR (Zfloor (100 * - x + / 2)) / 100).

(** [Math.log2]. *)
Definition log2 (x : R) : R := ln x / ln 2.

(** [a || b] on numbers: [a] unless it is falsy (zero). *)
Definition orElse (a b : R) : R := if Req_EM_T a 0 then b else a.

(** Milliseconds in a day: [1000 * 60 * 60 * 24]. *)
Definition msPerDay : Z := 1000 * 60 * 60 * 24.

End Num.

(** ** Plain objects used as dictionaries *)

(** [this.data], [this.interactionDurations] and [this.memoryData] are
    plain objects. A finite map holds the entries of their own. A key
    without an entry of its own that names a member of
    [Object.prototype] reads as that member, which is truthy, and what
    is written through it does not reach the dictionary. These are the
    names of the members [Object.prototype] has in the host. *)
Definition prototypeMember (key : string) : bool :=
  bool_decide
    (key ∈ ["constructor"; "__defineGetter__"; "__defineSetter__";
            "hasOwnProperty"; "__lookupGetter__"; "__lookupSetter__";
            "isPrototypeOf"; "propertyIsEnumerable"; "toString"; "valueOf";
            "__proto__"; "toLocaleString"]).

(** ** The weight model of [DataManager] *)

(** One entry of [CognitiveWeightData]. *)
Record WeightData := mkWeightData {
  initialWeight : R;
  lastUpdated : Z;
  interactionCount : nat;
  previousEngagement : option R
}.

(** The fields of [MyPluginSettings] the scoring code reads. *)
Record MyPluginSettings := mkSettings {
  decayLambda : R;
  betaCoefficient : R;
  settingsInitialWeight : R;
  alpha : R
}.

(** [DEFAULT_SETTINGS]. *)
Definition DEFAULT_SETTINGS : MyPluginSettings :=
  {| decayLambda := 5 / 100;
     betaCoefficient := 2 / 10;
     settingsInitialWeight := 5 / 10;
     alpha := 1 |}.

(** What one call of [calculateCurrentWeight] reads from the clock:
    [Date.now()] and the timestamp of
    [new Date(new Date().getFullYear(), 0, 0)]. *)
Record DateReading := mkDateReading {
  now : Z;
  startOfYear : Z
}.

Section WeightModel.

Variable settings : MyPluginSettings.

Definition daysElapsed (rd : DateReading) (d : WeightData) : R :=
  IZR (now rd - lastUpdated d) / IZR Num.msPerDay.

Definition dayOfYear (rd : DateReading) : Z :=
  ((now rd - startOfYear rd) / Num.msPerDay)%Z.

Definition seasonalLambda (rd : DateReading) : R :=
  decayLambda settings + 1 / 100 * sin (2 * PI * IZR (dayOfYear rd) / 365).

(** [timeDecay], for an entry that is not dated after the clock. For an
    entry with [lastUpdated] later than [now] the code takes [Math.sqrt]
    of a negative number, which is not a number, and so is everything
    computed from it; the real square root is 0 there, so what is said
    of the weight of an entry carries the condition
    [lastUpdated d <= now rd]. *)
Definition timeDecay (rd : DateReading) (d : WeightData) : R :=
  alpha settings * initialWeight d
  * exp (- seasonalLambda rd * sqrt (daysElapsed rd d)).

Definition interactionBeta (N : nat) : R :=
  betaCoefficient settings * (1 + 5 / 10 * tanh ((INR N - 3) / 2)).

Definition interactionBoost (N : nat) : R :=
  interactionBeta N * (1 - 1 / (1 + Num.log2 (INR N + 1))).

(** The body of [calculateCurrentWeight] once [this.data[filePath]] is
    known to be present. *)
Definition currentWeight (rd : DateReading) (d : WeightData) : R :=
  Num.toFixed2 (timeDecay rd d + interactionBoost (interactionCount d)).

Definition calculateCurrentWeight
    (data : gmap string WeightData) (rd : DateReading) (filePath : string) : R :=
  match data !! filePath with
  | None => 0
  | Some d => currentWeight rd d
  end.

(** [updateInteraction], with [t] the last reading of [Date.now()].
    For a path without an entry that names a member of
    [Object.prototype] the guard [!this.data[filePath]] is false: the
    increment and the assignment act on the inherited member, and the
    dictionary gets no entry. *)
Definition updateInteraction
    (data : gmap string WeightData) (t : Z) (filePath : string)
    : gmap string WeightData :=
  let touched := fun d : WeightData =>
    <[filePath := {| initialWeight := initialWeight d;
                     lastUpdated := t;
                     interactionCount := S (interactionCount d);
                     previousEngagement := previousEngagement d |}]> data in
  match data !! filePath with
  | Some d => touched d
  | None =>
      if prototypeMember filePath then data
      else touched {| initialWeight := settingsInitialWeight settings;
                      lastUpdated := t;
                      interactionCount := 0;
                      previousEngagement := Some 0 |}
  end.

(** One iteration of the loop of [applyDailyDecay]: [t] is the [now] the
    batch read once before the loop, [reads filePath] is what the call
    of [calculateCurrentWeight] for this file reads from the clock. *)
Definition decayStep (t : Z) (reads : string -> DateReading)
    (data : gmap string WeightData) (filePath : string)
    : gmap string WeightData :=
  match data !! filePath with
  | None => data
  | Some d =>
      <[filePath := {| initialWeight :=
                         calculateCurrentWeight data (reads filePath) filePath;
                       lastUpdated := t;
                       interactionCount := 0;
                       previousEngagement := previousEngagement d |}]> data
  end.

(** [applyDailyDecay]: [for (const filePath in this.data)]. *)
Definition applyDailyDecay (t : Z) (reads : string -> DateReading)
    (data : gmap string WeightData) : gmap string WeightData :=
  foldl (decayStep t reads) data (map_to_list data).*1.

(** What the batch leaves in one entry. *)
Definition decayNode (t : Z) (rd : DateReading) (d : WeightData) : WeightData :=
  {| initialWeight := currentWeight rd d;
     lastUpdated := t;
     interactionCount := 0;
     previousEngagement := previousEngagement d |}.

End WeightModel.

(** ** The weight of a [KnowledgeNode] (the graph side of the plugin) *)

(** [CognitiveWeight] of [types.ts]. *)
Record CognitiveWeight := mkCognitiveWeight {
  base : R;
  decayRate : R;
  interactions : nat;
  weightLastUpdated : Z
}.

(** The fields of [KnowledgeNode] the weight and scheduling code reads. *)
Record KnowledgeNode := mkKnowledgeNode {
  id : string;
  weight : CognitiveWeight;
  nextReviewDate : Z
}.

(** The numeric fields of [DeepSeekPluginSettings]. *)
Record DeepSeekPluginSettings := mkDeepSeekSettings {
  settingsDecayRate : R;
  minSimilarity : R;
  maxReviewInterval : R
}.

Module CognitiveEngine.

Definition getDaysSinceLastUpdate (t : Z) (node : KnowledgeNode) : R :=
  IZR (t - weightLastUpdated (weight node)) / IZR (1000 * 3600 * 24).

(** [CognitiveEngine.updateWeight]: [t] is the reading of [Date.now()]
    in [getDaysSinceLastUpdate], [t'] the later one stored as
    [lastUpdated]. *)
Definition updateWeight (st : DeepSeekPluginSettings) (t t' : Z)
    (node : KnowledgeNode) : KnowledgeNode :=
  let w := weight node in
  let timeDecay :=
    base w * exp (- settingsDecayRate st * getDaysSinceLastUpdate t node) in
  let interactionBoost := 2 / 10 * ln (1 + INR (interactions w)) in
  let newBase := Rmin 1 (timeDecay + interactionBoost) in
  {| id := id node;
     weight := {| base := newBase;
                  decayRate := decayRate w;
                  interactions := S (interactions w);
                  weightLastUpdated := t' |};
     nextReviewDate := nextReviewDate node |}.

End CognitiveEngine.

Module DeepSeekPlugin.

(** The update of [node.weight.base] in the loop of [runDailyReview]. *)
Definition reviewedBase (isCorrect : bool) (b : R) : R :=
  if isCorrect then Rmin 1 (b + 1 / 10) else b * (9 / 10).

(** [DeepSeekPlugin.calculateReviewInterval]. *)
Definition calculateReviewInterval (st : DeepSeekPluginSettings)
    (node : KnowledgeNode) : R :=
  let baseInterval := Rmax 1 (IZR (Num.round (10 * (1 - base (weight node))))) in
  Rmin (maxReviewInterval st) baseInterval.

End DeepSeekPlugin.

Module KnowledgeGraph.

(** [KnowledgeGraph.calculateReviewInterval]. *)
Definition calculateReviewInterval (st : DeepSeekPluginSettings)
    (node : KnowledgeNode) : R :=
  let baseInterval := Rpower 2 (5 * base (weight node)) in
  Rmin (maxReviewInterval st) (Rmax 1 baseInterval).

End KnowledgeGraph.

(** ** Memory strength *)

Record MemoryStrengthData := mkMemoryStrengthData {
  EF : R;
  consecutiveSuccess : nat;
  consecutiveFailures : nat;
  lastTestResult : bool;
  historicalSuccessRate : list Z;
  lastReviewTime : option Z
}.

(** The literal [calculateMemoryStrength] falls back to when the file has
    no entry; it has no [lastTestResult], which reads as falsy. *)
Definition fallbackMemory : MemoryStrengthData :=
  {| EF := 25 / 10;
     consecutiveSuccess := 0;
     consecutiveFailures := 0;
     lastTestResult := false;
     historicalSuccessRate := [];
     lastReviewTime := None |}.

(** The object [updateTestResult] and [calculateEMA] create. *)
Definition freshMemory (ef : R) (t : Z) : MemoryStrengthData :=
  {| EF := ef;
     consecutiveSuccess := 0;
     consecutiveFailures := 0;
     lastTestResult := false;
     historicalSuccessRate := [];
     lastReviewTime := Some t |}.

Definition successRate (h : list Z) : R :=
  if (0 <? length h)%nat
  then IZR (foldl Z.add 0%Z h) / INR (length h)
  else 7 / 10.

(** The value assigned to [data.EF]. *)
Definition recomputedEF (h : list Z) : R :=
  let rate := successRate h in
  let a := rate * 10 in
  let b := (1 - rate) * 10 in
  Rmin (25 / 10) (Rmax (13 / 10) (b * (8 / 10) / (a + b))).

Definition strengthOf (d : MemoryStrengthData) : R :=
  let ef := recomputedEF (historicalSuccessRate d) in
  if lastTestResult d
  then ef * (1 + 2 / 10 * ln (INR (consecutiveSuccess d) + 1))
  else Rmax 1 (ef * (6 / 10) * (1 - 1 / 10 * INR (consecutiveFailures d))).

Definition withEF (ef : R) (d : MemoryStrengthData) : MemoryStrengthData :=
  {| EF := ef;
     consecutiveSuccess := consecutiveSuccess d;
     consecutiveFailures := consecutiveFailures d;
     lastTestResult := lastTestResult d;
     historicalSuccessRate := historicalSuccessRate d;
     lastReviewTime := lastReviewTime d |}.

(** [calculateMemoryStrength]: the strength, and the memory map with the
    recomputed [EF] stored when the file has an entry. *)
Definition calculateMemoryStrength
    (memoryData : gmap string MemoryStrengthData) (filePath : string)
    : R * gmap string MemoryStrengthData :=
  match memoryData !! filePath with
  | Some d =>
      (strengthOf d,
       <[filePath := withEF (recomputedEF (historicalSuccessRate d)) d]> memoryData)
  | None => (strengthOf fallbackMemory, memoryData)
  end.

(** The sliding window of [updateTestResult]. *)
Definition pushOutcome (h : list Z) (isCorrect : bool) : list Z :=
  let h1 := if (100 <=? length h)%nat then tail h else h in
  h1 ++ [if isCorrect then 1%Z else 0%Z].

Definition recordOutcome (t : Z) (isCorrect : bool) (d : MemoryStrengthData)
    : MemoryStrengthData :=
  {| EF := EF d;
     consecutiveSuccess := if isCorrect then S (consecutiveSuccess d) else 0;
     consecutiveFailures := if isCorrect then 0 else S (consecutiveFailures d);
     lastTestResult := isCorrect;
     historicalSuccessRate := pushOutcome (historicalSuccessRate d) isCorrect;
     lastReviewTime := Some t |}.

(** [updateTestResult], with [t] the value of [Date.now()]. *)
Definition updateTestResult
    (memoryData : gmap string MemoryStrengthData) (t : Z)
    (filePath : string) (isCorrect : bool) : gmap string MemoryStrengthData :=
  let d := match memoryData !! filePath with
           | Some d => d
           | None => freshMemory (25 / 10) t
           end in
  <[filePath := recordOutcome t isCorrect d]> memoryData.

(** The window of a file, empty when the file has no entry. *)
Definition windowOf (memory : gmap string MemoryStrengthData)
    (filePath : string) : list Z :=
  historicalSuccessRate (default fallbackMemory (memory !! filePath)).

(** A history of calls of [updateTestResult], oldest first. *)
Definition recordAll (events : list (Z * string * bool))
    : gmap string MemoryStrengthData :=
  foldl (fun memory e => updateTestResult memory e.1.1 e.1.2 e.2) ∅ events.

(** The first disjunct of the filter of [getDueFiles]:
    [strength < 0.8 && data?.consecutiveSuccess < 3]. *)
Definition dueByStrength (strength : R) (data : option MemoryStrengthData) : Prop :=
  strength < 8 / 10 /\
  match data with
  | Some d => (consecutiveSuccess d < 3)%nat
  | None => False
  end.

(** The whole filter predicate of [getDueFiles] for one file. *)
Definition isDue (strength weight daysSinceLastReview : R)
    (data : option MemoryStrengthData) : Prop :=
  dueByStrength strength data
  \/ (weight > 6 / 10 /\ daysSinceLastReview > 2)
  \/ (daysSinceLastReview > 7 /\
      match data with
      | Some d =>
          (length (filter (fun x => x <> 0%Z) (historicalSuccessRate d)) < 3)%nat
      | None => False
      end).

(** ** Engagement *)

Record InteractionDuration := mkInteractionDuration {
  startTime : Z;
  contentLength : nat;
  durations : list Z;
  linkCount : nat
}.

(** The three dictionaries a [DataManager] owns. *)
Record DataManager := mkDataManager {
  data : gmap string WeightData;
  interactionDurations : gmap string InteractionDuration;
  memoryData : gmap string MemoryStrengthData
}.

(** The result of a method that can throw. *)
Inductive outcome (A : Type) : Type :=
| Returns (a : A)
| Throws.
Arguments Returns {A} a.
Arguments Throws {A}.

Definition withPreviousEngagement (e : R) (d : WeightData) : WeightData :=
  {| initialWeight := initialWeight d;
     lastUpdated := lastUpdated d;
     interactionCount := interactionCount d;
     previousEngagement := Some e |}.

(** [calculateEngagement]. For a path without a tracking entry that
    names a member of [Object.prototype], [tracking] is the inherited
    member: it passes the test [!tracking], has no [durations], and
    [tracking.durations.reduce] throws a [TypeError]. The assignment to
    [this.data[filePath].previousEngagement] throws a [TypeError] when the
    file is tracked but has no weight entry. *)
Definition calculateEngagement (dm : DataManager) (filePath : string)
    : outcome (R * DataManager) :=
  match interactionDurations dm !! filePath with
  | None => if prototypeMember filePath then Throws else Returns (0, dm)
  | Some tracking =>
      let totalDuration := foldl Z.add 0%Z (durations tracking) in
      let engagementScore :=
        (IZR totalDuration * (6 / 10) + INR (linkCount tracking) * (4 / 10))
        / Num.orElse (INR (contentLength tracking)) 1 in
      let a := 2 / 10 in
      let previousEMA :=
        match data dm !! filePath with
        | Some d =>
            match previousEngagement d with
            | Some p => Num.orElse p engagementScore
            | None => engagementScore
            end
        | None => engagementScore
        end in
      let currentEMA := a * engagementScore + (1 - a) * previousEMA in
      match data dm !! filePath with
      | None => Throws
      | Some d =>
          Returns (currentEMA,
                   {| data := <[filePath := withPreviousEngagement currentEMA d]> (data dm);
                      interactionDurations := interactionDurations dm;
                      memoryData := memoryData dm |})
      end
  end.

(** ** Centrality *)

Module Centrality.

(** A JavaScript [Map] with string keys: its entries in insertion order. *)
Fixpoint mapSet {V : Type} (m : list (string * V)) (k : string) (v : V)
    : list (string * V) :=
  match m with
  | [] => [(k, v)]
  | (k', v') :: m' =>
      if decide (k' = k) then (k, v) :: m' else (k', v') :: mapSet m' k v
  end.

(** The first loop of [calculateCentrality]. A file is given by its path
    and the link names the pattern [\[\[([^\]]+)\]\]] finds in its
    content, in order. *)
Definition buildLinkGraph (files : list (string * list string))
    : list (string * list string) :=
  foldl (fun g f => mapSet g f.1 f.2) [] files.

Definition dampingFactor : R := 85 / 100.
Definition iterations : nat := 10.

Definition rankOf (pagerank : gmap string R) (key : string) : R :=
  default 0 (pagerank !! key).

Definition initialRank (linkGraph : list (string * list string)) : gmap string R :=
  foldl (fun pr e => <[e.1 := 1 / INR (length linkGraph)]> pr) ∅ linkGraph.

(** The body of [linkGraph.forEach((links, current) => ...)]. *)
Definition distribute (pagerank : gmap string R)
    (newRank : gmap string R) (e : string * list string) : gmap string R :=
  let contribution :=
    if (0 <? length e.2)%nat
    then dampingFactor * (rankOf pagerank e.1 / INR (length e.2))
    else 0 in
  foldl (fun nr link => <[link := rankOf nr link + contribution]> nr) newRank e.2.

(** One iteration of the [for] loop. [newRank.forEach] visits every key
    of [newRank] once and reads and writes the rank of that key only, so
    the order of the visit does not show in the result. *)
Definition iteration (linkGraph : list (string * list string))
    (pagerank : gmap string R) : gmap string R :=
  let newRank := foldl (distribute pagerank) ∅ linkGraph in
  let randomJump := (1 - dampingFactor) / INR (length linkGraph) in
  foldl (fun pr kv => <[kv.1 := rankOf pr kv.1 + kv.2 + randomJump]> pr)
        pagerank (map_to_list newRank).

Definition pagerankAfter (linkGraph : list (string * list string)) : gmap string R :=
  Nat.iter iterations (iteration linkGraph) (initialRank linkGraph).

Definition calculateCentrality (files : list (string * list string))
    (filePath : string) : R :=
  rankOf (pagerankAfter (buildLinkGraph files)) filePath.

(** A link graph without edges. *)
Definition noLinks (g : list (string * list string)) : Prop :=
  Forall (fun e => e.2 = []) g.

End Centrality.

(** ** Text complexity *)

(** A number that may be [NaN]. *)
Inductive jsnum : Type :=
| Finite (x : R)
| NaN.

Module Text.

(** A string: its UTF-16 code units. *)
Definition jsString : Type := list Z.

Definition inRange (lo hi c : Z) : bool := ((lo <=? c) && (c <=? hi))%Z.

(** The class [\s], which is also what [trim] strips. *)
Definition isSpace (c : Z) : bool :=
  inRange 9 13 c || (c =? 32)%Z || (c =? 160)%Z || (c =? 5760)%Z
  || inRange 8192 8202 c || (c =? 8232)%Z || (c =? 8233)%Z
  || (c =? 8239)%Z || (c =? 8287)%Z || (c =? 12288)%Z || (c =? 65279)%Z.

(** The characters [.] does not match. *)
Definition isLineTerminator (c : Z) : bool :=
  (c =? 10)%Z || (c =? 13)%Z || (c =? 8232)%Z || (c =? 8233)%Z.

(** The class [\w], which decides [\b]. *)
Definition isWordChar (c : Z) : bool :=
  inRange 97 122 c || inRange 65 90 c || inRange 48 57 c || (c =? 95)%Z.

(** The class [[一-龥]]. *)
Definition isCJK (c : Z) : bool := inRange 19968 40869 c.

(** The class [[。！？]]. *)
Definition isChineseStop (c : Z) : bool :=
  (c =? 12290)%Z || (c =? 65281)%Z || (c =? 65311)%Z.

(** The class [[.!?]]. *)
Definition isLatinStop (c : Z) : bool :=
  (c =? 46)%Z || (c =? 33)%Z || (c =? 63)%Z.

Definition isVowel (c : Z) : bool :=
  (c =? 97)%Z || (c =? 101)%Z || (c =? 105)%Z || (c =? 111)%Z
  || (c =? 117)%Z || (c =? 121)%Z.

(** The code units of a literal of ASCII characters. *)
Definition ofAscii (s : string) : jsString :=
  (fun a => Z.of_nat (Ascii.nat_of_ascii a)) <$> String.list_ascii_of_string s.

(** [s.trim()] is the empty string. *)
Definition isBlank (s : jsString) : bool := forallb isSpace s.

Fixpoint startsWith (pat s : jsString) : bool :=
  match pat, s with
  | [], _ => true
  | _ :: _, [] => false
  | p :: pat', c :: s' => (p =? c)%Z && startsWith pat' s'
  end.

(** The index of the first occurrence of [pat] in [s]. *)
Fixpoint indexOf (pat s : jsString) : option nat :=
  if startsWith pat s then Some 0%nat
  else match s with
       | [] => None
       | _ :: s' => S <$> indexOf pat s'
       end.

(** [s.replace(re, '')] for a global pattern [re] that never matches the
    empty string and looks at nothing before the place it is tried at:
    [m s'] is the length of the match of [re] at the start of [s'].
    [skip] counts the characters of the current match still to drop. *)
Fixpoint removeMatches (m : jsString -> option nat) (s : jsString) (skip : nat)
    : jsString :=
  match s with
  | [] => []
  | c :: s' =>
      match skip with
      | S k => removeMatches m s' k
      | O =>
          match m s with
          | Some (S n) => removeMatches m s' n
          | _ => c :: removeMatches m s' 0
          end
      end
  end.

Definition backticks : jsString := [96; 96; 96]%Z.

(** The pattern of three backticks, [[\s\S]*?], three backticks. *)
Definition matchFence (s : jsString) : option nat :=
  if startsWith backticks s
  then (fun i => (3 + i + 3)%nat) <$> indexOf backticks (drop 3 s)
  else None.

(** [.*?\)]: up to the first closing parenthesis of the line. *)
Fixpoint matchToParen (s : jsString) : option nat :=
  match s with
  | [] => None
  | c :: s' =>
      if (c =? 41)%Z then Some 1%nat
      else if isLineTerminator c then None
      else S <$> matchToParen s'
  end.

(** [.*?\]\(.*?\)]: the lazy [.*?] grows one character at a time until
    the rest of the pattern matches. *)
Fixpoint matchLinkTail (s : jsString) : option nat :=
  let here :=
    if startsWith [93; 40]%Z s
    then (fun n => (2 + n)%nat) <$> matchToParen (drop 2 s)
    else None in
  match here with
  | Some n => Some n
  | None =>
      match s with
      | [] => None
      | c :: s' =>
          if isLineTerminator c then None else S <$> matchLinkTail s'
      end
  end.

(** [!\[.*?\]\(.*?\)]. *)
Definition matchImage (s : jsString) : option nat :=
  if startsWith [33; 91]%Z s
  then (fun n => (2 + n)%nat) <$> matchLinkTail (drop 2 s)
  else None.

(** [\[.*?\]\(.*?\)]. *)
Definition matchLink (s : jsString) : option nat :=
  if startsWith [91]%Z s
  then (fun n => (1 + n)%nat) <$> matchLinkTail (drop 1 s)
  else None.

(** [<[^>]*>]. *)
Definition matchTag (s : jsString) : option nat :=
  if startsWith [60]%Z s
  then (fun i => (1 + i + 1)%nat) <$> indexOf [62]%Z (drop 1 s)
  else None.

(** The length of the longest prefix whose characters satisfy [p]. *)
Fixpoint runLength (p : Z -> bool) (s : jsString) : nat :=
  match s with
  | c :: s' => if p c then S (runLength p s') else 0
  | [] => 0
  end.

(** [head+\s+] where [head] is a class that holds no white space. *)
Definition matchRunThenSpaces (p : Z -> bool) (s : jsString) : option nat :=
  let n := runLength p s in
  let k := runLength isSpace (drop n s) in
  if ((0 <? n) && (0 <? k))%nat then Some (n + k)%nat else None.

(** [#+\s+]. *)
Definition matchHeading (s : jsString) : option nat :=
  matchRunThenSpaces (fun c => (c =? 35)%Z) s.

(** [[-*]\s+]. *)
Definition matchBullet (s : jsString) : option nat :=
  match s with
  | c :: s' =>
      if ((c =? 45) || (c =? 42))%Z
      then let k := runLength isSpace s' in
           if (0 <? k)%nat then Some (S k) else None
      else None
  | [] => None
  end.

(** The chain of six [replace] calls. *)
Definition plainText (content : jsString) : jsString :=
  let s1 := removeMatches matchFence content 0 in
  let s2 := removeMatches matchImage s1 0 in
  let s3 := removeMatches matchLink s2 0 in
  let s4 := removeMatches matchTag s3 0 in
  let s5 := removeMatches matchHeading s4 0 in
  removeMatches matchBullet s5 0.

(** [s.split(re)] for a pattern [re] of the form [[class]+]: [prevSep]
    tells whether the previous character was a separator. *)
Fixpoint splitRuns (isSep : Z -> bool) (prevSep : bool) (s : jsString)
    : list jsString :=
  match s with
  | [] => [[]]
  | c :: s' =>
      if isSep c
      then if prevSep then splitRuns isSep true s'
           else [] :: splitRuns isSep true s'
      else match splitRuns isSep false s' with
           | p :: ps => (c :: p) :: ps
           | [] => [[c]]
           end
  end.

Definition countSentences (isStop : Z -> bool) (s : jsString) : nat :=
  length (filter (fun p => negb (isBlank p) = true) (splitRuns isStop false s)).

(** [plainText.split(/[\s　]+/).filter(w => w).length]. *)
Definition countLatinWords (s : jsString) : nat :=
  length (filter (fun p => p <> []) (splitRuns isSpace false s)).

(** [(plainText.match(/[一-龥]/g) || []).length]. *)
Definition countCJK (s : jsString) : nat := length (filter (fun c => isCJK c = true) s).

(** [toLowerCase], on the code units whose conversion can change what
    the syllable count looks at (a vowel, a word character): the letters
    A to Z, the Kelvin sign, and the dotted capital I, which becomes two
    code units. The other case pairs are outside [\w], the vowels and
    [\s] before and after the conversion and are left as they are. *)
Definition lowerUnit (c : Z) : jsString :=
  if inRange 65 90 c then [(c + 32)%Z]
  else if (c =? 8490)%Z then [107%Z]
  else if (c =? 304)%Z then [105; 775]%Z
  else [c].

Definition toLowerCase (s : jsString) : jsString := concat (map lowerUnit s).

(** [s.split(/\b|\s+/)]. At each place the empty match of [\b] is tried
    before [\s+]. A word boundary that is not the start of the current
    piece closes the piece; at the start of the current piece it is
    skipped. A run of white space that starts where there is no boundary
    closes the piece and is dropped. [cur] is the current piece,
    reversed; [prevWord] tells whether the previous character is of
    [\w]; [inRun] whether a dropped run is being consumed. *)
Fixpoint splitWords (s : jsString) (cur : jsString) (prevWord inRun : bool)
    : list jsString :=
  match s with
  | [] => [rev cur]
  | c :: s' =>
      if inRun && isSpace c then splitWords s' [] false true
      else if xorb prevWord (isWordChar c)
      then match cur with
           | [] => splitWords s' [c] (isWordChar c) false
           | _ :: _ => rev cur :: splitWords s' [c] (isWordChar c) false
           end
      else if isSpace c then rev cur :: splitWords s' [] false true
      else splitWords s' (c :: cur) (isWordChar c) false
  end.

(** The [for (const char of word)] loop. A surrogate pair, which the
    loop visits once, is two code units here; neither is a vowel, so
    [prevVowel] ends false either way. *)
Fixpoint vowelGroups (word : jsString) (prevVowel : bool) : nat :=
  match word with
  | [] => 0
  | c :: w' =>
      if isVowel c && negb prevVowel
      then S (vowelGroups w' true)
      else vowelGroups w' false
  end.

Definition endsWithE (word : jsString) : bool :=
  match last word with
  | Some c => (c =? 101)%Z
  | None => false
  end.

(** The callback of [reduce]. *)
Definition addSyllables (acc : nat) (word : jsString) : nat :=
  match word with
  | [] => acc
  | _ :: _ =>
      let count := vowelGroups word false in
      let count := if endsWithE word && (1 <? count)%nat
                   then (count - 1)%nat else count in
      (acc + Nat.max count 1)%nat
  end.

Definition latinSyllables (s : jsString) : nat :=
  let englishContent := filter (fun c => isCJK c <> true) s in
  foldl addSyllables 0%nat (splitWords (toLowerCase englishContent) [] false false).

(** The counts the grade is computed from. *)
Record TextCounts := mkTextCounts {
  sentences : nat;
  totalWords : nat;
  chineseWords : nat;
  latinSyllableCount : nat
}.

Definition countText (s : jsString) : TextCounts :=
  {| sentences := Nat.max (countSentences isChineseStop s + countSentences isLatinStop s) 1;
     totalWords := Nat.max (countCJK s + countLatinWords s) 1;
     chineseWords := countCJK s;
     latinSyllableCount := latinSyllables s |}.

Definition syllables (t : TextCounts) : R :=
  INR (chineseWords t) * (15 / 10) + INR (latinSyllableCount t).

Definition fkGrade (t : TextCounts) : R :=
  39 / 100 * (INR (totalWords t) / INR (sentences t))
  + 118 / 10 * (syllables t / INR (totalWords t))
  - 1559 / 100.

(** [1 / (1 + Math.exp(-0.5 * (Math.log(g + 1) - 2.5)))]: [Math.log] of a
    negative number is [NaN], which every later step keeps;
    [Math.log(0)] is minus infinity, which the sigmoid sends to 0. *)
Definition normalize (g : R) : jsnum :=
  if Rlt_dec (g + 1) 0 then NaN
  else if Req_EM_T (g + 1) 0 then Finite 0
  else Finite (1 / (1 + exp (- (5 / 10) * (ln (g + 1) - 25 / 10)))).

Definition complexityOfCounts (t : TextCounts) : jsnum :=
  match normalize (fkGrade t) with
  | NaN => NaN
  | Finite normalized =>
      let minVal := 1 / 10 in
      let adjusted := minVal + (1 - minVal) * normalized in
      Finite (Num.toFixed2 (Rmin adjusted 1))
  end.

(** [calculateComplexity]. *)
Definition calculateComplexity (content : jsString) : jsnum :=
  if isBlank content then Finite (1 / 10)
  else complexityOfCounts (countText (plainText content)).

End Text.

(** ** Sample inputs *)

(** [DEFAULT_SETTINGS] of [main.ts]. *)
Definition defaultGraphSettings : DeepSeekPluginSettings :=
  {| settingsDecayRate := 5 / 100; minSimilarity := 6 / 10; maxReviewInterval := 30 |}.

(** A node of the graph with a given base weight. *)
Definition nodeOfBase (b : R) : KnowledgeNode :=
  {| id := "n";
     weight := {| base := b; decayRate := 5 / 100; interactions := 0;
                  weightLastUpdated := 0 |};
     nextReviewDate := 0 |}.

(** A clock reading on 14 November 2023, in a time zone at UTC. *)
Definition someInstant : Z := 1700000000000.
Definition someReading : DateReading :=
  {| now := someInstant; startOfYear := 1672444800000 |}.

(** Settings that differ from the default ones in [alpha] only. *)
Definition doubledAlphaSettings : MyPluginSettings :=
  {| decayLambda := 5 / 100;
     betaCoefficient := 2 / 10;
     settingsInitialWeight := 5 / 10;
     alpha := 2 |}.

(** Two evaluations in 2023, in a time zone at UTC, of a note last
    updated on 25 February 2022: on 1 April (day 91 of the year, 400 days
    after the update) and on 24 September (day 267, 576 days after). *)
Definition springReading : DateReading :=
  {| now := 1680307200000; startOfYear := 1672444800000 |}.
Definition autumnReading : DateReading :=
  {| now := 1695513600000; startOfYear := 1672444800000 |}.
Definition oldNote : WeightData := mkWeightData 1 1645747200000 0 (Some 0).

(** Three edits of a file and then the command that runs the daily-decay
    batch, every clock reading being [rd]. *)
Definition editThriceAndDecay (settings : MyPluginSettings) (rd : DateReading)
    (filePath : string) (data : gmap string WeightData) : gmap string WeightData :=
  let touch := fun data => updateInteraction settings data (now rd) filePath in
  applyDailyDecay settings (now rd) (fun _ => rd) (touch (touch (touch data))).

(** ** Further operations of [DataManager] *)

(** [startInteractionTracking], with [t] the value of [Date.now()]. *)
Definition startInteractionTracking (dm : DataManager) (t : Z)
    (filePath : string) (content : Text.jsString) : DataManager :=
  match interactionDurations dm !! filePath with
  | Some _ => dm
  | None =>
      {| data := data dm;
         interactionDurations :=
           <[filePath := {| startTime := t;
                            contentLength := length content;
                            durations := [];
                            linkCount := 0 |}]> (interactionDurations dm);
         memoryData := memoryData dm |}
  end.

(** [recordInteractionDuration]: [t] is the reading of [Date.now()] the
    duration is computed from, [t'] the later reading stored as the new
    start time. *)
Definition recordInteractionDuration (dm : DataManager) (t t' : Z)
    (filePath : string) : DataManager :=
  match interactionDurations dm !! filePath with
  | None => dm
  | Some tracking =>
      {| data := data dm;
         interactionDurations :=
           <[filePath := {| startTime := t';
                            contentLength := contentLength tracking;
                            durations := durations tracking ++ [(t - startTime tracking)%Z];
                            linkCount := linkCount tracking |}]>
             (interactionDurations dm);
         memoryData := memoryData dm |}
  end.

(** The calls of [recordInteractionDuration] of the five-second timer,
    oldest first, each with its two clock readings. *)
Definition recordDurations (dm : DataManager) (filePath : string)
    (readings : list (Z * Z)) : DataManager :=
  foldl (fun dm r => recordInteractionDuration dm r.1 r.2 filePath) dm readings.

(** [engagementScore] in [calculateEngagement]. *)
Definition engagementScoreOf (tracking : InteractionDuration) : R :=
  (IZR (foldl Z.add 0%Z (durations tracking)) * (6 / 10)
   + INR (linkCount tracking) * (4 / 10))
  / Num.orElse (INR (contentLength tracking)) 1.

(** [calculateEMA]: [filePath] is falsy when it is the empty string;
    [t] is the value of [Date.now()]. The result is the rounded average
    and the memory map. *)
Definition calculateEMA (memory : gmap string MemoryStrengthData)
    (value : R) (filePath : string) (period : R) (t : Z)
    : R * gmap string MemoryStrengthData :=
  if decide (filePath = "")
  then
    let a := 2 / 10 in
    let previousEMA := value in
    (Num.toFixed2 (a * value + (1 - a) * previousEMA), memory)
  else
    let a := 2 / (period + 1) in
    let previousEMA :=
      match memory !! filePath with
      | Some d => Num.orElse (EF d) value
      | None => value
      end in
    let currentEMA := a * value + (1 - a) * previousEMA in
    (Num.toFixed2 currentEMA,
     match memory !! filePath with
     | None => <[filePath := freshMemory currentEMA t]> memory
     | Some d => <[filePath := withEF currentEMA d]> memory
     end).

(** [CognitiveStageScores]. *)
Record CognitiveStageScores := mkScores {
  complexity : R;
  engagement : R;
  centrality : R;
  referenceCount : R
}.

(** The three labels of [detectCognitiveStage]. *)
Inductive CognitiveStage : Type :=
| Novice
| Intermediate
| Expert.

(** [detectCognitiveStage]. *)
Definition detectCognitiveStage (scores : CognitiveStageScores) : CognitiveStage :=
  let rawComplexity := 4 / 10 + 1 / 10 * ln (referenceCount scores + 1) in
  let rawEngagement := 3 / 10 in
  let rawCentrality := 3 / 10 in
  let totalWeight := rawComplexity + rawEngagement + rawCentrality in
  let wComplexity := rawComplexity / totalWeight in
  let wEngagement := rawEngagement / totalWeight in
  let wCentrality := rawCentrality / totalWeight in
  let sComplexity := complexity scores * wComplexity in
  let sEngagement := engagement scores * wEngagement in
  let sCentrality := centrality scores * wCentrality in
  if Rgt_dec sComplexity (7 / 10 * wComplexity)
  then if Rgt_dec sCentrality (6 / 10 * wCentrality) then Expert
       else if Rgt_dec sEngagement (4 / 10 * wEngagement) then Intermediate
       else if Rgt_dec sCentrality (3 / 10 * wCentrality) then Intermediate
       else Novice
  else if Rgt_dec sEngagement (4 / 10 * wEngagement) then Intermediate
  else if Rgt_dec sCentrality (3 / 10 * wCentrality) then Intermediate
  else Novice.

(** The keys of the table of [stageTransition]. *)
Inductive StageChange : Type :=
| NoviceToIntermediate
| IntermediateToExpert
| ExpertToIntermediate.

(** [current.split('→')[1]]. *)
Definition targetStage (c : StageChange) : CognitiveStage :=
  match c with
  | NoviceToIntermediate => Intermediate
  | IntermediateToExpert => Expert
  | ExpertToIntermediate => Intermediate
  end.

(** [stageTransition]: the target stage when the condition of the key
    holds, and the key itself otherwise. The three conditions are
    evaluated first, each with a call [calculateEMA(x, '', 5)]. *)
Definition stageTransition (memory : gmap string MemoryStrengthData) (t : Z)
    (current : StageChange) (scores : CognitiveStageScores)
    : CognitiveStage + StageChange :=
  let ema := fun x => (calculateEMA memory x "" 5 t).1 in
  let fires :=
    match current with
    | NoviceToIntermediate =>
        if Rgt_dec (engagement scores) (6 / 10)
        then if Rgt_dec (ema (complexity scores)) (4 / 10) then true else false
        else false
    | IntermediateToExpert =>
        if Rgt_dec (centrality scores) (7 / 10)
        then if Rgt_dec (ema (engagement scores)) (5 / 10) then true else false
        else false
    | ExpertToIntermediate =>
        if Rgt_dec (ema (complexity scores)) (3 / 10)
        then if Rgt_dec (referenceCount scores) 7 then true else false
        else false
    end in
  if fires then inl (targetStage current) else inr current.

(** The filter of [getDueFiles] for one file: [rd] is what
    [calculateCurrentWeight] reads from the clock, [t] the reading of
    [Date.now()] in [daysSinceLastReview]. *)
Definition dueFile (settings : MyPluginSettings) (dm : DataManager)
    (rd : DateReading) (t : Z) (filePath : string) : Prop :=
  let entry := memoryData dm !! filePath in
  let strength := (calculateMemoryStrength (memoryData dm) filePath).1 in
  let weight := calculateCurrentWeight settings (data dm) rd filePath in
  let lastReview := default 0%Z (entry ≫= lastReviewTime) in
  let daysSinceLastReview := IZR (t - lastReview) / IZR (1000 * 3600 * 24) in
  isDue strength weight daysSinceLastReview entry.

(** [getLastReviewTime], with [t] the value of [Date.now()]. *)
Definition getLastReviewTime (memory : gmap string MemoryStrengthData)
    (t : Z) (filePath : string) : Z :=
  match memory !! filePath ≫= lastReviewTime with
  | Some r => if (r =? 0)%Z then t else r
  | None => t
  end.

(** The outcomes recorded for one file in a history of calls of
    [updateTestResult]. *)
Definition outcomesFor (filePath : string) (events : list (Z * string * bool))
    : list bool :=
  (fun e => e.2) <$> filter (fun e => e.1.2 = filePath) events.

(** The number that [updateTestResult] pushes for an outcome. *)
Definition outcomeNumber (isCorrect : bool) : Z := if isCorrect then 1%Z else 0%Z.

(** The length of the run of [b] a list of outcomes ends with. *)
Fixpoint runAtStart (b : bool) (l : list bool) : nat :=
  match l with
  | x :: l' => if Bool.eqb x b then S (runAtStart b l') else 0
  | [] => 0
  end.

Definition runAtEnd (b : bool) (l : list bool) : nat := runAtStart b (rev l).

(** What the entry of a file says about the outcomes recorded for it. *)
Definition reflects (os : list bool) (entry : option MemoryStrengthData) : Prop :=
  match entry with
  | None => os = []
  | Some d =>
      os <> []
      /\ consecutiveSuccess d = runAtEnd true os
      /\ consecutiveFailures d = runAtEnd false os
      /\ Some (lastTestResult d) = last os
      /\ historicalSuccessRate d = outcomeNumber <$> drop (length os - 100) os
  end.

(** The clock time that passes between the two readings of each call. *)
Definition unrecorded (readings : list (Z * Z)) : Z :=
  foldl Z.add 0%Z ((fun r => (r.2 - r.1)%Z) <$> readings).

(** The calls of [updateInteraction] for one file at the instants [ts],
    oldest first. *)
Definition touchAll (settings : MyPluginSettings) (data : gmap string WeightData)
    (filePath : string) (ts : list Z) : gmap string WeightData :=
  foldl (fun data t => updateInteraction settings data t filePath) data ts.

(** [key] is the target of a link of the graph. *)
Definition linkedTo (g : list (string * list string)) (key : string) : Prop :=
  exists e, e ∈ g /\ key ∈ e.2.

(** Every rank of the map is non-negative. *)
Definition nonneg (m : gmap string R) : Prop :=
  forall key v, m !! key = Some v -> 0 <= v.

(** ** Question generation *)

(** [Question]. *)
Record Question := mkQuestion {
  question : Text.jsString;
  options : list Text.jsString;
  correctIndex : Z;
  bloomLevel : Z;
  questionFilePath : string
}.

Module QuestionGenerator.

Import Text.

(** The class [[:：]]. *)
Definition isColon (c : Z) : bool := (c =? 58)%Z || (c =? 65306)%Z.

(** The class [[\.．]]. *)
Definition isDot (c : Z) : bool := (c =? 46)%Z || (c =? 65294)%Z.

(** The class [[A-D]]. *)
Definition isOptionLetter (c : Z) : bool := inRange 65 68 c.

(** How a pattern with the flag [i] reads a character: the letters a to
    z as A to Z. *)
Definition upperAscii (c : Z) : Z := if inRange 97 122 c then (c - 32)%Z else c.

Fixpoint startsWithIgnoringCase (pat s : jsString) : bool :=
  match pat, s with
  | [], _ => true
  | _ :: _, [] => false
  | p :: pat', c :: s' => (p =? upperAscii c)%Z && startsWithIgnoringCase pat' s'
  end.

(** [(答案|ANSWER)] with the flag [i], at the start of [s]: what follows
    the word. *)
Definition afterAnswerWord (s : jsString) : option jsString :=
  if startsWith [31572; 26696]%Z s then Some (drop 2 s)
  else if startsWithIgnoringCase [65; 78; 83; 87; 69; 82]%Z s then Some (drop 6 s)
  else None.

(** [(答案|ANSWER)[:：]|\n[A-D][\.．]] with the flag [i], at the start of
    [s]. *)
Definition matchesQuestionEnd (s : jsString) : bool :=
  match afterAnswerWord s with
  | Some (c :: _) => isColon c
  | _ => false
  end
  || match s with
     | 10%Z :: l :: d :: _ => isOptionLetter (upperAscii l) && isDot d
     | _ => false
     end.

(** [s.search(re)]: the first index at which [m] holds, or -1. *)
Fixpoint search (m : jsString -> bool) (s : jsString) (i : Z) : Z :=
  if m s then i
  else match s with
       | [] => (-1)%Z
       | _ :: s' => search m s' (i + 1)%Z
       end.

(** How [slice] reads an index: a negative one counts from the end. *)
Definition sliceIndex (len i : Z) : Z :=
  if (i <? 0)%Z then Z.max (len + i) 0 else Z.min i len.

(** [s.slice(from, to)]. *)
Definition slice (s : jsString) (from to : Z) : jsString :=
  let len := Z.of_nat (length s) in
  let a := sliceIndex len from in
  let b := sliceIndex len to in
  take (Z.to_nat (b - a)) (drop (Z.to_nat a) s).

(** [s.slice(from)]. *)
Definition sliceFrom (s : jsString) (from : Z) : jsString :=
  drop (Z.to_nat (sliceIndex (Z.of_nat (length s)) from)) s.

Fixpoint dropSpaces (s : jsString) : jsString :=
  match s with
  | c :: s' => if isSpace c then dropSpaces s' else s
  | [] => []
  end.

(** [s.trim()]. *)
Definition trim (s : jsString) : jsString := rev (dropSpaces (rev (dropSpaces s))).

(** [s.replace(/^问题[:：]?\s*/, '')]. *)
Definition stripQuestionPrefix (s : jsString) : jsString :=
  if startsWith [38382; 39064]%Z s
  then match drop 2 s with
       | c :: r => if isColon c then dropSpaces r else dropSpaces (c :: r)
       | [] => []
       end
  else s.

(** [s.split('\n')]. *)
Fixpoint splitLines (s : jsString) : list jsString :=
  match s with
  | [] => [[]]
  | c :: s' =>
      if (c =? 10)%Z then [] :: splitLines s'
      else match splitLines s' with
           | p :: ps => (c :: p) :: ps
           | [] => [[c]]
           end
  end.

(** [lines.join('\n')]. *)
Fixpoint joinLines (lines : list jsString) : jsString :=
  match lines with
  | [] => []
  | [l] => l
  | l :: ls => l ++ 10%Z :: joinLines ls
  end.

(** [/^[A-D][\.．]/.test(line)]. *)
Definition isOptionLine (line : jsString) : bool :=
  match line with
  | c :: d :: _ => isOptionLetter c && isDot d
  | _ => false
  end.

(** [text.length > n ? text.substring(0, keep) + "..." : text]. *)
Definition truncate (n keep : nat) (text : jsString) : jsString :=
  if (n <? length text)%nat then take keep text ++ [46; 46; 46]%Z else text.

(** The callback of [map]: [l] is an option line. *)
Definition optionText (l : jsString) : jsString :=
  let text := trim (if isOptionLine l then dropSpaces (drop 2 l) else l) in
  truncate 20 17 text.

(** [(答案|ANSWER)[:：]\s*([A-D])] with the flag [i], at the start of
    [s]: the letter of the group. *)
Definition answerAt (s : jsString) : option Z :=
  match afterAnswerWord s with
  | Some (c :: r) =>
      if isColon c
      then match dropSpaces r with
           | l :: _ => if isOptionLetter (upperAscii l) then Some l else None
           | [] => None
           end
      else None
  | _ => None
  end.

(** [s.match(re)?.[2]]: the letter of the first match. *)
Fixpoint findAnswer (s : jsString) : option Z :=
  match answerAt s with
  | Some l => Some l
  | None => match s with
            | [] => None
            | _ :: s' => findAnswer s'
            end
  end.

(** [parseApiResponse]. An undefined [response] makes [response.search]
    throw; every error is thrown again by the [catch]. *)
Definition parseApiResponse (response : option jsString) (filePath : string)
    : outcome Question :=
  match response with
  | None => Throws
  | Some response =>
      let questionEndIndex := search matchesQuestionEnd response 0 in
      let questionPart := trim (slice response 0 questionEndIndex) in
      let optionsPart := sliceFrom response questionEndIndex in
      let question :=
        trim (joinLines
                (filter (fun line => isOptionLine line = false)
                        (splitLines (stripQuestionPrefix questionPart)))) in
      let options :=
        optionText <$> take 4 (filter (fun line => isOptionLine line = true)
                                      (splitLines optionsPart)) in
      let correctAnswerIndex :=
        match findAnswer optionsPart with
        | Some l => (l - 65)%Z
        | None => (-1)%Z
        end in
      let question := truncate 60 57 question in
      if ((Z.of_nat (length options) <? 2)
          || (correctAnswerIndex <? 0)
          || (Z.of_nat (length options) <=? correctAnswerIndex))%Z
      then Throws
      else Returns {| question := question;
                      options := options;
                      correctIndex := correctAnswerIndex;
                      bloomLevel := 2;
                      questionFilePath := filePath |}
  end.

(** [error.message.includes('JSON')]. *)
Fixpoint includesJSON (message : string) : bool :=
  match message with
  | EmptyString => false
  | String _ rest => String.prefix "JSON" message || includesJSON rest
  end.

(** How one pass of the loop of [generateQuestion] ends: with a
    question, or with an error and its message. *)
Inductive attempt : Type :=
| Generated (q : Question)
| Failed (message : string).

(** The loop of [generateQuestion] with [retries] left, [attempts i]
    being how the pass number [i] ends if it is made. *)
Fixpoint generateFrom (retries : nat) (i : nat) (attempts : nat -> attempt)
    : Question + string :=
  match retries with
  | O => inr "Failed to generate question after 3 attempts"
  | S r =>
      match attempts i with
      | Generated q => inl q
      | Failed message =>
          if includesJSON message
          then generateFrom r (S i) attempts
          else inr message
      end
  end.

(** [generateQuestion]. *)
Definition generateQuestion (attempts : nat -> attempt) : Question + string :=
  generateFrom 3 0 attempts.

(** How a pass that got an answer from the service ends: a failure of
    [JSON.parse] or of [parseApiResponse] is thrown again with the
    message of the inner [catch]. *)
Definition attemptOfParse (parsed : outcome Question) : attempt :=
  match parsed with
  | Returns q => Generated q
  | Throws => Failed "API返回了无效的JSON格式"
  end.

(** [handleSelect] of the review modal, with [t] the value of
    [Date.now()]: the outcome it records. *)
Definition handleSelect (memory : gmap string MemoryStrengthData) (t : Z)
    (q : Question) (selectedIndex : Z) : gmap string MemoryStrengthData :=
  updateTestResult memory t (questionFilePath q) (selectedIndex =? correctIndex q)%Z.

End QuestionGenerator.

(** ** Further operations of the graph side *)

Module Review.

(** The filter of [runDailyReview], with [t] the value of [new Date()]. *)
Definition selectedForReview (t : Z) (node : KnowledgeNode) : Prop :=
  (nextReviewDate node <= t)%Z /\ base (weight node) < 85 / 100.

(** The node after the assignment to [node.weight.base] in the loop of
    [runDailyReview]. *)
Definition withReviewedBase (isCorrect : bool) (node : KnowledgeNode) : KnowledgeNode :=
  {| id := id node;
     weight := {| base := DeepSeekPlugin.reviewedBase isCorrect (base (weight node));
                  decayRate := decayRate (weight node);
                  interactions := interactions (weight node);
                  weightLastUpdated := weightLastUpdated (weight node) |};
     nextReviewDate := nextReviewDate node |}.

(** One pass of the loop of [runDailyReview]: the new base weight, then
    the interval computed from it. [addDays] is the calendar arithmetic
    of the host ([Date.prototype.setDate]). *)
Definition reviewNode (st : DeepSeekPluginSettings) (addDays : Z -> R -> Z)
    (t : Z) (isCorrect : bool) (node : KnowledgeNode) : KnowledgeNode :=
  let node' := withReviewedBase isCorrect node in
  {| id := id node';
     weight := weight node';
     nextReviewDate := addDays t (DeepSeekPlugin.calculateReviewInterval st node') |}.

(** The four readings of the clock in one call of [addNode], in the
    order they are taken: [Date.now()] and [new Date()] in the literal,
    then [Date.now()] in [getDaysSinceLastUpdate] and in the result of
    [updateWeight]. *)
Record AddReadings := mkAddReadings {
  literalNow : Z;
  literalDate : Z;
  decayNow : Z;
  updatedNow : Z
}.

(** [updatedNode] in [addNode]. *)
Definition updatedNode (st : DeepSeekPluginSettings) (r : AddReadings)
    (nodeId : string) : KnowledgeNode :=
  CognitiveEngine.updateWeight st (decayNow r) (updatedNow r)
    {| id := nodeId;
       weight := {| base := 5 / 10; decayRate := 5 / 100; interactions := 0;
                    weightLastUpdated := literalNow r |};
       nextReviewDate := literalDate r |}.

(** [addNode], as far as [this.nodes] goes: [embedding] is how the
    awaited request of [updateNodeVector] ends. When it throws the call
    ends before [this.nodes.set]; what [findLinksForNode] does after it
    changes no weight and no review date. *)
Definition addNode (nodes : gmap string KnowledgeNode)
    (st : DeepSeekPluginSettings) (r : AddReadings) (nodeId : string)
    (embedding : outcome (list R)) : gmap string KnowledgeNode :=
  match embedding with
  | Throws => nodes
  | Returns _ => <[nodeId := updatedNode st r nodeId]> nodes
  end.

End Review.

Module Similarity.

(** [jaccardSimilarity], on the identifiers of the linked nodes. *)
Definition jaccardSimilarity (a b : list string) : R :=
  let intersection := length (filter (fun x => x ∈ b) a) in
  let union := size (list_to_set (a ++ b) : gset string) in
  if decide (union = 0%nat) then 0 else INR intersection / INR union.

(** [a.reduce((sum, val, i) => sum + val * b[i], 0)] for vectors of one
    length. *)
Definition dotProduct (a b : list R) : R :=
  foldl (fun sum p => sum + p.1 * p.2) 0 (zip a b).

(** [a.reduce((sum, val) => sum + val * val, 0)]. *)
Definition sumOfSquares (a : list R) : R := foldl (fun sum v => sum + v * v) 0 a.

(** [cosineSimilarity]. *)
Definition cosineSimilarity (a b : list R) : R :=
  if decide (length a = length b)
  then
    let magnitudeA := sqrt (sumOfSquares a) in
    let magnitudeB := sqrt (sumOfSquares b) in
    if Req_EM_T magnitudeA 0 then 0
    else if Req_EM_T magnitudeB 0 then 0
    else dotProduct a b / (magnitudeA * magnitudeB)
  else 0.

(** What [calculateSimilarity] reads of a node. *)
Record SimilarityInput := mkSimilarityInput {
  vector : option (list R);
  linkIds : list string;
  inputLastUpdated : Z
}.

(** [calculateSimilarity]; reading the length of a missing vector
    throws. *)
Definition calculateSimilarity (a b : SimilarityInput) : outcome R :=
  match vector a, vector b with
  | Some va, Some vb =>
      let semanticSim := cosineSimilarity va vb in
      let structuralSim := jaccardSimilarity (linkIds a) (linkIds b) in
      let temporalSim :=
        1 - Rabs (IZR (inputLastUpdated a - inputLastUpdated b))
            / IZR (30 * 86400000) in
      Returns (6 / 10 * semanticSim + 3 / 10 * structuralSim + 1 / 10 * temporalSim)
  | _, _ => Throws
  end.

End Similarity.

Module Utils.

Import Text.

(** [s.replace(pat, '')] for a string [pat]: the first occurrence goes. *)
Definition removeFirst (pat s : jsString) : jsString :=
  match indexOf pat s with
  | Some i => take i s ++ drop (i + length pat) s
  | None => s
  end.

(** [getNodeIdFromFile]: every slash becomes an underscore, then the
    first [".md"] is removed. *)
Definition getNodeIdFromFile (filePath : jsString) : jsString :=
  removeFirst [46; 109; 100]%Z
              ((fun c => if (c =? 47)%Z then 95%Z else c) <$> filePath).

(** [daysBetween]. *)
Definition daysBetween (date1 date2 : Z) : R :=
  Rabs (IZR (date1 - date2)) / IZR (1000 * 3600 * 24).

End Utils.

Section CheckAnswer.

(** [String.prototype.toLowerCase], taken as it is in the host. *)
Variable toLowerCase : Text.jsString -> Text.jsString.

(** [generateRecallTest] makes the content of the node the correct
    answer; [checkAnswer] compares it with the trimmed answer, both in
    lower case. *)
Definition checkAnswer (correctAnswer answer : Text.jsString) : bool :=
  bool_decide (toLowerCase (QuestionGenerator.trim answer) = toLowerCase correctAnswer).

End CheckAnswer.

(** The first and the last code unit are white space. *)
Definition startsWithSpace (s : Text.jsString) : bool :=
  match s with
  | c :: _ => Text.isSpace c
  | [] => false
  end.

Definition endsWithSpace (s : Text.jsString) : bool := startsWithSpace (rev s).

(** ** The fused weight *)

(** [Math.pow(x, 0.7)]: not a number for a negative base. *)
Definition powSevenTenths (x : R) : jsnum :=
  if Rlt_dec x 0 then NaN
  else if Req_EM_T x 0 then Finite 0
  else Finite (Rpower x (7 / 10)).

(** [calculateCognitiveWeight], with [files] what the vault holds and
    [t] the value of [Date.now()]. The entry of the file is read after
    [calculateMemoryStrength] has stored the easiness factor, so the
    memory map is changed also when reading a missing entry throws. *)
Definition calculateCognitiveWeight
    (data : gmap string WeightData) (memoryData : gmap string MemoryStrengthData)
    (files : list (string * list string)) (t : Z) (filePath : string)
    : outcome jsnum * gmap string MemoryStrengthData :=
  let '(memoryStrength, memoryData') := calculateMemoryStrength memoryData filePath in
  let centrality := Centrality.calculateCentrality files filePath in
  (match data !! filePath with
   | None => Throws
   | Some d =>
       let daysElapsed := IZR (t - lastUpdated d) / IZR (1000 * 60 * 60 * 24) in
       let lambda := 5 / 100 * (1 + 3 / 10 * sin (2 * PI * IZR t / 31540000000)) in
       let beta := 2 / 10 / (1 + exp (- (5 / 10) * (INR (interactionCount d) - 4))) in
       Returns
         match powSevenTenths centrality with
         | NaN => NaN
         | Finite p =>
             Finite ((initialWeight d * exp (- lambda * daysElapsed)
                      + beta * ln (1 + INR (interactionCount d))
                        / (1 + centrality * centrality)
                      + 2 / 10 * p)
                     * memoryStrength)
         end
   end,
   memoryData').

(** ** The feature vector of a node *)

Module FeatureMatrix.

(** An entry of the vector: [Math.log2(0)] is minus infinity, and
    [Math.min(1, ...)] keeps it. *)
Inductive entry : Type :=
| Number (x : R)
| MinusInfinity.

(** [calculateComplexity] of the feature matrix, on the length of the
    content and the number of links of the node. *)
Definition calculateComplexity (contentLength linkCount : nat) : R :=
  INR contentLength / 500 * (7 / 10) + INR linkCount / 10 * (3 / 10).

(** [getContextFactors], with [t] the value of [Date.now()]. *)
Definition getContextFactors (t : Z) (contentLength linkCount : nat)
    (w : CognitiveWeight) : list entry :=
  let linkFactor := Rmin 1 (INR linkCount / 10) in
  let contentFactor :=
    match contentLength with
    | O => MinusInfinity
    | S _ => Number (Rmin 1 (Num.log2 (INR contentLength) / 10))
    end in
  let ageFactor :=
    Rmin 1 (IZR (t - weightLastUpdated w) / IZR (1000 * 3600 * 24 * 30)) in
  let interactionFactor := Rmin 1 (INR (interactions w) / 100) in
  [Number linkFactor; contentFactor; Number ageFactor; Number interactionFactor].

(** The vector [updateNodeVector] stores, [semanticVector] being what
    the embedding service answered. *)
Definition updateNodeVector (semanticVector : list R) (t : Z)
    (contentLength linkCount : nat) (w : CognitiveWeight) : list entry :=
  (Number <$> semanticVector)
  ++ [Number (base w)]
  ++ getContextFactors t contentLength linkCount w
  ++ [Number (calculateComplexity contentLength linkCount)].

End FeatureMatrix.

(** ** The learning stage of a node *)

Module StageDetector.

(** The enum [LearningStage] and the numbers of its members. *)
Inductive LearningStage : Type :=
| NOVICE
| INTERMEDIATE
| EXPERT.

Definition stageNumber (s : LearningStage) : Z :=
  match s with
  | NOVICE => 0
  | INTERMEDIATE => 1
  | EXPERT => 2
  end.

(** [calculateStageScore], on the length of the content, the number of
    links and the interaction count of the node. *)
Definition calculateStageScore (contentLength linkCount interactions : nat) : R :=
  let complexity := INR contentLength / 500 * (7 / 10) + INR linkCount / 10 * (3 / 10) in
  let interaction := ln (1 + INR interactions) in
  6 / 10 * complexity + 4 / 10 * interaction.

(** [determineStage]. *)
Definition determineStage (contentLength linkCount interactions : nat)
    : LearningStage :=
  let score := calculateStageScore contentLength linkCount interactions in
  if Rlt_dec score (5 / 10) then NOVICE
  else if Rlt_dec score (8 / 10) then INTERMEDIATE
  else EXPERT.

End StageDetector.

(** * Properties *)

(** ** Facts about the numeric primitives *)

Section NumFacts.

Import Num.

Lemma exp_le (x y : R) : x <= y -> exp x <= exp y.
Proof.
  intros [Hlt | ->]; [left; now apply exp_increasing | right; reflexivity].
Qed.

Lemma ln_le_mono (x y : R) : 0 < x -> x <= y -> ln x <= ln y.
Proof.
  intros Hx [Hlt | ->]; [left; now apply ln_increasing | right; reflexivity].
Qed.

Lemma ln_nonneg (x : R) : 1 <= x -> 0 <= ln x.
Proof.
  intros Hx. rewrite <- ln_1. apply ln_le_mono; lra.
Qed.

Lemma ln_2_pos : 0 < ln 2.
Proof. pose proof ln_lt_2. lra. Qed.

Lemma log2_1 : log2 1 = 0.
Proof. unfold log2. rewrite ln_1. lra. Qed.


Lemma log2_nonneg (x : R) : 1 <= x -> 0 <= log2 x.
Proof.
  intros Hx. unfold log2. pose proof ln_2_pos. pose proof (ln_nonneg x Hx).
  apply Rmult_le_pos; [assumption | left; now apply Rinv_0_lt_compat].
Qed.

Lemma log2_le (x y : R) : 0 < x -> x <= y -> log2 x <= log2 y.
Proof.
  intros Hx Hxy. unfold log2, Rdiv. pose proof ln_2_pos.
  apply Rmult_le_compat_r; [left; now apply Rinv_0_lt_compat |].
  now apply ln_le_mono.
Qed.

(** [tanh] written with one exponential. *)
Lemma tanh_exp (x : R) : tanh x = 1 - 2 / (exp (2 * x) + 1).
Proof.
  unfold tanh, sinh, cosh. rewrite exp_Ropp.
  replace (2 * x) with (x + x) by lra. rewrite exp_plus.
  pose proof (exp_pos x) as Hp. field.
  split; [nra | lra].
Qed.

Lemma tanh_bounds (x : R) : -1 < tanh x < 1.
Proof.
  rewrite tanh_exp. pose proof (exp_pos (2 * x)) as Hp.
  assert (H1 : 0 < 2 / (exp (2 * x) + 1)).
  { apply Rdiv_lt_0_compat; lra. }
  assert (H2 : 2 / (exp (2 * x) + 1) < 2).
  { apply (Rmult_lt_reg_r (exp (2 * x) + 1)); [lra |].
    unfold Rdiv. rewrite Rmult_assoc, Rinv_l by lra. lra. }
  lra.
Qed.

Lemma tanh_le (x y : R) : x <= y -> tanh x <= tanh y.
Proof.
  intros Hxy. rewrite !tanh_exp.
  pose proof (exp_pos (2 * x)) as Hx. pose proof (exp_pos (2 * y)) as Hy.
  assert (Hle : exp (2 * x) <= exp (2 * y)) by (apply exp_le; lra).
  assert (H : 2 / (exp (2 * y) + 1) <= 2 / (exp (2 * x) + 1)).
  { unfold Rdiv. apply Rmult_le_compat_l; [lra |].
    apply Rinv_le_contravar; lra. }
  lra.
Qed.

(** [toFixed2] lands on a multiple of a hundredth. *)
Lemma toFixed2_hundredth (x : R) : exists n : Z, toFixed2 x = IZR n / 100.
Proof.
  unfold toFixed2. destruct (Rle_dec 0 x).
  - eexists. reflexivity.
  - exists (- Zfloor (100 * - x + / 2))%Z. rewrite opp_IZR. lra.
Qed.

Lemma toFixed2_of_hundredth (n : Z) : toFixed2 (IZR n / 100) = IZR n / 100.
Proof.
  unfold toFixed2. destruct (Rle_dec 0 (IZR n / 100)) as [Hn | Hn].
  - replace (100 * (IZR n / 100) + / 2) with (/ 2 + IZR n) by lra.
    rewrite Zfloor_addz.
    rewrite (Zfloor_eq 0 (/ 2)) by (simpl; lra).
    reflexivity.
  - replace (100 * - (IZR n / 100) + / 2) with (/ 2 + IZR (- n))
      by (rewrite opp_IZR; lra).
    rewrite Zfloor_addz.
    rewrite (Zfloor_eq 0 (/ 2)) by (simpl; lra).
    rewrite Z.add_0_l, opp_IZR. lra.
Qed.

Lemma toFixed2_idempotent (x : R) : toFixed2 (toFixed2 x) = toFixed2 x.
Proof.
  destruct (toFixed2_hundredth x) as [n ->]. apply toFixed2_of_hundredth.
Qed.

Lemma toFixed2_nonneg (x : R) : 0 <= x -> 0 <= toFixed2 x.
Proof.
  intros Hx. unfold toFixed2. destruct (Rle_dec 0 x); [| contradiction].
  assert (0 <= Zfloor (100 * x + / 2))%Z by (apply Zfloor_lub; simpl; lra).
  apply IZR_le in H. lra.
Qed.

Lemma toFixed2_nonpos (x : R) : x < 0 -> toFixed2 x <= 0.
Proof.
  intros Hx. unfold toFixed2. destruct (Rle_dec 0 x); [lra |].
  assert (0 <= Zfloor (100 * - x + / 2))%Z by (apply Zfloor_lub; simpl; lra).
  apply IZR_le in H. lra.
Qed.

Lemma toFixed2_le (x y : R) : x <= y -> toFixed2 x <= toFixed2 y.
Proof.
  intros Hxy. destruct (Rle_dec 0 x) as [Hx | Hx].
  - unfold toFixed2. destruct (Rle_dec 0 x); [| contradiction].
    destruct (Rle_dec 0 y); [| lra].
    assert (Zfloor (100 * x + / 2) <= Zfloor (100 * y + / 2))%Z
      by (apply Zfloor_le; lra).
    apply IZR_le in H. lra.
  - destruct (Rle_dec 0 y) as [Hy | Hy].
    + pose proof (toFixed2_nonneg y Hy). pose proof (toFixed2_nonpos x). lra.
    + unfold toFixed2. destruct (Rle_dec 0 x); [contradiction |].
      destruct (Rle_dec 0 y); [contradiction |].
      assert (Zfloor (100 * - y + / 2) <= Zfloor (100 * - x + / 2))%Z
        by (apply Zfloor_le; lra).
      apply IZR_le in H. lra.
Qed.

(** [toFixed2] moves its argument by at most half a hundredth. *)
Lemma toFixed2_near (x : R) : x - 5 / 1000 <= toFixed2 x <= x + 5 / 1000.
Proof.
  unfold toFixed2. destruct (Rle_dec 0 x).
  - pose proof (Zfloor_bound (100 * x + / 2)). lra.
  - pose proof (Zfloor_bound (100 * - x + / 2)). lra.
Qed.

Lemma toFixed2_eq (n : Z) (x : R) :
  0 <= x -> IZR n <= 100 * x + / 2 < IZR n + 1 -> toFixed2 x = IZR n / 100.
Proof.
  intros Hx Hn. unfold toFixed2. destruct (Rle_dec 0 x); [| contradiction].
  now rewrite (Zfloor_eq n).
Qed.

Lemma tanh_0 : tanh 0 = 0.
Proof. rewrite tanh_exp, Rmult_0_r, exp_0. lra. Qed.

Lemma log2_4 : log2 4 = 2.
Proof.
  unfold log2. replace 4 with (2 * 2) by lra.
  rewrite ln_mult by lra. pose proof ln_2_pos. field. lra.
Qed.

Lemma round_le (x y : R) : x <= y -> (round x <= round y)%Z.
Proof. intros Hxy. unfold round. apply Zfloor_le. lra. Qed.

End NumFacts.

(** ** Memory strength *)

Section MemoryStrengthFacts.

Implicit Types (memory : gmap string MemoryStrengthData) (filePath : string).

Lemma recomputedEF_bounds (h : list Z) : 13 / 10 <= recomputedEF h <= 25 / 10.
Proof.
  unfold recomputedEF. split.
  - apply Rmin_glb; [lra | apply Rmax_l].
  - apply Rmin_l.
Qed.

Lemma foldl_add_shift (h : list Z) (a : Z) :
  foldl Z.add a h = (a + foldl Z.add 0 h)%Z.
Proof.
  revert a. induction h as [| x h IH]; intros a; cbn [foldl]; [lia |].
  rewrite (IH (a + x)%Z), (IH (0 + x)%Z). lia.
Qed.

Lemma sum_of_outcomes (h : list Z) :
  Forall (fun x => x = 0%Z \/ x = 1%Z) h ->
  (0 <= foldl Z.add 0 h <= Z.of_nat (length h))%Z.
Proof.
  induction 1 as [| x h Hx _ IH]; cbn [foldl length]; [lia |].
  rewrite foldl_add_shift. lia.
Qed.

Lemma successRate_bounds (h : list Z) :
  Forall (fun x => x = 0%Z \/ x = 1%Z) h -> 0 <= successRate h <= 1.
Proof.
  intros Hh. unfold successRate. destruct (0 <? length h)%nat eqn:E; [| lra].
  apply Nat.ltb_lt in E. pose proof (sum_of_outcomes h Hh) as [Hlo Hhi].
  apply IZR_le in Hlo, Hhi. rewrite <- INR_IZR_INZ in Hhi.
  assert (Hlen : 0 < INR (length h)) by now apply lt_0_INR.
  split.
  - apply Rmult_le_pos; [exact Hlo | left; now apply Rinv_0_lt_compat].
  - apply (Rmult_le_reg_r (INR (length h))); [exact Hlen |].
    unfold Rdiv. rewrite Rmult_assoc, Rinv_l by lra. lra.
Qed.

(** The blend never leaves the floor: for a success rate in [0,1] the
    value it clamps is [0.8 * (1 - rate)], at most 0.8. *)
Lemma recomputedEF_of_outcomes (h : list Z) :
  Forall (fun x => x = 0%Z \/ x = 1%Z) h -> recomputedEF h = 13 / 10.
Proof.
  intros Hh. pose proof (successRate_bounds h Hh) as [Hlo Hhi].
  unfold recomputedEF. cbn zeta.
  replace ((1 - successRate h) * 10 * (8 / 10)
           / (successRate h * 10 + (1 - successRate h) * 10))
    with (8 / 10 * (1 - successRate h)) by (field; lra).
  rewrite Rmax_left by lra. apply Rmin_right. lra.
Qed.

Lemma strengthOf_ge_1 (d : MemoryStrengthData) : 1 <= strengthOf d.
Proof.
  unfold strengthOf.
  pose proof (recomputedEF_bounds (historicalSuccessRate d)) as [Hlo _].
  destruct (lastTestResult d).
  - assert (Hln : 0 <= ln (INR (consecutiveSuccess d) + 1)).
    { apply ln_nonneg. pose proof (pos_INR (consecutiveSuccess d)). lra. }
    nra.
  - apply Rmax_l.
Qed.

Lemma calculateMemoryStrength_strength memory filePath :
  (calculateMemoryStrength memory filePath).1
  = strengthOf (default fallbackMemory (memory !! filePath)).
Proof.
  unfold calculateMemoryStrength. now destruct (memory !! filePath).
Qed.

(** C5. Whatever test outcomes the window of a file holds, and also when
    it is empty (success rate 0.7) or the file has no memory entry, the
    easiness factor [calculateMemoryStrength] recomputes lies in
    [1.3, 2.5]; that value is what the call stores in the entry. *)
Theorem easiness_factor_clamped memory filePath :
  let ef := recomputedEF
              (historicalSuccessRate (default fallbackMemory (memory !! filePath))) in
  13 / 10 <= ef <= 25 / 10
  /\ successRate [] = 7 / 10
  /\ (calculateMemoryStrength memory filePath).2 !! filePath
     = withEF ef <$> memory !! filePath.
Proof.
  cbn zeta. split; [apply recomputedEF_bounds |]. split; [reflexivity |].
  unfold calculateMemoryStrength.
  destruct (memory !! filePath) as [d |] eqn:Hd; cbn.
  - now rewrite lookup_insert_eq.
  - now rewrite Hd.
Qed.

(** C6. For every memory state of a file, [calculateMemoryStrength]
    returns at least 1, so the first disjunct of the filter of
    [getDueFiles], [strength < 0.8 && consecutiveSuccess < 3], never
    holds. *)
Theorem memory_strength_at_least_one memory filePath :
  1 <= (calculateMemoryStrength memory filePath).1
  /\ ~ dueByStrength (calculateMemoryStrength memory filePath).1
                     (memory !! filePath).
Proof.
  rewrite calculateMemoryStrength_strength.
  pose proof (strengthOf_ge_1 (default fallbackMemory (memory !! filePath))) as H.
  split; [exact H |]. intros [Hlt _]. lra.
Qed.

Lemma length_pushOutcome (h : list Z) (isCorrect : bool) :
  (length h <= 100)%nat -> (length (pushOutcome h isCorrect) <= 100)%nat.
Proof.
  intros Hh. unfold pushOutcome. rewrite length_app. cbn [length].
  destruct (100 <=? length h)%nat eqn:E.
  - apply Nat.leb_le in E. destruct h; cbn [tail length] in *; lia.
  - apply Nat.leb_gt in E. lia.
Qed.

Lemma windowOf_updateTestResult memory t filePath isCorrect other :
  windowOf (updateTestResult memory t filePath isCorrect) other
  = if decide (filePath = other)
    then pushOutcome (windowOf memory filePath) isCorrect
    else windowOf memory other.
Proof.
  unfold windowOf, updateTestResult. destruct (decide (filePath = other)) as [-> | Hne].
  - rewrite lookup_insert_eq. cbn. now destruct (memory !! other).
  - now rewrite lookup_insert_ne.
Qed.

Lemma window_bounded_step memory t filePath isCorrect :
  (forall other, (length (windowOf memory other) <= 100)%nat) ->
  forall other,
    (length (windowOf (updateTestResult memory t filePath isCorrect) other) <= 100)%nat.
Proof.
  intros Hinv other. rewrite windowOf_updateTestResult.
  destruct (decide (filePath = other)); [| apply Hinv].
  apply length_pushOutcome, Hinv.
Qed.

Lemma window_bounded_run (events : list (Z * string * bool)) memory :
  (forall other, (length (windowOf memory other) <= 100)%nat) ->
  forall other,
    (length (windowOf
               (foldl (fun m e => updateTestResult m e.1.1 e.1.2 e.2) memory events)
               other) <= 100)%nat.
Proof.
  revert memory. induction events as [| e events IH]; intros memory Hinv; cbn.
  - exact Hinv.
  - apply IH. now apply window_bounded_step.
Qed.

(** C9. After any history of recorded outcomes the window of every file
    holds at most 100 entries, and recording an outcome on a window of
    100 entries drops its oldest entry and appends the new one. *)
Theorem window_never_exceeds_100
    (events : list (Z * string * bool)) memory t filePath isCorrect
    (Hfull : length (windowOf memory filePath) = 100%nat) :
  (forall other, (length (windowOf (recordAll events) other) <= 100)%nat)
  /\ windowOf (updateTestResult memory t filePath isCorrect) filePath
     = tail (windowOf memory filePath) ++ [if isCorrect then 1%Z else 0%Z]
  /\ length (windowOf (updateTestResult memory t filePath isCorrect) filePath)
     = 100%nat.
Proof.
  split.
  - apply window_bounded_run. intros other. unfold windowOf.
    rewrite lookup_empty. cbn. lia.
  - rewrite windowOf_updateTestResult. rewrite decide_True by reflexivity.
    unfold pushOutcome. rewrite Hfull, Nat.leb_refl. split; [reflexivity |].
    rewrite length_app. cbn.
    destruct (windowOf memory filePath); cbn in *; lia.
Qed.

Lemma window_never_exceeds_100_witness :
  let full := {| EF := 13 / 10;
                 consecutiveSuccess := 100;
                 consecutiveFailures := 0;
                 lastTestResult := true;
                 historicalSuccessRate := replicate 100 1%Z;
                 lastReviewTime := Some 99%Z |} in
  let memory : gmap string MemoryStrengthData := {[ "note.md" := full ]} in
  length (windowOf memory "note.md") = 100%nat
  /\ ((forall other,
         (length (windowOf (recordAll [(0%Z, "note.md", true)]) other) <= 100)%nat)
      /\ windowOf (updateTestResult memory 100 "note.md" false) "note.md"
         = tail (windowOf memory "note.md") ++ [0%Z]
      /\ length (windowOf (updateTestResult memory 100 "note.md" false) "note.md")
         = 100%nat).
Proof.
  cbn zeta.
  assert (Hfull : length (windowOf
                            ({[ "note.md" :=
                                 {| EF := 13 / 10;
                                    consecutiveSuccess := 100;
                                    consecutiveFailures := 0;
                                    lastTestResult := true;
                                    historicalSuccessRate := replicate 100 1%Z;
                                    lastReviewTime := Some 99%Z |} ]}
                             : gmap string MemoryStrengthData) "note.md")
                  = 100%nat).
  { unfold windowOf. rewrite lookup_singleton_eq. reflexivity. }
  split; [exact Hfull |].
  exact (window_never_exceeds_100 [(0%Z, "note.md", true)] _ 100 "note.md" false Hfull).
Defined.

End MemoryStrengthFacts.

(** ** Engagement *)




(** ** Review intervals *)

Section ReviewIntervalFacts.

Variable st : DeepSeekPluginSettings.

Lemma scheduler_interval_antitone (n1 n2 : KnowledgeNode) :
  base (weight n1) <= base (weight n2) ->
  DeepSeekPlugin.calculateReviewInterval st n2
  <= DeepSeekPlugin.calculateReviewInterval st n1.
Proof.
  intros Hle. unfold DeepSeekPlugin.calculateReviewInterval. cbn zeta.
  apply Rle_min_compat_l, Rle_max_compat_l, IZR_le, round_le. lra.
Qed.

Lemma graph_interval_monotone (n1 n2 : KnowledgeNode) :
  base (weight n1) <= base (weight n2) ->
  KnowledgeGraph.calculateReviewInterval st n1
  <= KnowledgeGraph.calculateReviewInterval st n2.
Proof.
  intros Hle. unfold KnowledgeGraph.calculateReviewInterval. cbn zeta.
  apply Rle_min_compat_l, Rle_max_compat_l.
  unfold Rpower. apply exp_le. pose proof ln_2_pos. nra.
Qed.

(** C7, as the code has it. With [maxReviewInterval >= 1] the interval
    of the scheduler is [round(10 * (1 - weight))] clamped into
    [1, maxReviewInterval]; it does not grow with the weight but is
    monotonically non-increasing in it. The interval that is
    non-decreasing in the weight is the exponential one of the graph
    component. *)
Theorem scheduler_interval_clamped_antitone (n1 n2 : KnowledgeNode)
    (Hmax : 1 <= maxReviewInterval st)
    (Hle : base (weight n1) <= base (weight n2)) :
  let r := IZR (Num.round (10 * (1 - base (weight n1)))) in
  1 <= DeepSeekPlugin.calculateReviewInterval st n1 <= maxReviewInterval st
  /\ (1 <= r <= maxReviewInterval st ->
      DeepSeekPlugin.calculateReviewInterval st n1 = r)
  /\ (r <= 1 -> DeepSeekPlugin.calculateReviewInterval st n1 = 1)
  /\ (maxReviewInterval st <= r ->
      DeepSeekPlugin.calculateReviewInterval st n1 = maxReviewInterval st)
  /\ DeepSeekPlugin.calculateReviewInterval st n2
     <= DeepSeekPlugin.calculateReviewInterval st n1
  /\ KnowledgeGraph.calculateReviewInterval st n1
     <= KnowledgeGraph.calculateReviewInterval st n2.
Proof.
  cbn zeta.
  split; [| split; [| split; [| split; [| split]]]].
  - unfold DeepSeekPlugin.calculateReviewInterval. cbn zeta. split.
    + apply Rmin_glb; [exact Hmax | apply Rmax_l].
    + apply Rmin_l.
  - intros [H1 H2]. unfold DeepSeekPlugin.calculateReviewInterval. cbn zeta.
    rewrite (Rmax_right 1) by exact H1. now apply Rmin_right.
  - intros H1. unfold DeepSeekPlugin.calculateReviewInterval. cbn zeta.
    rewrite (Rmax_left 1) by exact H1. now apply Rmin_right.
  - intros H1. unfold DeepSeekPlugin.calculateReviewInterval. cbn zeta.
    apply Rmin_left. etransitivity; [exact H1 | apply Rmax_r].
  - now apply scheduler_interval_antitone.
  - now apply graph_interval_monotone.
Qed.

End ReviewIntervalFacts.

Lemma round_of_int (z : Z) : Num.round (IZR z) = z.
Proof.
  unfold Num.round. replace (IZR z + / 2) with (/ 2 + IZR z) by lra.
  rewrite Zfloor_addz, (Zfloor_eq 0 (/ 2)) by (simpl; lra). lia.
Qed.

Lemma scheduler_interval_at_0 :
  DeepSeekPlugin.calculateReviewInterval defaultGraphSettings (nodeOfBase 0) = 10.
Proof.
  unfold DeepSeekPlugin.calculateReviewInterval. cbn.
  replace (10 * (1 - 0)) with (IZR 10) by lra. rewrite round_of_int.
  rewrite Rmax_right by lra. apply Rmin_right. lra.
Qed.

Lemma scheduler_interval_at_1 :
  DeepSeekPlugin.calculateReviewInterval defaultGraphSettings (nodeOfBase 1) = 1.
Proof.
  unfold DeepSeekPlugin.calculateReviewInterval. cbn.
  replace (10 * (1 - 1)) with (IZR 0) by lra. rewrite round_of_int.
  rewrite Rmax_left by lra. apply Rmin_right. lra.
Qed.

(** C7 as stated fails: with the default [maxReviewInterval] of 30 the
    weight grows from 0 to 1 and the interval shrinks from 10 to 1. *)
Lemma scheduler_interval_does_not_grow :
  base (weight (nodeOfBase 0)) <= base (weight (nodeOfBase 1))
  /\ ~ (DeepSeekPlugin.calculateReviewInterval defaultGraphSettings (nodeOfBase 0)
        <= DeepSeekPlugin.calculateReviewInterval defaultGraphSettings (nodeOfBase 1)).
Proof.
  rewrite scheduler_interval_at_0, scheduler_interval_at_1. cbn. lra.
Qed.

Lemma scheduler_interval_clamped_antitone_witness :
  1 <= maxReviewInterval defaultGraphSettings
  /\ base (weight (nodeOfBase (2 / 10))) <= base (weight (nodeOfBase (7 / 10)))
  /\ DeepSeekPlugin.calculateReviewInterval defaultGraphSettings (nodeOfBase (7 / 10))
     <= DeepSeekPlugin.calculateReviewInterval defaultGraphSettings (nodeOfBase (2 / 10)).
Proof.
  assert (Hmax : 1 <= maxReviewInterval defaultGraphSettings) by (cbn; lra).
  assert (Hle : base (weight (nodeOfBase (2 / 10)))
                <= base (weight (nodeOfBase (7 / 10)))) by (cbn; lra).
  split; [exact Hmax |]. split; [exact Hle |].
  exact (proj1 (proj2 (proj2 (proj2 (proj2
    (scheduler_interval_clamped_antitone defaultGraphSettings _ _ Hmax Hle)))))).
Defined.

(** ** Centrality *)

Module CentralityFacts.

Import Centrality.

Section MapSet.

Context {V : Type}.
Implicit Types (m : list (string * V)) (k : string) (v : V).

Lemma mapSet_keys m k v k' : k' ∈ (mapSet m k v).*1 <-> k' = k \/ k' ∈ m.*1.
Proof.
  induction m as [| [k0 v0] m IH]; cbn.
  - rewrite list_elem_of_singleton. split; [auto | intros [H | H]; [exact H | ]].
    now apply elem_of_nil in H.
  - destruct (decide (k0 = k)) as [-> | Hne]; cbn; rewrite !elem_of_cons.
    + tauto.
    + rewrite IH. tauto.
Qed.

Lemma mapSet_values (P : V -> Prop) m k v :
  P v -> Forall (fun e => P e.2) m -> Forall (fun e => P e.2) (mapSet m k v).
Proof.
  intros Hv. induction 1 as [| [k0 v0] m H0 Hm IH]; cbn.
  - constructor; [exact Hv | constructor].
  - destruct (decide (k0 = k)); constructor; auto.
Qed.

End MapSet.

Lemma buildLinkGraph_from_keys (files g : list (string * list string)) k :
  k ∈ (foldl (fun g f => mapSet g f.1 f.2) g files).*1
  <-> k ∈ g.*1 \/ k ∈ files.*1.
Proof.
  revert g. induction files as [| f files IH]; intros g; cbn.
  - split; [auto | intros [H | H]; [exact H | now apply elem_of_nil in H]].
  - rewrite IH, mapSet_keys, elem_of_cons. tauto.
Qed.

Lemma buildLinkGraph_keys (files : list (string * list string)) k :
  k ∈ (buildLinkGraph files).*1 <-> k ∈ files.*1.
Proof.
  unfold buildLinkGraph. rewrite buildLinkGraph_from_keys. cbn.
  split; [intros [H | H]; [now apply elem_of_nil in H | exact H] | auto].
Qed.

Lemma buildLinkGraph_from_noLinks (files g : list (string * list string)) :
  noLinks files -> noLinks g ->
  noLinks (foldl (fun g f => mapSet g f.1 f.2) g files).
Proof.
  intros Hfiles. revert g. induction Hfiles as [| f files Hf _ IH]; intros g Hg; cbn.
  - exact Hg.
  - apply IH. now apply (mapSet_values (fun l => l = [])).
Qed.

Lemma buildLinkGraph_noLinks (files : list (string * list string)) :
  noLinks files -> noLinks (buildLinkGraph files).
Proof.
  intros H. apply buildLinkGraph_from_noLinks; [exact H | constructor].
Qed.

Lemma initialRank_from (g : list (string * list string)) (x : R)
    (pr : gmap string R) k :
  k ∈ g.*1 -> foldl (fun pr e => <[e.1 := x]> pr) pr g !! k = Some x.
Proof.
  revert pr.
  induction g as [| e g IH] using rev_ind; intros pr Hk.
  - now apply elem_of_nil in Hk.
  - rewrite foldl_snoc.
    rewrite fmap_app in Hk. cbn in Hk.
    destruct (decide (e.1 = k)) as [-> | Hne].
    + apply lookup_insert_eq.
    + rewrite lookup_insert_ne by exact Hne. apply IH.
      apply elem_of_app in Hk as [Hk | Hk]; [exact Hk |].
      apply list_elem_of_singleton in Hk. congruence.
Qed.

Lemma initialRank_lookup (g : list (string * list string)) k :
  k ∈ g.*1 -> initialRank g !! k = Some (1 / INR (length g)).
Proof. apply initialRank_from. Qed.

(** Without links nothing is distributed. *)
Lemma distribute_noLinks (g : list (string * list string))
    (pr newRank : gmap string R) :
  noLinks g -> foldl (distribute pr) newRank g = newRank.
Proof.
  induction 1 as [| e g He _ IH]; cbn; [reflexivity |].
  unfold distribute at 2. rewrite He. cbn. exact IH.
Qed.

(** So an iteration changes no rank: the loop that adds the random jump
    runs over the keys of [newRank], which is empty. *)
Lemma iteration_noLinks (g : list (string * list string)) (pr : gmap string R) :
  noLinks g -> iteration g pr = pr.
Proof.
  intros Hg. unfold iteration. cbn zeta.
  rewrite distribute_noLinks by exact Hg.
  now rewrite map_to_list_empty.
Qed.

Lemma pagerankAfter_noLinks (g : list (string * list string)) :
  noLinks g -> pagerankAfter g = initialRank g.
Proof.
  intros Hg. unfold pagerankAfter. generalize iterations.
  induction n as [| n IH]; [reflexivity |].
  rewrite Nat.iter_succ, IH. now apply iteration_noLinks.
Qed.

(** C3, as the code has it. In a link graph without edges every file of
    the graph keeps its initial rank [1 / |V|]: no rank is ever updated,
    and the random-jump term is never added. *)
Theorem centrality_without_edges (files : list (string * list string))
    (filePath : string)
    (Hedges : noLinks files) (Hin : filePath ∈ files.*1) :
  calculateCentrality files filePath = 1 / INR (length (buildLinkGraph files)).
Proof.
  unfold calculateCentrality, rankOf.
  rewrite pagerankAfter_noLinks by now apply buildLinkGraph_noLinks.
  rewrite initialRank_lookup by now apply buildLinkGraph_keys.
  reflexivity.
Qed.

Lemma centrality_without_edges_witness :
  let files := [("a.md", []); ("b.md", [])] in
  noLinks files /\ "b.md" ∈ files.*1
  /\ calculateCentrality files "b.md" = 1 / INR (length (buildLinkGraph files)).
Proof.
  cbn zeta.
  assert (Hedges : noLinks [("a.md", []); ("b.md", [])]).
  { repeat constructor. }
  assert (Hin : "b.md" ∈ [("a.md", [] : list string); ("b.md", [])].*1).
  { cbn. apply elem_of_cons. right. apply elem_of_cons. now left. }
  split; [exact Hedges |]. split; [exact Hin |].
  exact (centrality_without_edges _ _ Hedges Hin).
Defined.

(** C3 as stated fails: in the graph of one file without links the rank
    of the file is 1 and not [(1 - 0.85) / 1]. *)
Lemma centrality_is_not_random_jump :
  let files := [("a.md", [])] in
  noLinks files /\ "a.md" ∈ files.*1
  /\ calculateCentrality files "a.md"
     <> (1 - dampingFactor) / INR (length (buildLinkGraph files)).
Proof.
  cbn zeta.
  assert (Hedges : noLinks [("a.md", [])]) by repeat constructor.
  assert (Hin : "a.md" ∈ [("a.md", [] : list string)].*1).
  { cbn. apply elem_of_cons. now left. }
  split; [exact Hedges |]. split; [exact Hin |].
  unfold calculateCentrality, rankOf.
  rewrite pagerankAfter_noLinks by now apply buildLinkGraph_noLinks.
  rewrite initialRank_lookup by now apply buildLinkGraph_keys.
  unfold dampingFactor. cbn. lra.
Qed.

End CentralityFacts.

(** ** The weight model *)

Section WeightFacts.

Variable settings : MyPluginSettings.

Implicit Types (data : gmap string WeightData) (rd : DateReading)
  (d : WeightData) (N : nat) (filePath : string).

Lemma decayStep_lookup t reads data filePath other :
  decayStep settings t reads data filePath !! other
  = if decide (filePath = other)
    then decayNode settings t (reads filePath) <$> data !! filePath
    else data !! other.
Proof.
  unfold decayStep, calculateCurrentWeight, decayNode.
  destruct (data !! filePath) as [d |] eqn:Hd.
  - destruct (decide (filePath = other)) as [<- | Hne].
    + now rewrite lookup_insert_eq.
    + now rewrite lookup_insert_ne.
  - destruct (decide (filePath = other)) as [<- | Hne]; [exact Hd | reflexivity].
Qed.

Lemma foldl_decayStep_lookup t reads (keys : list string) data other :
  NoDup keys ->
  foldl (decayStep settings t reads) data keys !! other
  = if decide (other ∈ keys)
    then decayNode settings t (reads other) <$> data !! other
    else data !! other.
Proof.
  intros Hnd. revert data.
  induction Hnd as [| k keys Hk Hnd IH]; intros data; cbn.
  - rewrite decide_False by apply not_elem_of_nil. reflexivity.
  - rewrite IH, !decayStep_lookup.
    destruct (decide (k = other)) as [<- | Hne].
    + rewrite decide_False by exact Hk.
      rewrite decide_True by apply list_elem_of_here. reflexivity.
    + destruct (decide (other ∈ keys)) as [Hin | Hout].
      * rewrite decide_True by now apply list_elem_of_further. reflexivity.
      * rewrite decide_False; [reflexivity |].
        intros [-> | H]%elem_of_cons; [now apply Hne | now apply Hout].
Qed.

(** The batch rewrites every entry from its own fields. *)
Lemma applyDailyDecay_lookup t reads data filePath :
  applyDailyDecay settings t reads data !! filePath
  = decayNode settings t (reads filePath) <$> data !! filePath.
Proof.
  unfold applyDailyDecay.
  rewrite foldl_decayStep_lookup by apply NoDup_fst_map_to_list.
  destruct (decide (filePath ∈ (map_to_list data).*1)) as [Hin | Hout];
    [reflexivity |].
  destruct (data !! filePath) as [d |] eqn:Hd; [| reflexivity].
  exfalso. apply Hout. apply list_elem_of_fmap. exists (filePath, d).
  split; [reflexivity | now apply elem_of_map_to_list].
Qed.

Lemma boostFactor_bounds N : 0 <= 1 - 1 / (1 + Num.log2 (INR N + 1)) < 1.
Proof.
  assert (Hlog : 0 <= Num.log2 (INR N + 1)).
  { apply log2_nonneg. pose proof (pos_INR N). lra. }
  assert (Hinv : 0 < / (1 + Num.log2 (INR N + 1)) <= 1).
  { split; [apply Rinv_0_lt_compat; lra |].
    rewrite <- Rinv_1 at 3. apply Rinv_le_contravar; lra. }
  unfold Rdiv. lra.
Qed.

Lemma interactionBeta_nonneg N :
  0 <= betaCoefficient settings -> 0 <= interactionBeta settings N.
Proof.
  intros Hb. unfold interactionBeta.
  pose proof (tanh_bounds ((INR N - 3) / 2)). apply Rmult_le_pos; lra.
Qed.

Lemma interactionBoost_nonneg N :
  0 <= betaCoefficient settings -> 0 <= interactionBoost settings N.
Proof.
  intros Hb. unfold interactionBoost.
  apply Rmult_le_pos; [now apply interactionBeta_nonneg | apply boostFactor_bounds].
Qed.

Lemma interactionBoost_0 : interactionBoost settings 0 = 0.
Proof.
  unfold interactionBoost. cbn [INR].
  replace (0 + 1) with 1 by lra. rewrite log2_1. lra.
Qed.


(** With no time elapsed the decay factor is 1. *)
Lemma timeDecay_same_instant rd d :
  now rd = lastUpdated d ->
  timeDecay settings rd d = alpha settings * initialWeight d.
Proof.
  intros Hnow. unfold timeDecay, daysElapsed. rewrite Hnow, Z.sub_diag.
  unfold Rdiv. rewrite Rmult_0_l, sqrt_0, Rmult_0_r, exp_0. lra.
Qed.

(** A second pass at the instant of the first one has nothing to decay
    and nothing to boost: it stores [alpha * base], rounded. *)
Lemma decayNode_again t rd1 rd2 d :
  now rd2 = t ->
  decayNode settings t rd2 (decayNode settings t rd1 d)
  = {| initialWeight :=
         Num.toFixed2 (alpha settings * currentWeight settings rd1 d);
       lastUpdated := t;
       interactionCount := 0;
       previousEngagement := previousEngagement d |}.
Proof.
  intros Hnow. unfold decayNode at 1. f_equal.
  unfold currentWeight at 1.
  change (interactionCount (decayNode settings t rd1 d)) with 0%nat.
  rewrite interactionBoost_0, timeDecay_same_instant by exact Hnow.
  change (initialWeight (decayNode settings t rd1 d))
    with (currentWeight settings rd1 d).
  f_equal. lra.
Qed.

End WeightFacts.

Section DailyDecayFacts.

Implicit Types (data : gmap string WeightData) (filePath : string).

(** C8, as the code has it. With [alpha = 1], the default, a second run
    of [applyDailyDecay] whose clock readings all equal the instant of
    the first run leaves every entry as the first run left it. *)
Theorem daily_decay_idempotent_at_same_instant
    (settings : MyPluginSettings) (t : Z) (reads1 reads2 : string -> DateReading)
    data
    (Halpha : alpha settings = 1)
    (Hsame : forall filePath, now (reads2 filePath) = t) :
  applyDailyDecay settings t reads2 (applyDailyDecay settings t reads1 data)
  = applyDailyDecay settings t reads1 data.
Proof.
  apply map_eq. intros filePath. rewrite !applyDailyDecay_lookup.
  destruct (data !! filePath) as [d |]; cbn; [| reflexivity]. f_equal.
  rewrite decayNode_again by apply Hsame.
  rewrite Halpha, Rmult_1_l. unfold currentWeight at 1.
  rewrite toFixed2_idempotent. reflexivity.
Qed.

Lemma daily_decay_idempotent_at_same_instant_witness :
  let data : gmap string WeightData :=
    {[ "note.md" := mkWeightData (5 / 10) 1699000000000 4 (Some 0) ]} in
  alpha DEFAULT_SETTINGS = 1
  /\ (forall filePath : string, now someReading = someInstant)
  /\ applyDailyDecay DEFAULT_SETTINGS someInstant (fun _ => someReading)
       (applyDailyDecay DEFAULT_SETTINGS someInstant (fun _ => someReading) data)
     = applyDailyDecay DEFAULT_SETTINGS someInstant (fun _ => someReading) data.
Proof.
  cbn zeta. split; [reflexivity |]. split; [reflexivity |].
  exact (daily_decay_idempotent_at_same_instant DEFAULT_SETTINGS someInstant
           (fun _ => someReading) (fun _ => someReading) _
           eq_refl (fun _ => eq_refl)).
Defined.

Lemma weight_at_same_instant (settings : MyPluginSettings) (w : R) (p : option R) :
  currentWeight settings someReading (mkWeightData w someInstant 0 p)
  = Num.toFixed2 (alpha settings * w).
Proof.
  unfold currentWeight. cbn [interactionCount].
  rewrite interactionBoost_0, timeDecay_same_instant by reflexivity.
  cbn [initialWeight]. f_equal. lra.
Qed.

(** C8 as stated fails when [alpha] is not 1: with [alpha = 2] the first
    run turns a base weight of 0.25 into 0.5, and a second run at the
    same instant turns that into 1. *)
Lemma daily_decay_not_idempotent_for_doubled_alpha :
  let data : gmap string WeightData :=
    {[ "note.md" := mkWeightData (25 / 100) someInstant 0 (Some 0) ]} in
  let once := applyDailyDecay doubledAlphaSettings someInstant
                (fun _ => someReading) data in
  let twice := applyDailyDecay doubledAlphaSettings someInstant
                 (fun _ => someReading) once in
  initialWeight <$> once !! "note.md" = Some (5 / 10)
  /\ initialWeight <$> twice !! "note.md" = Some 1
  /\ twice <> once.
Proof.
  cbn zeta.
  assert (H1 : initialWeight <$>
               applyDailyDecay doubledAlphaSettings someInstant
                 (fun _ => someReading)
                 ({[ "note.md" := mkWeightData (25 / 100) someInstant 0 (Some 0) ]}
                  : gmap string WeightData) !! "note.md" = Some (5 / 10)).
  { rewrite applyDailyDecay_lookup, lookup_singleton_eq.
    cbn [fmap option_fmap option_map decayNode initialWeight]. f_equal.
    rewrite weight_at_same_instant. cbn [alpha doubledAlphaSettings].
    replace (2 * (25 / 100)) with (IZR 50 / 100) by lra.
    rewrite toFixed2_of_hundredth. lra. }
  assert (H2 : initialWeight <$>
               applyDailyDecay doubledAlphaSettings someInstant
                 (fun _ => someReading)
                 (applyDailyDecay doubledAlphaSettings someInstant
                    (fun _ => someReading)
                    ({[ "note.md" := mkWeightData (25 / 100) someInstant 0 (Some 0) ]}
                     : gmap string WeightData)) !! "note.md" = Some 1).
  { rewrite !applyDailyDecay_lookup, lookup_singleton_eq.
    cbn [fmap option_fmap option_map]. f_equal.
    rewrite decayNode_again by reflexivity. cbn [initialWeight].
    rewrite weight_at_same_instant. cbn [alpha doubledAlphaSettings].
    replace (2 * (25 / 100)) with (IZR 50 / 100) by lra.
    rewrite toFixed2_of_hundredth.
    replace (2 * (IZR 50 / 100)) with (IZR 100 / 100) by lra.
    rewrite toFixed2_of_hundredth. lra. }
  split; [exact H1 |]. split; [exact H2 |].
  intros Heq. rewrite Heq, H1 in H2. injection H2. lra.
Qed.






End DailyDecayFacts.

Section ReachableFromEmptyStore.

Lemma interactionBoost_default_3 : interactionBoost DEFAULT_SETTINGS 3 = 2 / 15.
Proof.
  unfold interactionBoost, interactionBeta. cbn [betaCoefficient DEFAULT_SETTINGS].
  replace (INR 3) with 3 by (cbn; lra).
  replace ((3 - 3) / 2) with 0 by lra. rewrite tanh_0.
  replace (3 + 1) with 4 by lra. rewrite log2_4. lra.
Qed.

(** The entry [updateInteraction] leaves for the file it is called on,
    when the path has an entry or names no member of
    [Object.prototype]. *)
Lemma updateInteraction_lookup (settings : MyPluginSettings)
    (data : gmap string WeightData) (t : Z) (filePath : string) :
  prototypeMember filePath = false \/ is_Some (data !! filePath) ->
  exists d',
    updateInteraction settings data t filePath !! filePath = Some d'
    /\ initialWeight d'
       = default (settingsInitialWeight settings)
           (initialWeight <$> data !! filePath)
    /\ interactionCount d'
       = S (default 0%nat (interactionCount <$> data !! filePath))
    /\ lastUpdated d' = t.
Proof.
  intros Hkey. unfold updateInteraction.
  destruct (data !! filePath) as [d |] eqn:Hd.
  - rewrite lookup_insert_eq. eexists. split; [reflexivity |]. now cbn.
  - destruct Hkey as [-> | [d Hsome]]; [| discriminate].
    rewrite lookup_insert_eq. eexists. split; [reflexivity |]. now cbn.
Qed.

(** One round of three edits and a decay, from an entry without
    interactions, or from no entry at all. *)
Lemma editThriceAndDecay_lookup (rd : DateReading) (filePath : string)
    (data : gmap string WeightData) :
  prototypeMember filePath = false ->
  (forall d, data !! filePath = Some d -> interactionCount d = 0%nat) ->
  let w := default (settingsInitialWeight DEFAULT_SETTINGS)
             (initialWeight <$> data !! filePath) in
  exists d',
    editThriceAndDecay DEFAULT_SETTINGS rd filePath data !! filePath = Some d'
    /\ initialWeight d' = Num.toFixed2 (w + 2 / 15)
    /\ interactionCount d' = 0%nat.
Proof.
  intros Hname Hcount. cbn zeta. unfold editThriceAndDecay. cbn zeta.
  destruct (updateInteraction_lookup DEFAULT_SETTINGS data (now rd) filePath
              (or_introl Hname))
    as (d1 & Hd1 & Hw1 & Hn1 & _).
  destruct (updateInteraction_lookup DEFAULT_SETTINGS
              (updateInteraction DEFAULT_SETTINGS data (now rd) filePath)
              (now rd) filePath (or_introl Hname))
    as (d2 & Hd2 & Hw2 & Hn2 & _).
  destruct (updateInteraction_lookup DEFAULT_SETTINGS
              (updateInteraction DEFAULT_SETTINGS
                 (updateInteraction DEFAULT_SETTINGS data (now rd) filePath)
                 (now rd) filePath)
              (now rd) filePath (or_introl Hname))
    as (d3 & Hd3 & Hw3 & Hn3 & Ht3).
  rewrite Hd2 in Hw3, Hn3. rewrite Hd1 in Hw2, Hn2.
  cbn [fmap option_fmap option_map default from_option] in Hw2, Hn2, Hw3, Hn3.
  unfold Datatypes.id in Hw2, Hn2, Hw3, Hn3.
  assert (Hn0 : default 0%nat (interactionCount <$> data !! filePath) = 0%nat).
  { destruct (data !! filePath) as [d |] eqn:Hd; [| reflexivity].
    cbn. now apply Hcount. }
  rewrite applyDailyDecay_lookup, Hd3.
  eexists. split; [reflexivity |]. split; [| reflexivity].
  cbn [decayNode initialWeight]. unfold currentWeight. f_equal.
  rewrite timeDecay_same_instant by (now rewrite Ht3).
  rewrite Hn3, Hn2, Hn1, Hn0, interactionBoost_default_3.
  rewrite Hw3, Hw2, Hw1. cbn [alpha DEFAULT_SETTINGS]. lra.
Qed.

(** The state of the counterexample to C1 does not have to be loaded
    from disk. With the default settings and an empty store, four rounds
    of three edits followed by the decay command, at one instant, leave
    the base weights 0.63, 0.76, 0.89 and 1.02. *)
Lemma base_weight_above_one_from_empty_store :
  initialWeight <$>
    Nat.iter 4 (editThriceAndDecay DEFAULT_SETTINGS someReading "note.md") ∅
      !! "note.md"
  = Some (102 / 100).
Proof.
  assert (Hstep : forall (data : gmap string WeightData) (w : R) (n : Z),
    default (settingsInitialWeight DEFAULT_SETTINGS)
      (initialWeight <$> data !! "note.md") = w ->
    (forall d, data !! "note.md" = Some d -> interactionCount d = 0%nat) ->
    0 <= w + 2 / 15 ->
    IZR n <= 100 * (w + 2 / 15) + / 2 < IZR n + 1 ->
    default (settingsInitialWeight DEFAULT_SETTINGS)
      (initialWeight <$>
         editThriceAndDecay DEFAULT_SETTINGS someReading "note.md" data
           !! "note.md") = IZR n / 100
    /\ (forall d,
          editThriceAndDecay DEFAULT_SETTINGS someReading "note.md" data
            !! "note.md" = Some d -> interactionCount d = 0%nat)).
  { intros data w n Hw Hcount Hpos Hn.
    destruct (editThriceAndDecay_lookup someReading "note.md" data eq_refl Hcount)
      as (d' & Hd' & Hbase & Hzero).
    rewrite Hd'. cbn [fmap option_fmap option_map default from_option].
    unfold Datatypes.id. split.
    - rewrite Hbase, Hw. now apply toFixed2_eq.
    - intros d [= <-]. exact Hzero. }
  cbn [Nat.iter nat_rect].
  destruct (Hstep ∅ (5 / 10) 63%Z) as [H1 C1];
    [reflexivity | intros d; rewrite lookup_empty; discriminate | lra | lra |].
  destruct (Hstep _ _ 76%Z H1 C1) as [H2 C2]; [lra | lra |].
  destruct (Hstep _ _ 89%Z H2 C2) as [H3 C3]; [lra | lra |].
  destruct (Hstep _ _ 102%Z H3 C3) as [H4 _]; [lra | lra |].
  destruct (editThriceAndDecay_lookup someReading "note.md" _ eq_refl C3)
    as (d' & Hd' & _ & _).
  rewrite Hd' in H4 |- *.
  cbn [fmap option_fmap option_map default from_option] in H4 |- *.
  unfold Datatypes.id in H4. f_equal. rewrite H4. lra.
Qed.

End ReachableFromEmptyStore.

(** ** Monotonicity of the current weight *)

Section MonotonicityFacts.

Implicit Types (rd : DateReading) (d : WeightData) (N : nat).

Lemma interactionBeta_le (settings : MyPluginSettings) N N' :
  0 <= betaCoefficient settings -> (N <= N')%nat ->
  interactionBeta settings N <= interactionBeta settings N'.
Proof.
  intros Hb HN. unfold interactionBeta.
  apply Rmult_le_compat_l; [exact Hb |].
  assert (tanh ((INR N - 3) / 2) <= tanh ((INR N' - 3) / 2)).
  { apply tanh_le. apply le_INR in HN. lra. }
  lra.
Qed.

Lemma boostFactor_le N N' :
  (N <= N')%nat ->
  1 - 1 / (1 + Num.log2 (INR N + 1)) <= 1 - 1 / (1 + Num.log2 (INR N' + 1)).
Proof.
  intros HN. apply le_INR in HN. pose proof (pos_INR N) as HN0.
  assert (H0 : 0 <= Num.log2 (INR N + 1)) by (apply log2_nonneg; lra).
  assert (Hle : Num.log2 (INR N + 1) <= Num.log2 (INR N' + 1))
    by (apply log2_le; lra).
  assert (/ (1 + Num.log2 (INR N' + 1)) <= / (1 + Num.log2 (INR N + 1)))
    by (apply Rinv_le_contravar; lra).
  unfold Rdiv. lra.
Qed.

Lemma interactionBoost_le (settings : MyPluginSettings) N N' :
  0 <= betaCoefficient settings -> (N <= N')%nat ->
  interactionBoost settings N <= interactionBoost settings N'.
Proof.
  intros Hb HN. unfold interactionBoost.
  apply Rmult_le_compat.
  - now apply interactionBeta_nonneg.
  - apply boostFactor_bounds.
  - now apply interactionBeta_le.
  - now apply boostFactor_le.
Qed.

Lemma seasonalLambda_bounds (settings : MyPluginSettings) rd :
  decayLambda settings - 1 / 100 <= seasonalLambda settings rd
  <= decayLambda settings + 1 / 100.
Proof.
  unfold seasonalLambda.
  pose proof (SIN_bound (2 * PI * IZR (dayOfYear rd) / 365)). lra.
Qed.

Lemma timeDecay_antitone (settings : MyPluginSettings) rd1 rd2 d1 d2 :
  0 <= alpha settings * initialWeight d1 ->
  initialWeight d1 = initialWeight d2 ->
  0 <= seasonalLambda settings rd2 ->
  seasonalLambda settings rd1 <= seasonalLambda settings rd2 ->
  0 <= daysElapsed rd1 d1 <= daysElapsed rd2 d2 ->
  timeDecay settings rd2 d2 <= timeDecay settings rd1 d1.
Proof.
  intros Hw Heq Hpos Hseason [H0 Hle]. unfold timeDecay. rewrite <- Heq.
  apply Rmult_le_compat_l; [exact Hw |]. apply exp_le.
  assert (Hs : sqrt (daysElapsed rd1 d1) <= sqrt (daysElapsed rd2 d2))
    by now apply sqrt_le_1_alt.
  pose proof (sqrt_pos (daysElapsed rd1 d1)). nra.
Qed.

Lemma daysElapsed_le rd1 rd2 d1 d2 :
  (0 <= now rd1 - lastUpdated d1 <= now rd2 - lastUpdated d2)%Z ->
  0 <= daysElapsed rd1 d1 <= daysElapsed rd2 d2.
Proof.
  intros [H0 Hle]. unfold daysElapsed.
  apply IZR_le in H0, Hle.
  assert (Hday : 0 < / IZR Num.msPerDay).
  { apply Rinv_0_lt_compat. apply IZR_lt. reflexivity. }
  unfold Rdiv. split.
  - apply Rmult_le_pos; lra.
  - apply Rmult_le_compat_r; lra.
Qed.

(** C2, as the code has it. With the default tunables and a
    non-negative base weight, the current weight does not increase when
    the elapsed time grows, provided the seasonal decay rate of the
    later evaluation is not smaller than that of the earlier one (as it
    is on the same day of the year, or at one evaluation instant for an
    older [lastUpdated]); and it does not decrease when the interaction
    count grows, the rest being equal. *)
Theorem current_weight_monotone
    (w : R) (p : option R) (N N' : nat) (lu1 lu2 : Z) (rd1 rd2 : DateReading)
    (Hw : 0 <= w)
    (Helapsed : (0 <= now rd1 - lu1 <= now rd2 - lu2)%Z)
    (Hseason : seasonalLambda DEFAULT_SETTINGS rd1
               <= seasonalLambda DEFAULT_SETTINGS rd2)
    (HN : (N <= N')%nat) :
  currentWeight DEFAULT_SETTINGS rd2 (mkWeightData w lu2 N p)
  <= currentWeight DEFAULT_SETTINGS rd1 (mkWeightData w lu1 N p)
  /\ currentWeight DEFAULT_SETTINGS rd1 (mkWeightData w lu1 N p)
     <= currentWeight DEFAULT_SETTINGS rd1 (mkWeightData w lu1 N' p).
Proof.
  split; unfold currentWeight; apply toFixed2_le; cbn [interactionCount].
  - apply Rplus_le_compat_r. apply timeDecay_antitone.
    + cbn. lra.
    + reflexivity.
    + pose proof (seasonalLambda_bounds DEFAULT_SETTINGS rd2). cbn in *. lra.
    + exact Hseason.
    + now apply daysElapsed_le.
  - apply Rplus_le_compat.
    + right. reflexivity.
    + apply interactionBoost_le; [cbn; lra | exact HN].
Qed.

Lemma current_weight_monotone_witness :
  0 <= 5 / 10
  /\ (0 <= now someReading - 1699000000000
      <= now someReading - 1690000000000)%Z
  /\ seasonalLambda DEFAULT_SETTINGS someReading
     <= seasonalLambda DEFAULT_SETTINGS someReading
  /\ (2 <= 5)%nat
  /\ (currentWeight DEFAULT_SETTINGS someReading
        (mkWeightData (5 / 10) 1690000000000 2 None)
      <= currentWeight DEFAULT_SETTINGS someReading
           (mkWeightData (5 / 10) 1699000000000 2 None)
      /\ currentWeight DEFAULT_SETTINGS someReading
           (mkWeightData (5 / 10) 1699000000000 2 None)
         <= currentWeight DEFAULT_SETTINGS someReading
              (mkWeightData (5 / 10) 1699000000000 5 None)).
Proof.
  assert (Hw : 0 <= 5 / 10) by lra.
  assert (Helapsed : (0 <= now someReading - 1699000000000
                      <= now someReading - 1690000000000)%Z)
    by (unfold someReading, someInstant; cbn [now]; lia).
  assert (Hseason : seasonalLambda DEFAULT_SETTINGS someReading
                    <= seasonalLambda DEFAULT_SETTINGS someReading)
    by apply Rle_refl.
  assert (HN : (2 <= 5)%nat) by lia.
  split; [exact Hw |]. split; [exact Helapsed |]. split; [exact Hseason |].
  split; [exact HN |].
  exact (current_weight_monotone (5 / 10) None 2 5 _ _ someReading someReading
           Hw Helapsed Hseason HN).
Defined.

End MonotonicityFacts.

Section SeasonalCounterexample.

Lemma sqrt3_lower : 1732 / 1000 <= sqrt 3.
Proof.
  rewrite <- (sqrt_square (1732 / 1000)) by lra.
  apply sqrt_le_1_alt. lra.
Qed.

(** On the middle third of [0, PI] the sine is at least [sin (PI / 3)]. *)
Lemma sin_middle (x : R) : PI / 3 <= x <= 2 * PI / 3 -> sqrt 3 / 2 <= sin x.
Proof.
  intros [Hlo Hhi]. pose proof PI_RGT_0 as Hpi. rewrite <- sin_PI3.
  destruct (Rle_dec x (PI / 2)) as [Hx | Hx].
  - apply sin_incr_1; lra.
  - rewrite <- (sin_PI_x x). apply sin_incr_1; lra.
Qed.

Lemma exp_lower_12 : 2401 / 10000 <= exp (- (12 / 10)).
Proof.
  replace (- (12 / 10))
    with ((- (3 / 10) + - (3 / 10)) + (- (3 / 10) + - (3 / 10))) by lra.
  rewrite !exp_plus.
  pose proof (exp_ineq1_le (- (3 / 10))) as H.
  assert (H2 : 49 / 100 <= exp (- (3 / 10)) * exp (- (3 / 10))) by nra.
  nra.
Qed.

Lemma spring_dayOfYear : dayOfYear springReading = 91%Z.
Proof. reflexivity. Qed.

Lemma autumn_dayOfYear : dayOfYear autumnReading = 267%Z.
Proof. reflexivity. Qed.

Lemma spring_lambda :
  5866 / 100000 <= seasonalLambda DEFAULT_SETTINGS springReading <= 6 / 100.
Proof.
  split.
  2:{ pose proof (seasonalLambda_bounds DEFAULT_SETTINGS springReading) as [_ H].
      cbn [decayLambda DEFAULT_SETTINGS] in H. lra. }
  unfold seasonalLambda. rewrite spring_dayOfYear. cbn [decayLambda DEFAULT_SETTINGS].
  pose proof PI_RGT_0 as Hpi. pose proof sqrt3_lower.
  assert (sqrt 3 / 2 <= sin (2 * PI * 91 / 365)) by (apply sin_middle; lra).
  lra.
Qed.

Lemma autumn_lambda :
  seasonalLambda DEFAULT_SETTINGS autumnReading <= 4134 / 100000.
Proof.
  unfold seasonalLambda. rewrite autumn_dayOfYear. cbn [decayLambda DEFAULT_SETTINGS].
  pose proof PI_RGT_0 as Hpi. pose proof sqrt3_lower.
  replace (2 * PI * 267 / 365) with (2 * PI * 267 / 365 - PI + PI) by lra.
  rewrite neg_sin.
  assert (sqrt 3 / 2 <= sin (2 * PI * 267 / 365 - PI)) by (apply sin_middle; lra).
  lra.
Qed.

Lemma spring_elapsed : sqrt (daysElapsed springReading oldNote) = 20.
Proof.
  unfold daysElapsed.
  replace (IZR (now springReading - lastUpdated oldNote) / IZR Num.msPerDay)
    with (20 * 20).
  - apply sqrt_square. lra.
  - change (now springReading - lastUpdated oldNote)%Z
      with (400 * Num.msPerDay)%Z.
    rewrite mult_IZR. field. apply not_0_IZR. discriminate.
Qed.

Lemma autumn_elapsed : sqrt (daysElapsed autumnReading oldNote) = 24.
Proof.
  unfold daysElapsed.
  replace (IZR (now autumnReading - lastUpdated oldNote) / IZR Num.msPerDay)
    with (24 * 24).
  - apply sqrt_square. lra.
  - change (now autumnReading - lastUpdated oldNote)%Z
      with (576 * Num.msPerDay)%Z.
    rewrite mult_IZR. field. apply not_0_IZR. discriminate.
Qed.

(** C2 as stated fails when the elapsed time grows because time passes:
    the decay rate follows the seasons. The note weighs less on 1 April,
    400 days after its update, than on 24 September, 576 days after
    it. *)
Lemma current_weight_rises_with_elapsed_time :
  0 <= initialWeight oldNote
  /\ (0 <= now springReading - lastUpdated oldNote
      <= now autumnReading - lastUpdated oldNote)%Z
  /\ ~ (currentWeight DEFAULT_SETTINGS autumnReading oldNote
        <= currentWeight DEFAULT_SETTINGS springReading oldNote).
Proof.
  split; [cbn; lra |]. split; [split; discriminate |].
  unfold currentWeight. cbn [interactionCount oldNote].
  rewrite interactionBoost_0, !Rplus_0_r.
  unfold timeDecay. rewrite spring_elapsed, autumn_elapsed.
  cbn [alpha DEFAULT_SETTINGS initialWeight oldNote].
  pose proof spring_lambda as [Hs1 Hs2]. pose proof autumn_lambda as Ha.
  set (l1 := seasonalLambda DEFAULT_SETTINGS springReading) in *.
  set (l2 := seasonalLambda DEFAULT_SETTINGS autumnReading) in *.
  assert (Hlow : 2401 / 10000 <= exp (- l1 * 20)).
  { etransitivity; [apply exp_lower_12 | apply exp_le; lra]. }
  assert (Hratio : exp (- l1 * 20) * (1 + (l1 * 20 - l2 * 24)) <= exp (- l2 * 24)).
  { replace (- l2 * 24) with (- l1 * 20 + (l1 * 20 - l2 * 24)) by lra.
    rewrite exp_plus. apply Rmult_le_compat_l; [left; apply exp_pos |].
    apply exp_ineq1_le. }
  pose proof (toFixed2_near (1 * 1 * exp (- l1 * 20))) as [_ Hup].
  pose proof (toFixed2_near (1 * 1 * exp (- l2 * 24))) as [Hdown _].
  intros Hle. nra.
Qed.

End SeasonalCounterexample.

(** ** Text complexity *)

Module TextFacts.

Import Text.

Lemma complexity_of_blank (content : jsString) :
  isBlank content = true -> calculateComplexity content = Finite (1 / 10).
Proof. intros H. unfold calculateComplexity. now rewrite H. Qed.

Lemma normalize_range (g x : R) : normalize g = Finite x -> 0 <= x < 1.
Proof.
  unfold normalize. destruct (Rlt_dec (g + 1) 0); [discriminate |].
  destruct (Req_EM_T (g + 1) 0); intros [= <-]; [lra |].
  pose proof (exp_pos (- (5 / 10) * (ln (g + 1) - 25 / 10))) as He.
  assert (H : 0 < / (1 + exp (- (5 / 10) * (ln (g + 1) - 25 / 10))) < 1).
  { split; [apply Rinv_0_lt_compat; lra |].
    rewrite <- Rinv_1 at 3. apply Rinv_lt_contravar; lra. }
  unfold Rdiv. lra.
Qed.

(** When the result is a number it is in [0.1, 1]. *)
Lemma complexity_range (content : jsString) (x : R) :
  calculateComplexity content = Finite x -> 1 / 10 <= x <= 1.
Proof.
  unfold calculateComplexity. destruct (isBlank content).
  - intros [= <-]. lra.
  - unfold complexityOfCounts.
    destruct (normalize (fkGrade (countText (plainText content))))
      as [n |] eqn:Hn; [| discriminate].
    apply normalize_range in Hn. cbn zeta. intros [= <-].
    rewrite Rmin_left by lra.
    pose proof (toFixed2_of_hundredth 10) as Hlo.
    pose proof (toFixed2_of_hundredth 100) as Hhi.
    pose proof (toFixed2_le (IZR 10 / 100) (1 / 10 + (1 - 1 / 10) * n)).
    pose proof (toFixed2_le (1 / 10 + (1 - 1 / 10) * n) (IZR 100 / 100)).
    lra.
Qed.

(** The result is [NaN] exactly when the grade is below -1. *)
Lemma complexity_NaN_iff (content : jsString) :
  calculateComplexity content = NaN
  <-> isBlank content = false
      /\ fkGrade (countText (plainText content)) + 1 < 0.
Proof.
  unfold calculateComplexity, complexityOfCounts, normalize.
  destruct (isBlank content); [split; [discriminate | intros [? _]; discriminate] |].
  destruct (Rlt_dec (fkGrade (countText (plainText content)) + 1) 0) as [Hlt | Hge].
  - split; auto.
  - destruct (Req_EM_T (fkGrade (countText (plainText content)) + 1) 0);
      (split; [discriminate | intros [_ ?]; contradiction]).
Qed.

(** How the pipeline reads a few texts. *)
Example plainText_of_markdown :
  plainText (ofAscii "# Title - one [link](target) <b>bold</b>")
  = ofAscii "Title one  bold".
Proof. reflexivity. Qed.

Example splitWords_of_two_words :
  splitWords (ofAscii "hello world") [] false false
  = [ofAscii "hello"; ofAscii " "; ofAscii "world"].
Proof. reflexivity. Qed.

Example counts_of_two_words :
  countText (plainText (ofAscii "hello world"))
  = {| sentences := 2; totalWords := 2; chineseWords := 0; latinSyllableCount := 4 |}.
Proof. reflexivity. Qed.

Lemma counts_of_single_letter :
  countText (plainText (ofAscii "a"))
  = {| sentences := 2; totalWords := 1; chineseWords := 0; latinSyllableCount := 1 |}.
Proof. reflexivity. Qed.

Lemma counts_of_single_CJK :
  countText (plainText [20013%Z])
  = {| sentences := 2; totalWords := 2; chineseWords := 1; latinSyllableCount := 0 |}.
Proof. reflexivity. Qed.

(** C4 fails on the code: for the one-letter text "a" the grade is
    [0.39 * (1 / 2) + 11.8 * (1 / 1) - 15.59 = -3.595], the logarithm
    is taken of a negative number, and the result is [NaN]. *)
Theorem complexity_of_single_letter_is_NaN :
  calculateComplexity (ofAscii "a") = NaN.
Proof.
  apply complexity_NaN_iff. split; [reflexivity |].
  rewrite counts_of_single_letter. unfold fkGrade, syllables. cbn. lra.
Qed.

(** The same happens for a text of one CJK character. *)
Lemma complexity_of_single_CJK_is_NaN : calculateComplexity [20013%Z] = NaN.
Proof.
  apply complexity_NaN_iff. split; [reflexivity |].
  rewrite counts_of_single_CJK. unfold fkGrade, syllables. cbn. lra.
Qed.

(** A text of two words gets a number, and it is in range. *)
Lemma complexity_of_two_words :
  exists x, calculateComplexity (ofAscii "hello world") = Finite x
            /\ 1 / 10 <= x <= 1.
Proof.
  destruct (calculateComplexity (ofAscii "hello world")) as [x |] eqn:E.
  - exists x. split; [reflexivity | now apply complexity_range in E].
  - apply complexity_NaN_iff in E as [_ E]. exfalso.
    rewrite counts_of_two_words in E. unfold fkGrade, syllables in E.
    cbn in E. lra.
Qed.

End TextFacts.

(** * Further properties *)

(** ** Histories of test outcomes *)

Section OutcomeHistories.

Implicit Types (memory : gmap string MemoryStrengthData) (filePath : string)
  (events : list (Z * string * bool)) (os : list bool).

Lemma recordAll_snoc events (e : Z * string * bool) :
  recordAll (events ++ [e]) = updateTestResult (recordAll events) e.1.1 e.1.2 e.2.
Proof. unfold recordAll. now rewrite foldl_snoc. Qed.

Lemma outcomesFor_snoc filePath events (e : Z * string * bool) :
  outcomesFor filePath (events ++ [e])
  = outcomesFor filePath events ++ (if decide (e.1.2 = filePath) then [e.2] else []).
Proof.
  unfold outcomesFor. rewrite filter_app, fmap_app. f_equal.
  rewrite filter_cons, filter_nil.
  destruct (decide (e.1.2 = filePath)); reflexivity.
Qed.

Lemma runAtEnd_snoc (b x : bool) os :
  runAtEnd b (os ++ [x]) = if Bool.eqb x b then S (runAtEnd b os) else 0%nat.
Proof. unfold runAtEnd. rewrite rev_app_distr. reflexivity. Qed.

(** The window after one more outcome, in terms of the whole history. *)
Lemma pushOutcome_recent os (x : bool) :
  pushOutcome (outcomeNumber <$> drop (length os - 100) os) x
  = outcomeNumber <$> drop (length (os ++ [x]) - 100) (os ++ [x]).
Proof.
  unfold pushOutcome. rewrite length_fmap, length_drop, length_app. cbn [length].
  change (if x then 1%Z else 0%Z) with (outcomeNumber x).
  destruct (100 <=? length os - (length os - 100))%nat eqn:E.
  - apply Nat.leb_le in E.
    assert (Hlen : (100 <= length os)%nat) by lia.
    replace (length os + 1 - 100)%nat with (length os - 100 + 1)%nat by lia.
    rewrite drop_app_le by lia. rewrite fmap_app. f_equal.
    rewrite <- fmap_tail. f_equal.
    now rewrite <- drop_drop.
  - apply Nat.leb_gt in E.
    replace (length os - 100)%nat with 0%nat by lia.
    replace (length os + 1 - 100)%nat with 0%nat by lia.
    rewrite !drop_0. now rewrite fmap_app.
Qed.

Lemma recordAll_reflects events filePath :
  reflects (outcomesFor filePath events) (recordAll events !! filePath).
Proof.
  induction events as [| e events IH] using rev_ind.
  - unfold recordAll. cbn. rewrite lookup_empty. reflexivity.
  - rewrite recordAll_snoc, outcomesFor_snoc. unfold updateTestResult.
    destruct (decide (e.1.2 = filePath)) as [<- | Hne].
    + rewrite lookup_insert_eq.
      set (os := outcomesFor e.1.2 events) in *.
      assert (Hgen : forall d,
                 consecutiveSuccess d = runAtEnd true os ->
                 consecutiveFailures d = runAtEnd false os ->
                 historicalSuccessRate d
                 = outcomeNumber <$> drop (length os - 100) os ->
                 reflects (os ++ [e.2]) (Some (recordOutcome e.1.1 e.2 d))).
      { intros d Hs Hf Hw. unfold reflects, recordOutcome.
        cbn [consecutiveSuccess consecutiveFailures lastTestResult
             historicalSuccessRate].
        rewrite !runAtEnd_snoc, last_snoc, Hs, Hf, Hw, pushOutcome_recent.
        split; [now destruct os |].
        destruct e.2; cbn; auto. }
      destruct (recordAll events !! e.1.2) as [d |].
      * destruct IH as (_ & Hs & Hf & _ & Hw). now apply Hgen.
      * cbn in IH.
        apply (Hgen (freshMemory (25 / 10) e.1.1)); rewrite IH; reflexivity.
    + rewrite lookup_insert_ne by exact Hne. now rewrite app_nil_r.
Qed.

Lemma outcomeNumbers_binary os :
  Forall (fun x => x = 0%Z \/ x = 1%Z) (outcomeNumber <$> os).
Proof.
  apply Forall_fmap, Forall_forall. intros [] _; cbn; auto.
Qed.

Lemma runs_exclusive os (x : bool) :
  last os = Some x ->
  runAtEnd x os = S (runAtEnd x (removelast os))
  /\ runAtEnd (negb x) os = 0%nat.
Proof.
  destruct os as [| y os] using rev_ind; [discriminate |].
  rewrite last_snoc. intros [= ->]. rewrite removelast_last, !runAtEnd_snoc.
  now destruct x.
Qed.

(** X1. The window of a file holds the outcomes recorded for it, as 1
    and 0, in the order they were recorded, and exactly the 100 most
    recent ones once there are more. *)
Theorem window_holds_recent_outcomes events filePath :
  let os := outcomesFor filePath events in
  windowOf (recordAll events) filePath
  = outcomeNumber <$> drop (length os - 100) os.
Proof.
  cbn zeta. pose proof (recordAll_reflects events filePath) as H.
  unfold windowOf. destruct (recordAll events !! filePath) as [d |]; cbn in *.
  - now destruct H as (_ & _ & _ & _ & Hw).
  - now rewrite H.
Qed.

(** X2. After any history of recorded outcomes the two streak counters
    of a file are the lengths of the runs of successes and of failures
    its outcomes end with, so one of them is zero and the other is not,
    and [lastTestResult] is the last outcome. *)
Theorem streaks_follow_outcomes events filePath (d : MemoryStrengthData)
    (Hentry : recordAll events !! filePath = Some d) :
  let os := outcomesFor filePath events in
  consecutiveSuccess d = runAtEnd true os
  /\ consecutiveFailures d = runAtEnd false os
  /\ last os = Some (lastTestResult d)
  /\ (if lastTestResult d
      then (0 < consecutiveSuccess d)%nat /\ consecutiveFailures d = 0%nat
      else consecutiveSuccess d = 0%nat /\ (0 < consecutiveFailures d)%nat).
Proof.
  cbn zeta. pose proof (recordAll_reflects events filePath) as H.
  rewrite Hentry in H. destruct H as (_ & Hs & Hf & Hl & _).
  symmetry in Hl. repeat split; try assumption.
  destruct (runs_exclusive _ _ Hl) as [Hrun Hzero].
  rewrite Hs, Hf. destruct (lastTestResult d); cbn in Hzero; split; lia || auto.
Qed.

Lemma streaks_follow_outcomes_witness :
  let events := [(1%Z, "note.md", true); (2%Z, "other.md", true);
                 (3%Z, "note.md", false); (4%Z, "note.md", false)] in
  exists d,
    recordAll events !! "note.md" = Some d
    /\ consecutiveSuccess d = 0%nat /\ consecutiveFailures d = 2%nat.
Proof.
  cbn zeta.
  destruct (recordAll [(1%Z, "note.md", true); (2%Z, "other.md", true);
                       (3%Z, "note.md", false); (4%Z, "note.md", false)]
              !! "note.md") as [d |] eqn:Hentry.
  - exists d. split; [reflexivity |].
    destruct (streaks_follow_outcomes _ _ d Hentry) as (Hs & Hf & _).
    split; [exact Hs | exact Hf].
  - exfalso. pose proof (recordAll_reflects
      [(1%Z, "note.md", true); (2%Z, "other.md", true);
       (3%Z, "note.md", false); (4%Z, "note.md", false)] "note.md") as H.
    rewrite Hentry in H. discriminate H.
Defined.

(** X3. In every state a history of recorded outcomes leads to, the
    easiness factor is 1.3, so the memory strength of a file is exactly 1
    when its last test failed or it was never tested, however many
    failures there were, and [1.3 * (1 + 0.2 * ln (streak + 1))] when its
    last test passed, [streak] being the number of successes in a
    row. *)
Theorem memory_strength_of_history events filePath :
  let os := outcomesFor filePath events in
  (calculateMemoryStrength (recordAll events) filePath).1
  = match last os with
    | Some true => 13 / 10 * (1 + 2 / 10 * ln (INR (runAtEnd true os) + 1))
    | _ => 1
    end.
Proof.
  cbn zeta. rewrite calculateMemoryStrength_strength.
  pose proof (recordAll_reflects events filePath) as H.
  assert (Hfail : forall ef x, ef = 13 / 10 -> 0 <= x ->
            Rmax 1 (ef * (6 / 10) * (1 - 1 / 10 * x)) = 1).
  { intros ef x -> Hx. apply Rmax_left. nra. }
  destruct (recordAll events !! filePath) as [d |]; cbn in H |- *.
  - destruct H as (_ & Hs & _ & Hl & Hw). rewrite <- Hl.
    unfold strengthOf. rewrite Hw, recomputedEF_of_outcomes
      by apply outcomeNumbers_binary.
    destruct (lastTestResult d); [now rewrite Hs |].
    apply Hfail; [reflexivity | apply pos_INR].
  - rewrite H. cbn. unfold strengthOf. cbn [lastTestResult fallbackMemory].
    apply Hfail; [| cbn; lra]. cbn [historicalSuccessRate].
    apply recomputedEF_of_outcomes. constructor.
Qed.


End OutcomeHistories.

(** ** Interaction tracking and engagement *)

Section TrackingFacts.

Implicit Types (dm : DataManager) (filePath : string)
  (tracking : InteractionDuration) (readings : list (Z * Z)).

Lemma recordDurations_snoc dm filePath readings (r : Z * Z) :
  recordDurations dm filePath (readings ++ [r])
  = recordInteractionDuration (recordDurations dm filePath readings) r.1 r.2 filePath.
Proof. unfold recordDurations. now rewrite foldl_snoc. Qed.

Lemma unrecorded_snoc readings (r : Z * Z) :
  unrecorded (readings ++ [r]) = (unrecorded readings + (r.2 - r.1))%Z.
Proof. unfold unrecorded. now rewrite fmap_app, foldl_app. Qed.

Lemma recordDurations_tracked readings : forall dm filePath tracking,
  interactionDurations dm !! filePath = Some tracking ->
  exists tracking',
    interactionDurations (recordDurations dm filePath readings) !! filePath
    = Some tracking'
    /\ contentLength tracking' = contentLength tracking
    /\ linkCount tracking' = linkCount tracking
    /\ length (durations tracking')
       = (length (durations tracking) + length readings)%nat
    /\ (foldl Z.add 0 (durations tracking')
        = foldl Z.add 0 (durations tracking)
          + (startTime tracking' - startTime tracking) - unrecorded readings)%Z.
Proof.
  induction readings as [| r readings IH] using rev_ind;
    intros dm filePath tracking Htr.
  - exists tracking. cbn. rewrite Htr. unfold unrecorded. cbn.
    repeat split; lia.
  - destruct (IH dm filePath tracking Htr) as (tr1 & H1 & Hc & Hl & Hn & Hsum).
    rewrite recordDurations_snoc, unrecorded_snoc.
    unfold recordInteractionDuration. rewrite H1.
    cbn [interactionDurations]. rewrite lookup_insert_eq.
    eexists. split; [reflexivity |].
    cbn [contentLength linkCount durations startTime].
    rewrite !length_app, foldl_snoc. cbn [length].
    repeat split; [assumption | assumption | lia |].
    rewrite Hsum. lia.
Qed.

(** X5. From the start of the tracking of an untracked file on, each
    call of the timer adds one duration, and the durations add up to the
    time between the start and the last stored start time, less the time
    that passed between the two clock readings of each call; the content
    length stays that of the content tracking started with. *)
Theorem durations_add_up dm (t0 : Z) filePath (content : Text.jsString) readings
    (Huntracked : interactionDurations dm !! filePath = None) :
  exists tracking,
    interactionDurations
      (recordDurations (startInteractionTracking dm t0 filePath content)
                       filePath readings) !! filePath = Some tracking
    /\ length (durations tracking) = length readings
    /\ contentLength tracking = length content
    /\ (foldl Z.add 0 (durations tracking)
        = startTime tracking - t0 - unrecorded readings)%Z.
Proof.
  assert (Hstart : interactionDurations
                     (startInteractionTracking dm t0 filePath content) !! filePath
                   = Some {| startTime := t0; contentLength := length content;
                             durations := []; linkCount := 0 |}).
  { unfold startInteractionTracking. rewrite Huntracked.
    cbn [interactionDurations]. apply lookup_insert_eq. }
  destruct (recordDurations_tracked readings _ _ _ Hstart)
    as (tr & Htr & Hc & _ & Hn & Hsum).
  exists tr. cbn in Hc, Hn, Hsum. repeat split; assumption || lia.
Qed.

Lemma durations_add_up_witness :
  let dm := {| data := ∅; interactionDurations := ∅; memoryData := ∅ |} in
  interactionDurations dm !! "note.md" = None
  /\ exists tracking,
       interactionDurations
         (recordDurations (startInteractionTracking dm 1000 "note.md" [97%Z; 98%Z])
                          "note.md" [(6000%Z, 6001%Z); (11001%Z, 11001%Z)])
         !! "note.md" = Some tracking
       /\ length (durations tracking) = 2%nat
       /\ contentLength tracking = 2%nat
       /\ (foldl Z.add 0 (durations tracking) = startTime tracking - 1000 - 1)%Z.
Proof.
  cbn zeta. split; [apply lookup_empty |].
  exact (durations_add_up
           {| data := ∅; interactionDurations := ∅; memoryData := ∅ |}
           1000 "note.md" [97%Z; 98%Z] [(6000%Z, 6001%Z); (11001%Z, 11001%Z)]
           (lookup_empty _)).
Defined.

(** X6. At most one session is open per file: once a file is tracked,
    whatever durations were recorded since, starting the tracking again
    changes nothing, so the start time and the content length of the
    first call are kept. On a file that is not tracked the timer does
    nothing. *)
Theorem tracking_is_not_restarted dm (t0 t1 : Z) filePath
    (content content' : Text.jsString) readings :
  let tracked :=
    recordDurations (startInteractionTracking dm t0 filePath content)
                    filePath readings in
  startInteractionTracking tracked t1 filePath content' = tracked
  /\ (interactionDurations dm !! filePath = None ->
      recordDurations dm filePath readings = dm).
Proof.
  cbn zeta. split.
  - assert (Hsome : is_Some (interactionDurations
                               (startInteractionTracking dm t0 filePath content)
                               !! filePath)).
    { unfold startInteractionTracking.
      destruct (interactionDurations dm !! filePath) eqn:E; [now rewrite E |].
      cbn [interactionDurations]. rewrite lookup_insert_eq. eauto. }
    destruct Hsome as [tr Htr].
    destruct (recordDurations_tracked readings _ _ _ Htr) as (tr' & Htr' & _).
    unfold startInteractionTracking at 1. now rewrite Htr'.
  - intros Hnone. unfold recordDurations.
    induction readings as [| r readings IH] using rev_ind; [reflexivity |].
    rewrite foldl_snoc, IH. unfold recordInteractionDuration. now rewrite Hnone.
Qed.

(** X7. For a tracked file with a weight entry [calculateEngagement]
    returns [0.2 * score + 0.8 * previous], where [previous] is the
    stored average, or the score itself when nothing or zero is stored.
    The call stores the result in the entry of the file and changes
    nothing else, and the next call reads it back as [previous]: the
    stored average is carried from call to call. For a score and a
    stored average that are not negative the result is not negative. *)
Theorem engagement_is_smoothed dm filePath tracking (d : WeightData)
    (Htracked : interactionDurations dm !! filePath = Some tracking)
    (Hentry : data dm !! filePath = Some d) :
  let score := engagementScoreOf tracking in
  let previous :=
    Num.orElse (default 0 (previousEngagement d)) score in
  let ema := 2 / 10 * score + (1 - 2 / 10) * previous in
  let stored := fun e =>
    {| data := <[filePath := withPreviousEngagement e d]> (data dm);
       interactionDurations := interactionDurations dm;
       memoryData := memoryData dm |} in
  calculateEngagement dm filePath = Returns (ema, stored ema)
  /\ (ema <> 0 ->
      calculateEngagement (stored ema) filePath
      = Returns (2 / 10 * score + (1 - 2 / 10) * ema,
                 stored (2 / 10 * score + (1 - 2 / 10) * ema)))
  /\ (0 <= score -> 0 <= default 0 (previousEngagement d) -> 0 <= ema).
Proof.
  cbn zeta.
  assert (Hzero : forall b, Num.orElse 0 b = b).
  { intros b. unfold Num.orElse.
    destruct (Req_EM_T 0 0) as [_ | Hne]; [reflexivity | now destruct Hne]. }
  split; [| split].
  - unfold calculateEngagement. rewrite Htracked, Hentry.
    fold (engagementScoreOf tracking).
    destruct (previousEngagement d) as [p |]; cbn [default from_option]; unfold Datatypes.id.
    + reflexivity.
    + now rewrite Hzero.
  - intros Hema.
    set (ema := 2 / 10 * engagementScoreOf tracking + _) in *.
    assert (Hread : Num.orElse ema (engagementScoreOf tracking) = ema).
    { unfold Num.orElse. destruct (Req_EM_T ema 0); [contradiction | reflexivity]. }
    unfold calculateEngagement.
    cbn [interactionDurations data memoryData].
    rewrite Htracked, lookup_insert_eq. fold (engagementScoreOf tracking).
    cbn [withPreviousEngagement previousEngagement initialWeight lastUpdated
         interactionCount].
    rewrite Hread, insert_insert_eq. reflexivity.
  - intros Hscore Hprev.
    set (score := engagementScoreOf tracking) in *.
    unfold Num.orElse. destruct (Req_EM_T _ 0); lra.
Qed.

Lemma engagement_is_smoothed_witness :
  let tracking := {| startTime := 0; contentLength := 100;
                     durations := [5000%Z]; linkCount := 0 |} in
  let d := mkWeightData (5 / 10) 0 1 (Some 0) in
  let dm := {| data := {[ "note.md" := d ]};
               interactionDurations := {[ "note.md" := tracking ]};
               memoryData := ∅ |} in
  interactionDurations dm !! "note.md" = Some tracking
  /\ data dm !! "note.md" = Some d
  /\ exists dm', calculateEngagement dm "note.md"
                 = Returns (2 / 10 * engagementScoreOf tracking
                            + (1 - 2 / 10)
                              * Num.orElse 0 (engagementScoreOf tracking), dm').
Proof.
  cbn zeta. split; [apply lookup_singleton_eq |]. split; [apply lookup_singleton_eq |].
  eexists.
  exact (proj1 (engagement_is_smoothed
           {| data := {[ "note.md" := mkWeightData (5 / 10) 0 1 (Some 0) ]};
              interactionDurations :=
                {[ "note.md" := {| startTime := 0; contentLength := 100;
                                   durations := [5000%Z]; linkCount := 0 |} ]};
              memoryData := ∅ |}
           "note.md" _ _ (lookup_singleton_eq _ _) (lookup_singleton_eq _ _))).
Defined.

(** X8. Tracking a file does not create its weight entry: for a file
    whose tracking was started and that has no weight entry,
    [calculateEngagement] throws, whatever was recorded; with a weight
    entry it returns. *)
Theorem engagement_needs_weight_entry dm (t0 : Z) filePath
    (content : Text.jsString) readings :
  let tracked :=
    recordDurations (startInteractionTracking dm t0 filePath content)
                    filePath readings in
  (data dm !! filePath = None -> calculateEngagement tracked filePath = Throws)
  /\ (is_Some (data dm !! filePath) ->
      exists r, calculateEngagement tracked filePath = Returns r).
Proof.
  cbn zeta.
  assert (Hdata : forall dm', data (recordDurations dm' filePath readings) = data dm').
  { intros dm'. unfold recordDurations.
    induction readings as [| r readings IH] using rev_ind; [reflexivity |].
    fold (recordDurations dm' filePath (readings ++ [r])).
    fold (recordDurations dm' filePath readings) in IH.
    rewrite recordDurations_snoc. unfold recordInteractionDuration.
    destruct (interactionDurations _ !! filePath); exact IH. }
  assert (Hdata0 : data (startInteractionTracking dm t0 filePath content) = data dm).
  { unfold startInteractionTracking.
    now destruct (interactionDurations dm !! filePath). }
  assert (Hsome : is_Some (interactionDurations
                             (startInteractionTracking dm t0 filePath content)
                             !! filePath)).
  { unfold startInteractionTracking.
    destruct (interactionDurations dm !! filePath) eqn:E; [now rewrite E |].
    cbn [interactionDurations]. rewrite lookup_insert_eq. eauto. }
  destruct Hsome as [tr Htr].
  destruct (recordDurations_tracked readings _ _ _ Htr) as (tr' & Htr' & _).
  split.
  - intros Hnone. unfold calculateEngagement.
    now rewrite Htr', Hdata, Hdata0, Hnone.
  - intros [d Hd]. unfold calculateEngagement.
    rewrite Htr', Hdata, Hdata0, Hd. eauto.
Qed.

End TrackingFacts.

(** ** Stages and due files *)

Section StageFacts.

Lemma scaled_gt (w x c : R) : 0 < w -> (x * w > c * w <-> x > c).
Proof. intros Hw. split; intros H; nra. Qed.

(** X9. For a non-negative reference count and scores that are a
    hundredth or more away from the thresholds, the stage
    [detectCognitiveStage] gives is fixed by the raw scores, whatever the
    reference count: "expert" when complexity is at least 0.71 and
    centrality at least 0.61; not "expert" when complexity is at most
    0.69 or centrality at most 0.59, and then "intermediate" when
    engagement is at least 0.41 or centrality at least 0.31; "novice"
    when engagement is at most 0.39 and centrality at most 0.29. *)
Theorem stage_depends_on_raw_scores (scores : CognitiveStageScores)
    (Hrefs : 0 <= referenceCount scores) :
  (71 / 100 <= complexity scores -> 61 / 100 <= centrality scores ->
   detectCognitiveStage scores = Expert)
  /\ (complexity scores <= 69 / 100 \/ centrality scores <= 59 / 100 ->
      detectCognitiveStage scores <> Expert)
  /\ (complexity scores <= 69 / 100 \/ centrality scores <= 59 / 100 ->
      41 / 100 <= engagement scores \/ 31 / 100 <= centrality scores ->
      detectCognitiveStage scores = Intermediate)
  /\ (engagement scores <= 39 / 100 -> centrality scores <= 29 / 100 ->
      detectCognitiveStage scores = Novice).
Proof.
  unfold detectCognitiveStage. cbn zeta.
  set (raw := 4 / 10 + 1 / 10 * ln (referenceCount scores + 1)).
  assert (Hraw : 0 < raw).
  { unfold raw. pose proof (ln_nonneg (referenceCount scores + 1)). lra. }
  set (total := raw + 3 / 10 + 3 / 10).
  assert (Htotal : 0 < / total) by (apply Rinv_0_lt_compat; unfold total; lra).
  assert (Hc : 0 < raw / total) by (unfold Rdiv; nra).
  assert (He : 0 < 3 / 10 / total) by (unfold Rdiv; nra).
  pose proof (scaled_gt _ (complexity scores) (7 / 10) Hc) as H1.
  pose proof (scaled_gt _ (centrality scores) (6 / 10) He) as H2.
  pose proof (scaled_gt _ (engagement scores) (4 / 10) He) as H3.
  pose proof (scaled_gt _ (centrality scores) (3 / 10) He) as H4.
  repeat match goal with
         | |- context [Rgt_dec ?a ?b] => destruct (Rgt_dec a b)
         end;
    repeat split; intros; try discriminate; try reflexivity;
    exfalso; intuition lra.
Qed.

Lemma stage_depends_on_raw_scores_witness :
  let scores := mkScores (9 / 10) (2 / 10) (8 / 10) 5 in
  0 <= referenceCount scores /\ detectCognitiveStage scores = Expert.
Proof.
  cbn zeta.
  assert (Hrefs : 0 <= referenceCount (mkScores (9 / 10) (2 / 10) (8 / 10) 5))
    by (cbn; lra).
  split; [exact Hrefs |].
  apply (proj1 (stage_depends_on_raw_scores _ Hrefs)); cbn; lra.
Defined.

(** X10. A file that was never tested is selected by [getDueFiles]
    exactly when its current weight exceeds 0.6 (the clock being more
    than two days after the epoch); in particular a file with neither a
    memory entry nor a weight entry is never selected. *)
Theorem untested_file_due_by_weight (settings : MyPluginSettings)
    (dm : DataManager) (rd : DateReading) (t : Z) (filePath : string)
    (Huntested : memoryData dm !! filePath = None)
    (Hclock : (2 * (1000 * 3600 * 24) < t)%Z) :
  (dueFile settings dm rd t filePath
   <-> calculateCurrentWeight settings (data dm) rd filePath > 6 / 10)
  /\ (data dm !! filePath = None -> ~ dueFile settings dm rd t filePath).
Proof.
  assert (Hiff : dueFile settings dm rd t filePath
                 <-> calculateCurrentWeight settings (data dm) rd filePath > 6 / 10).
  { unfold dueFile, isDue, dueByStrength. cbn zeta. rewrite Huntested.
    cbn [mbind option_bind default from_option].
    assert (Hdays : IZR (t - 0) / IZR (1000 * 3600 * 24) > 2).
    { rewrite Z.sub_0_r. apply IZR_lt in Hclock. rewrite mult_IZR in Hclock.
      assert (Hday : 0 < IZR (1000 * 3600 * 24)) by (apply IZR_lt; reflexivity).
      apply Rlt_gt. apply (Rmult_lt_reg_r (IZR (1000 * 3600 * 24))); [exact Hday |].
      unfold Rdiv. rewrite Rmult_assoc, Rinv_l by lra. lra. }
    tauto. }
  split; [exact Hiff |].
  intros Hnone. rewrite Hiff. unfold calculateCurrentWeight. rewrite Hnone. lra.
Qed.

Lemma untested_file_due_by_weight_witness :
  let dm := {| data := ∅; interactionDurations := ∅; memoryData := ∅ |} in
  memoryData dm !! "note.md" = None
  /\ (2 * (1000 * 3600 * 24) < someInstant)%Z
  /\ ~ dueFile DEFAULT_SETTINGS dm someReading someInstant "note.md".
Proof.
  cbn zeta.
  assert (Hclock : (2 * (1000 * 3600 * 24) < someInstant)%Z) by reflexivity.
  split; [apply lookup_empty |]. split; [exact Hclock |].
  exact (proj2 (untested_file_due_by_weight DEFAULT_SETTINGS
                  {| data := ∅; interactionDurations := ∅; memoryData := ∅ |}
                  someReading someInstant "note.md" (lookup_empty _) Hclock)
               (lookup_empty _)).
Defined.

End StageFacts.

(** ** Interactions and the daily decay *)

Section InteractionFacts.

Variable settings : MyPluginSettings.

Implicit Types (data : gmap string WeightData) (filePath : string) (ts : list Z).


Lemma touchAll_snoc data filePath ts (t : Z) :
  touchAll settings data filePath (ts ++ [t])
  = updateInteraction settings (touchAll settings data filePath ts) t filePath.
Proof. unfold touchAll. now rewrite foldl_snoc. Qed.

Lemma touchAll_lookup data filePath ts (t : Z) :
  prototypeMember filePath = false \/ is_Some (data !! filePath) ->
  exists d',
    touchAll settings data filePath (ts ++ [t]) !! filePath = Some d'
    /\ interactionCount d'
       = (default 0%nat (interactionCount <$> data !! filePath)
          + S (length ts))%nat
    /\ lastUpdated d' = t
    /\ initialWeight d'
       = default (settingsInitialWeight settings)
           (initialWeight <$> data !! filePath).
Proof.
  intros Hkey. revert t. induction ts as [| t0 ts IH] using rev_ind; intros t.
  - cbn [app touchAll foldl].
    destruct (updateInteraction_lookup settings data t filePath Hkey)
      as (d' & Hd' & Hw & Hn & Ht).
    exists d'. cbn [length]. repeat split; try assumption. rewrite Hn. lia.
  - rewrite touchAll_snoc.
    destruct (IH t0) as (d1 & Hd1 & Hn1 & _ & Hw1).
    destruct (updateInteraction_lookup settings
                (touchAll settings data filePath (ts ++ [t0])) t filePath)
      as (d' & Hd' & Hw & Hn & Ht); [right; now rewrite Hd1 |].
    rewrite Hd1 in Hw, Hn. cbn [fmap option_fmap option_map default from_option] in Hw, Hn.
    unfold Datatypes.id in Hw, Hn.
    exists d'. rewrite length_app. cbn [length].
    repeat split; try assumption; [rewrite Hn, Hn1; lia | now rewrite Hw].
Qed.



(** X12. The daily-decay batch rewrites every entry once and creates or
    removes none: the files are the same, every count is 0 and every
    [lastUpdated] is the instant of the batch, the new base weight of a
    file is the current weight computed from its old entry, and the
    stored engagement is kept. Interactions after the batch are counted
    from zero. *)
Theorem daily_decay_resets_counts (t : Z) (reads : string -> DateReading)
    data filePath ts (t1 : Z) :
  let decayed := applyDailyDecay settings t reads data in
  dom decayed = dom data
  /\ (forall d', decayed !! filePath = Some d' ->
        interactionCount d' = 0%nat /\ lastUpdated d' = t
        /\ initialWeight d' = calculateCurrentWeight settings data (reads filePath) filePath
        /\ previousEngagement <$> data !! filePath = Some (previousEngagement d'))
  /\ (is_Some (data !! filePath) ->
      interactionCount <$> touchAll settings decayed filePath (ts ++ [t1]) !! filePath
      = Some (S (length ts))).
Proof.
  cbn zeta. split; [| split].
  - apply set_eq. intros k. rewrite !elem_of_dom, applyDailyDecay_lookup.
    now rewrite fmap_is_Some.
  - intros d'. rewrite applyDailyDecay_lookup. unfold calculateCurrentWeight.
    destruct (data !! filePath) as [d |]; cbn; [| discriminate].
    intros [= <-]. cbn. auto.
  - intros [d Hd].
    destruct (touchAll_lookup (applyDailyDecay settings t reads data)
                filePath ts t1) as (d' & Hd' & Hn & _).
    { right. rewrite applyDailyDecay_lookup, Hd. now cbn. }
    rewrite Hd'. cbn. f_equal. rewrite Hn, applyDailyDecay_lookup, Hd. reflexivity.
Qed.

(** X13. The interaction boost is zero without interactions and
    saturates: for a non-negative [betaCoefficient] it lies between 0 and
    1.5 times the coefficient whatever the count. With a non-negative
    seasonal decay rate, elapsed time and [alpha * base], the current
    weight is thus at most [alpha * base + 1.5 * betaCoefficient],
    rounded, and without interactions at most [alpha * base], rounded:
    time alone never raises a weight. *)
Theorem boost_saturates (rd : DateReading) (d : WeightData)
    (Hbeta : 0 <= betaCoefficient settings)
    (Hbase : 0 <= alpha settings * initialWeight d)
    (Hlambda : 0 <= seasonalLambda settings rd)
    (Helapsed : (lastUpdated d <= now rd)%Z) :
  interactionBoost settings 0 = 0
  /\ 0 <= interactionBoost settings (interactionCount d)
     <= 15 / 10 * betaCoefficient settings
  /\ currentWeight settings rd d
     <= Num.toFixed2 (alpha settings * initialWeight d
                      + 15 / 10 * betaCoefficient settings)
  /\ (interactionCount d = 0%nat ->
      currentWeight settings rd d
      <= Num.toFixed2 (alpha settings * initialWeight d)).
Proof.
  assert (Hboost : 0 <= interactionBoost settings (interactionCount d)
                   <= 15 / 10 * betaCoefficient settings).
  { split; [now apply interactionBoost_nonneg |].
    unfold interactionBoost.
    pose proof (interactionBeta_nonneg settings (interactionCount d) Hbeta) as Hb0.
    assert (Hb1 : interactionBeta settings (interactionCount d)
                  <= 15 / 10 * betaCoefficient settings).
    { unfold interactionBeta.
      pose proof (tanh_bounds ((INR (interactionCount d) - 3) / 2)) as Ht. nra. }
    pose proof (boostFactor_bounds (interactionCount d)) as Hf.
    nra. }
  assert (Hdecay : timeDecay settings rd d <= alpha settings * initialWeight d).
  { unfold timeDecay.
    assert (exp (- seasonalLambda settings rd * sqrt (daysElapsed rd d)) <= 1).
    { rewrite <- exp_0. apply exp_le.
      pose proof (sqrt_pos (daysElapsed rd d)). nra. }
    nra. }
  split; [apply interactionBoost_0 |]. split; [exact Hboost |]. split.
  - unfold currentWeight. apply toFixed2_le. lra.
  - intros Hzero. unfold currentWeight. apply toFixed2_le.
    rewrite Hzero, interactionBoost_0. lra.
Qed.

End InteractionFacts.


Lemma boost_saturates_witness :
  let d := mkWeightData (5 / 10) 1699000000000 0 (Some 0) in
  0 <= betaCoefficient DEFAULT_SETTINGS
  /\ 0 <= alpha DEFAULT_SETTINGS * initialWeight d
  /\ 0 <= seasonalLambda DEFAULT_SETTINGS someReading
  /\ (lastUpdated d <= now someReading)%Z
  /\ currentWeight DEFAULT_SETTINGS someReading d
     <= Num.toFixed2 (alpha DEFAULT_SETTINGS * initialWeight d).
Proof.
  cbn zeta.
  assert (Hbeta : 0 <= betaCoefficient DEFAULT_SETTINGS) by (cbn; lra).
  assert (Hbase : 0 <= alpha DEFAULT_SETTINGS
                       * initialWeight (mkWeightData (5 / 10) 1699000000000 0 (Some 0)))
    by (cbn; lra).
  assert (Hlambda : 0 <= seasonalLambda DEFAULT_SETTINGS someReading).
  { pose proof (seasonalLambda_bounds DEFAULT_SETTINGS someReading) as [H _].
    cbn in H. lra. }
  assert (Helapsed : Z.le (lastUpdated
                                  (mkWeightData (5 / 10) 1699000000000 0 (Some 0)))
                         (now someReading)) by (cbn; discriminate).
  split; [exact Hbeta |]. split; [exact Hbase |]. split; [exact Hlambda |].
  split; [exact Helapsed |].
  exact (proj2 (proj2 (proj2 (boost_saturates DEFAULT_SETTINGS someReading _
                                Hbeta Hbase Hlambda Helapsed))) eq_refl).
Defined.

(** ** Centrality of linked and unlinked files *)

Module RankFacts.

Import Centrality.

Section Iteration.

Variable g : list (string * list string).

Implicit Types (pr nr : gmap string R) (key : string).

Lemma rankOf_nonneg pr key : nonneg pr -> 0 <= rankOf pr key.
Proof.
  intros Hpr. unfold rankOf. destruct (pr !! key) as [v |] eqn:E; cbn; [eauto | lra].
Qed.

(** The inner loop [links.forEach]. *)
Lemma spread_spec (c : R) (links : list string) : forall nr,
  0 <= c -> nonneg nr ->
  let nr' := foldl (fun nr link => <[link := rankOf nr link + c]> nr) nr links in
  nonneg nr'
  /\ forall key, is_Some (nr' !! key) <-> is_Some (nr !! key) \/ key ∈ links.
Proof.
  induction links as [| l links IH]; intros nr Hc Hnr; cbn.
  - split; [exact Hnr |]. intros key. rewrite elem_of_nil. tauto.
  - assert (Hnr1 : nonneg (<[l := rankOf nr l + c]> nr)).
    { intros key v. destruct (decide (l = key)) as [<- | Hne].
      - rewrite lookup_insert_eq. intros [= <-].
        pose proof (rankOf_nonneg nr l Hnr). lra.
      - rewrite lookup_insert_ne by exact Hne. apply Hnr. }
    destruct (IH _ Hc Hnr1) as [Hnn Hdom]. split; [exact Hnn |].
    intros key. rewrite Hdom, elem_of_cons.
    destruct (decide (l = key)) as [<- | Hne].
    + rewrite lookup_insert_eq. split; [intros _; right; now left |].
      intros _. left. eauto.
    + rewrite lookup_insert_ne by exact Hne. split; [tauto |].
      intros [H | [H | H]]; [tauto | congruence | tauto].
Qed.

(** The outer loop [linkGraph.forEach]. *)
Lemma newRank_spec pr (entries : list (string * list string)) : forall nr,
  nonneg pr -> nonneg nr ->
  let nr' := foldl (distribute pr) nr entries in
  nonneg nr'
  /\ forall key, is_Some (nr' !! key)
                 <-> is_Some (nr !! key) \/ linkedTo entries key.
Proof.
  induction entries as [| e entries IH]; intros nr Hpr Hnr; cbn.
  - split; [exact Hnr |]. intros key. unfold linkedTo. split; [tauto |].
    intros [H | (e & He & _)]; [exact H | now apply elem_of_nil in He].
  - assert (Hc : 0 <= (if (0 <? length e.2)%nat
                       then dampingFactor * (rankOf pr e.1 / INR (length e.2))
                       else 0)).
    { destruct (0 <? length e.2)%nat eqn:E; [| lra].
      apply Nat.ltb_lt in E. apply lt_0_INR in E.
      pose proof (rankOf_nonneg pr e.1 Hpr).
      unfold dampingFactor.
      assert (0 <= rankOf pr e.1 / INR (length e.2)).
      { apply Rmult_le_pos; [assumption | left; now apply Rinv_0_lt_compat]. }
      lra. }
    destruct (spread_spec _ e.2 nr Hc Hnr) as [Hnn1 Hdom1].
    fold (distribute pr nr e) in Hnn1, Hdom1.
    destruct (IH _ Hpr Hnn1) as [Hnn Hdom]. split; [exact Hnn |].
    intros key. rewrite Hdom, Hdom1. unfold linkedTo. split.
    + intros [[H | H] | (e' & He' & Hk)]; [tauto | |].
      * right. exists e. split; [apply list_elem_of_here | exact H].
      * right. exists e'. split; [now apply list_elem_of_further | exact Hk].
    + intros [H | (e' & He' & Hk)]; [tauto |].
      apply elem_of_cons in He' as [-> | He']; [tauto |].
      right. exists e'. tauto.
Qed.

(** The loop [newRank.forEach], over a list of entries with distinct
    keys. *)
Lemma addRanks_spec (rj : R) (l : list (string * R)) : forall pr key,
  NoDup l.*1 ->
  rankOf (foldl (fun pr kv => <[kv.1 := rankOf pr kv.1 + kv.2 + rj]> pr) pr l) key
  = rankOf pr key
    + match list_find (fun kv => kv.1 = key) l with
      | Some (_, kv) => kv.2 + rj
      | None => 0
      end.
Proof.
  induction l as [| [k v] l IH]; intros pr key Hnd.
  - cbn. lra.
  - rewrite fmap_cons in Hnd. apply NoDup_cons in Hnd as [Hk Hnd].
    cbn [foldl list_find fst snd]. rewrite IH by exact Hnd.
    cbn [fst] in Hk. destruct (decide (k = key)) as [-> | Hne].
    + assert (Hnone : list_find (fun kv : string * R => kv.1 = key) l = None).
      { apply list_find_None, Forall_forall. intros kv Hkv Heq. apply Hk.
        rewrite <- Heq. now apply (list_elem_of_fmap_2 fst). }
      rewrite Hnone. unfold rankOf at 1. rewrite lookup_insert_eq.
      cbn [default from_option snd]. unfold Datatypes.id. lra.
    + unfold rankOf at 1. rewrite lookup_insert_ne by exact Hne.
      fold (rankOf pr key).
      destruct (list_find (fun kv : string * R => kv.1 = key) l) as [[i kv] |];
        cbn; lra.
Qed.

Lemma find_in_map_to_list nr key :
  match list_find (fun kv : string * R => kv.1 = key) (map_to_list nr) with
  | Some (_, kv) => nr !! key = Some kv.2
  | None => nr !! key = None
  end.
Proof.
  destruct (list_find _ _) as [[i kv] |] eqn:E.
  - apply list_find_Some in E as (Hi & Hk & _).
    apply list_elem_of_lookup_2 in Hi. destruct kv as [k v]. cbn in *. subst k.
    now apply elem_of_map_to_list.
  - apply list_find_None in E. rewrite Forall_forall in E.
    destruct (nr !! key) as [v |] eqn:Hv; [| reflexivity].
    exfalso. apply (E (key, v)); [now apply elem_of_map_to_list | reflexivity].
Qed.

(** One iteration: a key of [newRank] gains what it received and the
    random jump, the other ranks stay. *)
Lemma iteration_rank pr key :
  rankOf (iteration g pr) key
  = rankOf pr key
    + match foldl (distribute pr) ∅ g !! key with
      | Some v => v + (1 - dampingFactor) / INR (length g)
      | None => 0
      end.
Proof.
  unfold iteration. cbn zeta.
  rewrite addRanks_spec by apply NoDup_fst_map_to_list.
  pose proof (find_in_map_to_list (foldl (distribute pr) ∅ g) key) as H.
  destruct (list_find _ _) as [[i kv] |]; rewrite H; reflexivity.
Qed.

Lemma randomJump_pos key :
  linkedTo g key -> 0 < (1 - dampingFactor) / INR (length g).
Proof.
  intros (e & He & _). unfold dampingFactor.
  assert (0 < INR (length g)).
  { apply lt_0_INR. destruct g; [now apply elem_of_nil in He | cbn; lia]. }
  apply Rdiv_lt_0_compat; lra.
Qed.

Lemma nonneg_empty : nonneg ∅.
Proof. intros key v. now rewrite lookup_empty. Qed.

Lemma iteration_step pr :
  nonneg pr ->
  (forall key, 0 <= rankOf (iteration g pr) key)
  /\ (forall key, ~ linkedTo g key -> rankOf (iteration g pr) key = rankOf pr key)
  /\ (forall key, linkedTo g key ->
        rankOf pr key + (1 - dampingFactor) / INR (length g)
        <= rankOf (iteration g pr) key).
Proof.
  intros Hpr.
  destruct (newRank_spec pr g ∅ Hpr nonneg_empty) as [Hnn Hdom].
  assert (Hlinked : forall key, linkedTo g key ->
            rankOf pr key + (1 - dampingFactor) / INR (length g)
            <= rankOf (iteration g pr) key).
  { intros key Hl. rewrite iteration_rank.
    destruct (foldl (distribute pr) ∅ g !! key) as [v |] eqn:E.
    - pose proof (Hnn _ _ E). lra.
    - exfalso. assert (Hs : is_Some (foldl (distribute pr) ∅ g !! key))
        by (apply Hdom; now right).
      rewrite E in Hs. now destruct Hs. }
  assert (Hunlinked : forall key, ~ linkedTo g key ->
            rankOf (iteration g pr) key = rankOf pr key).
  { intros key Hl. rewrite iteration_rank.
    destruct (foldl (distribute pr) ∅ g !! key) as [v |] eqn:E; [| lra].
    exfalso. apply Hl.
    assert (Hs : is_Some (foldl (distribute pr) ∅ g !! key)) by (rewrite E; eauto).
    apply Hdom in Hs as [Hs | Hs]; [| exact Hs].
    rewrite lookup_empty in Hs. now destruct Hs. }
  split; [| split; assumption].
  intros key. pose proof (rankOf_nonneg pr key Hpr).
  destruct (Classical_Prop.classic (linkedTo g key)) as [Hl | Hl].
  - pose proof (Hlinked key Hl). pose proof (randomJump_pos key Hl). lra.
  - now rewrite Hunlinked.
Qed.

Lemma nonneg_of_rankOf pr : (forall key, 0 <= rankOf pr key) -> nonneg pr.
Proof.
  intros H key v Hv. specialize (H key). unfold rankOf in H. now rewrite Hv in H.
Qed.

Lemma iterations_spec (n : nat) pr :
  nonneg pr ->
  let pr' := Nat.iter n (iteration g) pr in
  nonneg pr'
  /\ (forall key, ~ linkedTo g key -> rankOf pr' key = rankOf pr key)
  /\ (forall key, linkedTo g key ->
        rankOf pr key + INR n * ((1 - dampingFactor) / INR (length g))
        <= rankOf pr' key).
Proof.
  intros Hpr. induction n as [| n (Hnn & Hun & Hli)].
  - cbn. split; [exact Hpr |]. split; [reflexivity |]. intros; lra.
  - cbn zeta. rewrite Nat.iter_succ.
    destruct (iteration_step _ Hnn) as (H0 & H1 & H2).
    split; [now apply nonneg_of_rankOf |]. split.
    + intros key Hl. now rewrite H1, Hun.
    + intros key Hl. rewrite S_INR.
      pose proof (H2 key Hl). pose proof (Hli key Hl). lra.
Qed.

Lemma initialRank_absent key :
  key ∉ g.*1 -> initialRank g !! key = None.
Proof.
  unfold initialRank. generalize (1 / INR (length g)). intros x.
  assert (H : forall pr : gmap string R,
             key ∉ g.*1 ->
             foldl (fun pr e => <[e.1 := x]> pr) pr g !! key = pr !! key).
  { induction g as [| e l IH]; intros pr Hk; cbn; [reflexivity |].
    cbn in Hk. apply not_elem_of_cons in Hk as [Hne Hk].
    rewrite IH by exact Hk. now rewrite lookup_insert_ne. }
  intros Hk. rewrite H by exact Hk. apply lookup_empty.
Qed.

Lemma initialRank_nonneg : nonneg (initialRank g).
Proof.
  intros key v Hv.
  destruct (decide (key ∈ g.*1)) as [Hin | Hout].
  - rewrite CentralityFacts.initialRank_lookup in Hv by exact Hin.
    injection Hv as <-.
    assert (0 < INR (length g)).
    { apply lt_0_INR. destruct g; [now apply elem_of_nil in Hin | cbn; lia]. }
    left. apply Rdiv_lt_0_compat; lra.
  - rewrite initialRank_absent in Hv by exact Hout. discriminate.
Qed.

End Iteration.

(** X14. In every link graph, a file no link points to keeps its
    initial rank [1 / |V|] exactly. A link target gains at least the
    random jump [0.15 / |V|] in each of the ten iterations, on top of
    its initial rank, which is [1 / |V|] for a file and 0 for a target
    that is not a file: such a target is ranked although it is not in
    the graph. A path that is neither a file nor a link target has rank
    0. *)
Theorem centrality_by_inbound_links (files : list (string * list string))
    (filePath : string) :
  let g := buildLinkGraph files in
  let size := INR (length g) in
  let c := calculateCentrality files filePath in
  (filePath ∈ g.*1 -> ~ linkedTo g filePath -> c = 1 / size)
  /\ (filePath ∈ g.*1 -> linkedTo g filePath ->
      1 / size + 10 * ((1 - dampingFactor) / size) <= c)
  /\ (filePath ∉ g.*1 -> linkedTo g filePath ->
      0 < 10 * ((1 - dampingFactor) / size) <= c)
  /\ (filePath ∉ g.*1 -> ~ linkedTo g filePath -> c = 0).
Proof.
  cbn zeta. unfold calculateCentrality, pagerankAfter.
  set (g := buildLinkGraph files).
  destruct (iterations_spec g iterations (initialRank g) (initialRank_nonneg g))
    as (_ & Hun & Hli).
  assert (Hfile : filePath ∈ g.*1 ->
            rankOf (initialRank g) filePath = 1 / INR (length g)).
  { intros Hin. unfold rankOf.
    now rewrite CentralityFacts.initialRank_lookup. }
  assert (Habsent : filePath ∉ g.*1 -> rankOf (initialRank g) filePath = 0).
  { intros Hout. unfold rankOf. now rewrite initialRank_absent. }
  replace (INR iterations) with 10 in Hli by (unfold iterations; cbn; lra).
  split; [| split; [| split]].
  - intros Hin Hl. now rewrite Hun, Hfile.
  - intros Hin Hl. rewrite <- Hfile by exact Hin. now apply Hli.
  - intros Hout Hl. split.
    + pose proof (randomJump_pos g filePath Hl). lra.
    + rewrite <- (Rplus_0_l (10 * _)), <- Habsent by exact Hout. now apply Hli.
  - intros Hout Hl. now rewrite Hun, Habsent.
Qed.

End RankFacts.

(** ** The review loop of the graph side *)

Section ReviewFacts.

Import Review.

(** X15. In [runDailyReview] neither clamp at 1 ever acts. A node is
    reviewed only while its base weight is below 0.85, so a correct
    answer gives exactly [base + 0.1], below 0.95, and the interval
    computed from the new base is at least 1 before [Math.max(1, ...)]:
    the next review is [min(maxReviewInterval, round(10 * (1 - base)))]
    days later. After a correct answer from a base of 0.75 or more the
    node, as this pass of the loop leaves it, fails the filter of
    [runDailyReview] at every clock reading. (This is said of the node
    the pass wrote, not of its identifier: [addNode] stores a new node
    under the same identifier.) *)
Theorem review_never_clamps (st : DeepSeekPluginSettings) (addDays : Z -> R -> Z)
    (t t' : Z) (isCorrect : bool) (node : KnowledgeNode)
    (Hselected : selectedForReview t node) :
  let node' := reviewNode st addDays t isCorrect node in
  let b' := base (weight node') in
  b' = (if isCorrect then base (weight node) + 1 / 10
        else base (weight node) * (9 / 10))
  /\ b' < 95 / 100
  /\ (1 <= Num.round (10 * (1 - b')))%Z
  /\ nextReviewDate node'
     = addDays t (Rmin (maxReviewInterval st) (IZR (Num.round (10 * (1 - b')))))
  /\ (isCorrect = true -> 75 / 100 <= base (weight node) ->
      ~ selectedForReview t' node').
Proof.
  destruct Hselected as [_ Hb]. cbn zeta.
  unfold reviewNode, withReviewedBase.
  cbn [weight base nextReviewDate id].
  set (b := base (weight node)) in *.
  assert (Hnew : DeepSeekPlugin.reviewedBase isCorrect b
                 = if isCorrect then b + 1 / 10 else b * (9 / 10)).
  { unfold DeepSeekPlugin.reviewedBase. destruct isCorrect; [| reflexivity].
    apply Rmin_right. lra. }
  assert (Hlt : DeepSeekPlugin.reviewedBase isCorrect b < 95 / 100).
  { rewrite Hnew. destruct isCorrect; lra. }
  assert (Hround : (1 <= Num.round (10 * (1 - DeepSeekPlugin.reviewedBase isCorrect b)))%Z).
  { unfold Num.round. apply Zfloor_lub. cbn. lra. }
  split; [exact Hnew |]. split; [exact Hlt |]. split; [exact Hround |]. split.
  - unfold DeepSeekPlugin.calculateReviewInterval. cbn [weight base].
    rewrite Rmax_right; [reflexivity |]. now apply IZR_le in Hround.
  - intros -> Hhigh [_ Hsel]. cbn [weight base] in Hsel.
    rewrite Hnew in Hsel. lra.
Qed.

Lemma review_never_clamps_witness :
  selectedForReview 5 (nodeOfBase (5 / 10))
  /\ base (weight (reviewNode defaultGraphSettings
                     (fun t days => (t + Zfloor days * 86400000)%Z)
                     5 true (nodeOfBase (5 / 10))))
     = 5 / 10 + 1 / 10.
Proof.
  assert (Hsel : selectedForReview 5 (nodeOfBase (5 / 10))).
  { split; cbn; [lia | lra]. }
  split; [exact Hsel |].
  exact (proj1 (review_never_clamps defaultGraphSettings
                  (fun t days => (t + Zfloor days * 86400000)%Z)
                  5 5 true (nodeOfBase (5 / 10)) Hsel)).
Defined.

(** X16. When the embedding request fails, [addNode] stores nothing.
    When it succeeds, the node stored under the identifier, in the
    place of whatever node was there, has a base weight of
    [0.5 * exp(-decayRate * days)] for the time between the clock
    reading of the literal and that of the decay, hence at most 0.5 for
    a non-negative decay rate and exactly 0.5 when the two readings
    agree; its interaction count is 1, its [lastUpdated] is the last
    reading, and it passes the filter of [runDailyReview] at every clock
    reading not before the date of the literal. No other node
    changes. *)
Theorem added_node_starts_at_half (st : DeepSeekPluginSettings)
    (nodes : gmap string KnowledgeNode) (r : AddReadings) (now' : Z)
    (nodeId : string) (vector : list R)
    (Hrate : 0 <= settingsDecayRate st)
    (Hclock : (literalNow r <= decayNow r)%Z)
    (Hlater : (literalDate r <= now')%Z) :
  addNode nodes st r nodeId Throws = nodes
  /\ (exists node,
        addNode nodes st r nodeId (Returns vector) !! nodeId = Some node
        /\ base (weight node)
           = 5 / 10 * exp (- settingsDecayRate st
                           * (IZR (decayNow r - literalNow r)
                              / IZR (1000 * 3600 * 24)))
        /\ 0 < base (weight node) <= 5 / 10
        /\ (decayNow r = literalNow r -> base (weight node) = 5 / 10)
        /\ interactions (weight node) = 1%nat
        /\ weightLastUpdated (weight node) = updatedNow r
        /\ selectedForReview now' node)
  /\ (forall other, other <> nodeId ->
        addNode nodes st r nodeId (Returns vector) !! other = nodes !! other).
Proof.
  split; [reflexivity |]. split.
  - unfold addNode. rewrite lookup_insert_eq. eexists. split; [reflexivity |].
    unfold updatedNode, CognitiveEngine.updateWeight,
      CognitiveEngine.getDaysSinceLastUpdate.
    cbn [weight base interactions weightLastUpdated nextReviewDate decayRate INR].
    set (days := IZR (decayNow r - literalNow r) / IZR (1000 * 3600 * 24)).
    assert (Hdays : 0 <= days).
    { unfold days. apply Rmult_le_pos.
      - apply IZR_le. lia.
      - left. apply Rinv_0_lt_compat, IZR_lt. reflexivity. }
    assert (Hexp : 0 < exp (- settingsDecayRate st * days) <= 1).
    { split; [apply exp_pos |]. rewrite <- exp_0. apply exp_le. nra. }
    assert (Hbase : Rmin 1 (5 / 10 * exp (- settingsDecayRate st * days)
                            + 2 / 10 * ln (1 + 0))
                    = 5 / 10 * exp (- settingsDecayRate st * days)).
    { rewrite Rplus_0_r, ln_1. rewrite Rmin_right; lra. }
    rewrite Hbase.
    split; [reflexivity |]. split; [lra |]. split.
    + intros Hsame. unfold days. rewrite Hsame, Z.sub_diag.
      unfold Rdiv. rewrite Rmult_0_l, Rmult_0_r, exp_0. lra.
    + split; [reflexivity |]. split; [reflexivity |].
      unfold selectedForReview.
      cbn [nextReviewDate weight base interactions weightLastUpdated INR].
      fold days. split; [lia | lra].
  - intros other Hne. unfold addNode. now rewrite lookup_insert_ne.
Qed.

Lemma added_node_starts_at_half_witness :
  let r := mkAddReadings someInstant someInstant someInstant (someInstant + 1) in
  0 <= settingsDecayRate defaultGraphSettings
  /\ (literalNow r <= decayNow r)%Z
  /\ (literalDate r <= someInstant + 2)%Z
  /\ exists node,
       addNode ∅ defaultGraphSettings r "note" (Returns [1]) !! "note" = Some node
       /\ base (weight node) = 5 / 10.
Proof.
  cbn zeta.
  assert (Hrate : 0 <= settingsDecayRate defaultGraphSettings) by (cbn; lra).
  assert (Hclock : (literalNow (mkAddReadings someInstant someInstant someInstant
                                 (someInstant + 1))
                    <= decayNow (mkAddReadings someInstant someInstant someInstant
                                   (someInstant + 1)))%Z) by (cbn; lia).
  assert (Hlater : (literalDate (mkAddReadings someInstant someInstant someInstant
                                   (someInstant + 1))
                    <= someInstant + 2)%Z) by (cbn; lia).
  split; [exact Hrate |]. split; [exact Hclock |]. split; [exact Hlater |].
  destruct (proj1 (proj2 (added_node_starts_at_half defaultGraphSettings ∅
                            (mkAddReadings someInstant someInstant someInstant
                               (someInstant + 1))
                            (someInstant + 2) "note" [1] Hrate Hclock Hlater)))
    as (node & Hnode & _ & _ & Hhalf & _).
  exists node. split; [exact Hnode | apply Hhalf; reflexivity].
Defined.

End ReviewFacts.

(** ** Node identifiers *)

Module UtilsFacts.

Import Text Utils.

Lemma removeFirst_subset (pat s : jsString) (c : Z) :
  c ∈ removeFirst pat s -> c ∈ s.
Proof.
  unfold removeFirst. destruct (indexOf pat s) as [i |]; [| auto].
  rewrite elem_of_app. intros [H | H].
  - now apply (subseteq_take i s).
  - now apply (subseteq_drop (i + length pat) s).
Qed.

Lemma slashes_replaced_twice (filePath : jsString) :
  (fun c => if (c =? 47)%Z then 95%Z else c)
    <$> ((fun c => if (c =? 47)%Z then 95%Z else c) <$> filePath)
  = (fun c => if (c =? 47)%Z then 95%Z else c) <$> filePath.
Proof.
  rewrite <- list_fmap_compose. apply list_fmap_ext. intros _ c _. cbn.
  destruct (c =? 47)%Z eqn:E; [reflexivity | now rewrite E].
Qed.

Lemma no_slash_left (filePath : jsString) :
  47%Z ∉ ((fun c => if (c =? 47)%Z then 95%Z else c) <$> filePath).
Proof.
  intros Hin. apply list_elem_of_fmap in Hin as (c & Hc & _).
  destruct (c =? 47)%Z eqn:E; [discriminate |].
  apply Z.eqb_neq in E. congruence.
Qed.

(** X17. A node identifier never holds a slash; but the identifiers are
    not unique, although the nodes of the graph are keyed by them: a
    path and the path with its slashes written as underscores get one
    identifier, so every file in a folder shares its identifier with
    another path. It is the first [".md"] of the path that is removed,
    not the extension. *)
Theorem node_ids_collide (filePath : jsString) :
  (47%Z ∉ getNodeIdFromFile filePath)
  /\ getNodeIdFromFile ((fun c => if (c =? 47)%Z then 95%Z else c) <$> filePath)
     = getNodeIdFromFile filePath
  /\ (47%Z ∈ filePath ->
      exists other, other <> filePath
        /\ getNodeIdFromFile other = getNodeIdFromFile filePath)
  /\ getNodeIdFromFile (ofAscii ".md" ++ filePath)
     = (fun c => if (c =? 47)%Z then 95%Z else c) <$> filePath.
Proof.
  split; [| split; [| split]].
  - intros Hin. unfold getNodeIdFromFile in Hin.
    apply removeFirst_subset in Hin. exact (no_slash_left filePath Hin).
  - unfold getNodeIdFromFile. now rewrite slashes_replaced_twice.
  - intros Hslash.
    exists ((fun c => if (c =? 47)%Z then 95%Z else c) <$> filePath). split.
    + intros Heq. apply (no_slash_left filePath). now rewrite Heq.
    + unfold getNodeIdFromFile. now rewrite slashes_replaced_twice.
  - unfold getNodeIdFromFile. rewrite fmap_app.
    change ((fun c => if (c =? 47)%Z then 95%Z else c) <$> ofAscii ".md")
      with [46; 109; 100]%Z.
    unfold removeFirst. cbn [app indexOf startsWith].
    rewrite !Z.eqb_refl. cbn [andb].
    destruct ((fun c => if (c =? 47)%Z then 95%Z else c) <$> filePath);
      reflexivity.
Qed.

End UtilsFacts.

(** ** Similarity of nodes *)

Module SimilarityFacts.

Import Similarity.

Section Jaccard.

Implicit Types (a b : list string).

Lemma common_as_set a b :
  NoDup a ->
  length (filter (fun x => x ∈ b) a)
  = size ((list_to_set a : gset string) ∩ list_to_set b).
Proof.
  intros Ha.
  rewrite <- (size_list_to_set (C := gset string)) by now apply NoDup_filter.
  f_equal. apply set_eq. intros x.
  rewrite elem_of_intersection, !elem_of_list_to_set, list_elem_of_filter. tauto.
Qed.

Lemma inter_comm (X Y : gset string) : X ∩ Y = Y ∩ X.
Proof. apply set_eq. intros x. rewrite !elem_of_intersection. tauto. Qed.

Lemma union_comm (X Y : gset string) : X ∪ Y = Y ∪ X.
Proof. apply set_eq. intros x. rewrite !elem_of_union. tauto. Qed.

Lemma inter_self (X : gset string) : X ∩ X = X.
Proof. apply set_eq. intros x. rewrite elem_of_intersection. tauto. Qed.

Lemma union_self (X : gset string) : X ∪ X = X.
Proof. apply set_eq. intros x. rewrite elem_of_union. tauto. Qed.

Lemma union_as_set a b :
  (list_to_set (a ++ b) : gset string) = list_to_set a ∪ list_to_set b.
Proof. apply list_to_set_app_L. Qed.

Lemma common_le_union a b :
  NoDup a ->
  (length (filter (fun x => x ∈ b) a) <= size (list_to_set (a ++ b) : gset string))%nat.
Proof.
  intros Ha. rewrite common_as_set, union_as_set by exact Ha.
  apply subseteq_size. intros x.
  rewrite elem_of_intersection, elem_of_union. tauto.
Qed.

Lemma jaccard_range a b : NoDup a -> 0 <= jaccardSimilarity a b <= 1.
Proof.
  intros Ha. pose proof (common_le_union a b Ha) as Hle.
  unfold jaccardSimilarity. cbn zeta.
  destruct (decide (size (list_to_set (a ++ b) : gset string) = 0%nat))
    as [Hz | Hnz]; [lra |].
  assert (Hpos : 0 < INR (size (list_to_set (a ++ b) : gset string)))
    by (apply lt_0_INR; lia).
  apply le_INR in Hle.
  pose proof (pos_INR (length (filter (fun x => x ∈ b) a))).
  split.
  - apply Rmult_le_pos; [assumption | left; now apply Rinv_0_lt_compat].
  - apply (Rmult_le_reg_r (INR (size (list_to_set (a ++ b) : gset string))));
      [exact Hpos |].
    unfold Rdiv. rewrite Rmult_assoc, Rinv_l by lra. lra.
Qed.

Lemma jaccard_sym a b :
  NoDup a -> NoDup b -> jaccardSimilarity a b = jaccardSimilarity b a.
Proof.
  intros Ha Hb. unfold jaccardSimilarity. cbn zeta.
  rewrite !common_as_set, !union_as_set by assumption.
  rewrite (inter_comm (list_to_set b) (list_to_set a)).
  rewrite (union_comm (list_to_set b) (list_to_set a)).
  reflexivity.
Qed.

Lemma jaccard_self a : NoDup a -> a <> [] -> jaccardSimilarity a a = 1.
Proof.
  intros Ha Hne. unfold jaccardSimilarity. cbn zeta.
  rewrite common_as_set, union_as_set by exact Ha.
  rewrite inter_self, union_self.
  rewrite size_list_to_set by exact Ha.
  assert (Hlen : (0 < length a)%nat) by (destruct a; [congruence | cbn; lia]).
  destruct (decide (length a = 0%nat)); [lia |].
  apply lt_0_INR in Hlen. field. lra.
Qed.

(** X18. For link lists without repetition [jaccardSimilarity] lies in
    [0,1], does not depend on the order of its arguments, and is 1 for a
    non-empty list compared with itself; two empty lists give 0. With a
    repeated link it can exceed 1: the intersection counts the list, the
    union the set. *)
Theorem jaccard_of_duplicate_free_links a b (Ha : NoDup a) (Hb : NoDup b) :
  0 <= jaccardSimilarity a b <= 1
  /\ jaccardSimilarity a b = jaccardSimilarity b a
  /\ (a <> [] -> jaccardSimilarity a a = 1)
  /\ jaccardSimilarity [] [] = 0
  /\ jaccardSimilarity ["x"; "x"] ["x"] = 2.
Proof.
  split; [exact (jaccard_range a b Ha) |].
  split; [exact (jaccard_sym a b Ha Hb) |].
  split; [exact (jaccard_self a Ha) |].
  split.
  - unfold jaccardSimilarity. cbn zeta.
    rewrite decide_True; [reflexivity |]. cbn. apply size_empty.
  - unfold jaccardSimilarity. cbn zeta.
    assert (Hx : (list_to_set (["x"; "x"] ++ ["x"]) : gset string) = {["x"]}).
    { apply set_eq. intros x. rewrite elem_of_list_to_set, elem_of_singleton.
      cbn [app]. rewrite !elem_of_cons, elem_of_nil. tauto. }
    rewrite Hx, size_singleton. rewrite decide_False by lia.
    replace (filter (fun x : string => x ∈ ["x"]) ["x"; "x"]) with ["x"; "x"].
    + cbn. lra.
    + rewrite !filter_cons_True by apply list_elem_of_here. now rewrite filter_nil.
Qed.

Lemma jaccard_of_duplicate_free_links_witness :
  NoDup ["a"; "b"] /\ NoDup ["b"; "c"]
  /\ jaccardSimilarity ["a"; "b"] ["b"; "c"] = jaccardSimilarity ["b"; "c"] ["a"; "b"].
Proof.
  assert (Ha : NoDup ["a"; "b"]).
  { apply NoDup_cons. split; [| apply NoDup_singleton].
    rewrite list_elem_of_singleton. discriminate. }
  assert (Hb : NoDup ["b"; "c"]).
  { apply NoDup_cons. split; [| apply NoDup_singleton].
    rewrite list_elem_of_singleton. discriminate. }
  split; [exact Ha |]. split; [exact Hb |].
  exact (proj1 (proj2 (jaccard_of_duplicate_free_links _ _ Ha Hb))).
Defined.

End Jaccard.

Section Cosine.

Implicit Types (a b : list R).

Lemma dotProduct_sym a : forall b,
  length a = length b -> dotProduct a b = dotProduct b a.
Proof.
  unfold dotProduct. generalize 0.
  induction a as [| x a IH]; intros s [| y b] Hlen; cbn in *;
    try reflexivity; try discriminate.
  rewrite (Rmult_comm y x). apply IH. lia.
Qed.

Lemma cosine_sym a b : cosineSimilarity a b = cosineSimilarity b a.
Proof.
  unfold cosineSimilarity.
  destruct (decide (length a = length b)) as [Hlen | Hlen].
  - rewrite decide_True by (symmetry; exact Hlen). cbn zeta.
    rewrite (dotProduct_sym a b Hlen), (Rmult_comm (sqrt (sumOfSquares b))).
    destruct (Req_EM_T (sqrt (sumOfSquares a)) 0);
      destruct (Req_EM_T (sqrt (sumOfSquares b)) 0); reflexivity.
  - rewrite decide_False by (intros Heq; apply Hlen; symmetry; exact Heq).
    reflexivity.
Qed.

(** X19. [cosineSimilarity] does not depend on the order of its
    arguments: the products and the sums are the same ones in the same
    order. It is 0 for vectors of different lengths, and when the
    squares of one of the two vectors add up to 0. *)
Theorem cosine_is_symmetric a b :
  cosineSimilarity a b = cosineSimilarity b a
  /\ (length a <> length b -> cosineSimilarity a b = 0)
  /\ (sumOfSquares a = 0 \/ sumOfSquares b = 0 -> cosineSimilarity a b = 0).
Proof.
  split; [exact (cosine_sym a b) |]. split.
  - intros Hlen. unfold cosineSimilarity. now rewrite decide_False.
  - intros Hz. unfold cosineSimilarity.
    destruct (decide (length a = length b)); [| reflexivity]. cbn zeta.
    destruct (Req_EM_T (sqrt (sumOfSquares a)) 0) as [_ | Ha]; [reflexivity |].
    destruct (Req_EM_T (sqrt (sumOfSquares b)) 0) as [_ | Hb]; [reflexivity |].
    destruct Hz as [Hz | Hz]; rewrite Hz, sqrt_0 in *; contradiction.
Qed.

End Cosine.

(** X20. [calculateSimilarity] throws when one of the two nodes has no
    vector, and returns a number when both have one. For link lists
    without repetition it does not depend on the order of the two
    nodes: each of its three terms is the same either way. *)
Theorem similarity_is_symmetric (a b : SimilarityInput)
    (Ha : NoDup (linkIds a)) (Hb : NoDup (linkIds b)) :
  calculateSimilarity a b = calculateSimilarity b a
  /\ (vector a = None \/ vector b = None -> calculateSimilarity a b = Throws)
  /\ (is_Some (vector a) -> is_Some (vector b) ->
      exists s, calculateSimilarity a b = Returns s).
Proof.
  split; [| split].
  - unfold calculateSimilarity.
    destruct (vector a) as [va |], (vector b) as [vb |]; try reflexivity.
    f_equal. rewrite (cosine_sym va vb), (jaccard_sym _ _ Ha Hb).
    replace (inputLastUpdated b - inputLastUpdated a)%Z
      with (- (inputLastUpdated a - inputLastUpdated b))%Z by lia.
    now rewrite opp_IZR, Rabs_Ropp.
  - intros Hnone. unfold calculateSimilarity.
    destruct (vector a) as [va |]; [| reflexivity].
    destruct Hnone as [Hnone | ->]; [discriminate | reflexivity].
  - intros [va Hva] [vb Hvb]. unfold calculateSimilarity.
    rewrite Hva, Hvb. eexists. reflexivity.
Qed.

Lemma similarity_is_symmetric_witness :
  let a := mkSimilarityInput (Some [1; 0]) ["x"] 0 in
  let b := mkSimilarityInput (Some [0; 1]) ["y"] 86400000 in
  NoDup (linkIds a) /\ NoDup (linkIds b)
  /\ calculateSimilarity a b = calculateSimilarity b a.
Proof.
  cbn zeta.
  assert (Ha : NoDup (linkIds (mkSimilarityInput (Some [1; 0]) ["x"] 0))).
  { apply NoDup_singleton. }
  assert (Hb : NoDup (linkIds (mkSimilarityInput (Some [0; 1]) ["y"] 86400000))).
  { apply NoDup_singleton. }
  split; [exact Ha |]. split; [exact Hb |].
  exact (proj1 (similarity_is_symmetric
                  (mkSimilarityInput (Some [1; 0]) ["x"] 0)
                  (mkSimilarityInput (Some [0; 1]) ["y"] 86400000) Ha Hb)).
Defined.

End SimilarityFacts.

(** ** Recall tests *)

Section CheckAnswerFacts.

Import Text QuestionGenerator.

Lemma dropSpaces_suffix (s : jsString) : exists sp, s = sp ++ dropSpaces s.
Proof.
  induction s as [| c s [sp IH]]; [now exists [] |].
  cbn. destruct (isSpace c).
  - exists (c :: sp). cbn. now f_equal.
  - now exists [].
Qed.

Lemma dropSpaces_start (s : jsString) : startsWithSpace (dropSpaces s) = false.
Proof.
  induction s as [| c s IH]; [reflexivity |].
  cbn. destruct (isSpace c) eqn:Hc; [exact IH |]. cbn. exact Hc.
Qed.

Lemma startsWithSpace_prefix (u v : jsString) :
  startsWithSpace (u ++ v) = false -> startsWithSpace u = false.
Proof. destruct u; [reflexivity | exact (fun H => H)]. Qed.

Lemma trim_start (s : jsString) : startsWithSpace (trim s) = false.
Proof.
  unfold trim. pose proof (dropSpaces_start s) as Hstart.
  destruct (dropSpaces_suffix (rev (dropSpaces s))) as [sp Hsp].
  apply (f_equal (@rev Z)) in Hsp. rewrite rev_involutive, rev_app_distr in Hsp.
  rewrite Hsp in Hstart. exact (startsWithSpace_prefix _ _ Hstart).
Qed.

Lemma trim_end (s : jsString) : endsWithSpace (trim s) = false.
Proof.
  unfold endsWithSpace, trim. rewrite rev_involutive. apply dropSpaces_start.
Qed.

(** The conversion to lower case of [Text] leaves the ends as they are. *)
Lemma isSpace_printable (c : Z) : (33 <= c <= 159)%Z -> isSpace c = false.
Proof.
  intros Hc. destruct (isSpace c) eqn:H; [| reflexivity].
  unfold isSpace, inRange in H.
  rewrite !orb_true_iff, !andb_true_iff, !Z.eqb_eq, !Z.leb_le in H. lia.
Qed.

Lemma lowerUnit_ends (c : Z) :
  lowerUnit c <> []
  /\ startsWithSpace (lowerUnit c) = isSpace c
  /\ endsWithSpace (lowerUnit c) = isSpace c.
Proof.
  unfold lowerUnit, endsWithSpace.
  destruct (inRange 65 90 c) eqn:Hup.
  - unfold inRange in Hup. rewrite andb_true_iff, !Z.leb_le in Hup.
    cbn. rewrite !isSpace_printable by lia. repeat split. discriminate.
  - destruct (Z.eqb_spec c 8490) as [-> | _]; [now repeat split |].
    destruct (Z.eqb_spec c 304) as [-> | _]; [now repeat split |].
    now repeat split.
Qed.

Lemma startsWithSpace_app (u v : jsString) :
  u <> [] -> startsWithSpace (u ++ v) = startsWithSpace u.
Proof. now destruct u. Qed.

Lemma toLowerCase_start (s : jsString) :
  startsWithSpace (toLowerCase s) = startsWithSpace s.
Proof.
  destruct s as [| c s]; [reflexivity |].
  unfold toLowerCase. cbn [map concat].
  destruct (lowerUnit_ends c) as (Hne & Hstart & _).
  rewrite startsWithSpace_app by exact Hne. exact Hstart.
Qed.

Lemma toLowerCase_end (s : jsString) :
  endsWithSpace (toLowerCase s) = endsWithSpace s.
Proof.
  destruct s as [| c s _] using rev_ind; [reflexivity |].
  unfold endsWithSpace, toLowerCase.
  rewrite map_app, concat_app. cbn [map concat]. rewrite app_nil_r.
  rewrite !rev_app_distr. cbn [rev app].
  destruct (lowerUnit_ends c) as (Hne & _ & Hend).
  rewrite startsWithSpace_app.
  - exact Hend.
  - intros Hnil. apply Hne. apply (f_equal (@rev Z)) in Hnil.
    now rewrite rev_involutive in Hnil.
Qed.

(** X21. A recall test whose correct answer, the content of the note,
    starts or ends with white space can never be passed, whatever is
    typed: [checkAnswer] trims the answer but not the content. The
    conversion to lower case of the host is only taken to leave white
    space at the two ends as it is. *)
Theorem padded_content_is_never_recalled
    (toLowerCase : jsString -> jsString) (correctAnswer answer : jsString)
    (Hstart : forall s, startsWithSpace (toLowerCase s) = startsWithSpace s)
    (Hend : forall s, endsWithSpace (toLowerCase s) = endsWithSpace s)
    (Hpadded : startsWithSpace correctAnswer || endsWithSpace correctAnswer = true) :
  checkAnswer toLowerCase correctAnswer answer = false.
Proof.
  unfold checkAnswer. apply bool_decide_eq_false. intros Heq.
  pose proof (Hstart (trim answer)) as Hs. pose proof (Hend (trim answer)) as He.
  rewrite Heq, Hstart, trim_start in Hs. rewrite Heq, Hend, trim_end in He.
  rewrite Hs, He in Hpadded. discriminate.
Qed.

Lemma padded_content_is_never_recalled_witness :
  checkAnswer toLowerCase (ofAscii "Merge sort
") (ofAscii "merge sort
") = false.
Proof.
  apply padded_content_is_never_recalled.
  - exact toLowerCase_start.
  - exact toLowerCase_end.
  - vm_compute. reflexivity.
Defined.

End CheckAnswerFacts.

(** ** Generated questions *)

Module QuestionFacts.

Import Text QuestionGenerator.

Lemma length_truncate (n keep : nat) (text : jsString) :
  (keep + 3 <= n)%nat -> (length (truncate n keep text) <= n)%nat.
Proof.
  intros Hkeep. unfold truncate. destruct (n <? length text)%nat eqn:Hlong.
  - rewrite length_app, length_take. cbn. lia.
  - apply Nat.ltb_ge in Hlong. exact Hlong.
Qed.

Lemma findAnswer_letter (s : jsString) (l : Z) :
  findAnswer s = Some l -> isOptionLetter (upperAscii l) = true.
Proof.
  induction s as [| c s IH].
  - cbn. unfold answerAt. cbn. discriminate.
  - cbn [findAnswer]. destruct (answerAt (c :: s)) as [l' |] eqn:Hat; [| exact IH].
    intros [= ->]. unfold answerAt in Hat.
    destruct (afterAnswerWord (c :: s)) as [[| d r] |]; try discriminate.
    destruct (isColon d); [| discriminate].
    destruct (dropSpaces r) as [| l' r']; [discriminate |].
    destruct (isOptionLetter (upperAscii l')) eqn:Hl; [| discriminate].
    now injection Hat as ->.
Qed.

(** X22. A question [parseApiResponse] returns has two to four options
    of at most 20 code units each, a stem of at most 60 code units, a
    correct index that points at one of its options, the Bloom level 2
    and the path of the file; a missing content never gives one. *)
Theorem parsed_question_is_well_formed
    (response : option jsString) (filePath : string) (q : Question)
    (Hparsed : parseApiResponse response filePath = Returns q) :
  response <> None
  /\ (2 <= length (options q) <= 4)%nat
  /\ (0 <= correctIndex q < Z.of_nat (length (options q)))%Z
  /\ (length (question q) <= 60)%nat
  /\ Forall (fun o => (length o <= 20)%nat) (options q)
  /\ bloomLevel q = 2%Z
  /\ questionFilePath q = filePath.
Proof.
  unfold parseApiResponse in Hparsed.
  destruct response as [r |]; [| discriminate].
  cbv zeta in Hparsed.
  match type of Hparsed with
  | (if ?c then _ else _) = _ => destruct c eqn:Hc
  end; [discriminate |].
  apply orb_false_iff in Hc. destruct Hc as [Hc Hhigh].
  apply orb_false_iff in Hc. destruct Hc as [Hfew Hneg].
  apply Z.ltb_ge in Hfew, Hneg. apply Z.leb_gt in Hhigh.
  injection Hparsed as <-. cbn [options correctIndex question bloomLevel questionFilePath].
  split; [discriminate |].
  split; [| split; [| split; [| split; [| split]]]]; try reflexivity.
  - split; [lia |]. rewrite length_fmap, length_take. lia.
  - lia.
  - apply length_truncate. lia.
  - apply Forall_fmap, Forall_forall. intros o _. cbn.
    unfold optionText. apply length_truncate. lia.
Qed.

Lemma parsed_question_is_well_formed_witness :
  exists q,
    parseApiResponse (Some (ofAscii "Which sort suits a linked list?
A. quick sort
B. merge sort
ANSWER: B")) "notes/sorting.md" = Returns q
    /\ correctIndex q = 1%Z
    /\ (2 <= length (options q) <= 4)%nat.
Proof.
  eexists. split; [vm_compute; reflexivity |].
  split; [reflexivity |].
  refine (proj1 (proj2 (parsed_question_is_well_formed
                          (Some (ofAscii "Which sort suits a linked list?
A. quick sort
B. merge sort
ANSWER: B")) "notes/sorting.md" _ _))).
  vm_compute. reflexivity.
Defined.

(** X23. The pattern for the answer ignores case, the arithmetic on the
    letter does not: an answer marked with one of the letters a to d is
    found, gives an index of 32 or more, and the response is rejected. *)
Theorem lowercase_answer_is_rejected
    (response : jsString) (filePath : string) (l : Z)
    (Hfound : findAnswer (sliceFrom response (search matchesQuestionEnd response 0))
              = Some l)
    (Hlower : (97 <= l <= 100)%Z) :
  parseApiResponse (Some response) filePath = Throws.
Proof.
  unfold parseApiResponse. cbv zeta. rewrite Hfound.
  match goal with
  | |- (if ?c then _ else _) = _ => destruct c eqn:Hc
  end; [reflexivity |].
  apply orb_false_iff in Hc. destruct Hc as [_ Hhigh].
  apply Z.leb_gt in Hhigh. rewrite length_fmap, length_take in Hhigh. lia.
Qed.

Lemma lowercase_answer_is_rejected_witness :
  parseApiResponse (Some (ofAscii "Which sort suits a linked list?
A. quick sort
B. merge sort
answer: b")) "notes/sorting.md" = Throws.
Proof.
  apply (lowercase_answer_is_rejected _ _ 98%Z).
  - vm_compute. reflexivity.
  - lia.
Defined.

(** X24. Among the buttons the review modal shows for a parsed question
    there is one at the correct index, and a click on a button records
    a success for the file of the question exactly when it is that
    button; every click adds one outcome to the window. *)
Theorem one_button_records_success
    (response : option jsString) (filePath : string) (q : Question)
    (memory : gmap string MemoryStrengthData) (t : Z)
    (Hparsed : parseApiResponse response filePath = Returns q) :
  (exists i, (i < length (options q))%nat /\ Z.of_nat i = correctIndex q)
  /\ forall i : nat,
       windowOf (handleSelect memory t q (Z.of_nat i)) filePath
       = pushOutcome (windowOf memory filePath)
                     (bool_decide (Z.of_nat i = correctIndex q)).
Proof.
  unfold parseApiResponse in Hparsed.
  destruct response as [r |]; [| discriminate].
  cbv zeta in Hparsed.
  match type of Hparsed with
  | (if ?c then _ else _) = _ => destruct c eqn:Hc
  end; [discriminate |].
  apply orb_false_iff in Hc. destruct Hc as [Hc Hhigh].
  apply orb_false_iff in Hc. destruct Hc as [_ Hneg].
  apply Z.ltb_ge in Hneg. apply Z.leb_gt in Hhigh.
  injection Hparsed as <-. cbn [options correctIndex questionFilePath].
  split.
  - match type of Hneg with (0 <= ?k)%Z => exists (Z.to_nat k) end.
    split; lia.
  - intros i. unfold handleSelect. cbn [questionFilePath correctIndex].
    rewrite windowOf_updateTestResult, decide_True by reflexivity.
    f_equal. match goal with |- (?x =? ?y)%Z = _ => destruct (Z.eqb_spec x y) end.
    + now rewrite bool_decide_eq_true_2.
    + now rewrite bool_decide_eq_false_2.
Qed.

Lemma one_button_records_success_witness :
  exists q,
    parseApiResponse (Some (ofAscii "Which sort suits a linked list?
A. quick sort
B. merge sort
ANSWER: B")) "notes/sorting.md" = Returns q
    /\ windowOf (handleSelect ∅ 0 q (Z.of_nat 1)) "notes/sorting.md"
       = pushOutcome (windowOf ∅ "notes/sorting.md")
                     (bool_decide (Z.of_nat 1 = correctIndex q)).
Proof.
  eexists. split; [vm_compute; reflexivity |].
  refine (proj2 (one_button_records_success
                   (Some (ofAscii "Which sort suits a linked list?
A. quick sort
B. merge sort
ANSWER: B")) "notes/sorting.md" _ ∅ 0 _) 1%nat).
  vm_compute. reflexivity.
Defined.

(** A pass that fails with a message that has JSON in it. *)
Lemma generateFrom_returns (retries : nat) : forall (i : nat) attempts q,
  generateFrom retries i attempts = inl q
  <-> exists k, (k < retries)%nat /\ attempts (i + k)%nat = Generated q
        /\ forall j, (j < k)%nat ->
             exists m, attempts (i + j)%nat = Failed m /\ includesJSON m = true.
Proof.
  induction retries as [| r IH]; intros i attempts q.
  - cbn. split; [discriminate | intros (k & Hk & _); lia].
  - cbn [generateFrom]. split.
    + destruct (attempts i) as [q' | m] eqn:Hi.
      * intros [= ->]. exists 0%nat. rewrite Nat.add_0_r.
        split; [lia |]. split; [exact Hi |]. intros j Hj. lia.
      * destruct (includesJSON m) eqn:Hm; [| discriminate].
        intros Hrest. apply IH in Hrest. destruct Hrest as (k & Hk & Hgen & Hbefore).
        exists (S k). split; [lia |].
        split; [now replace (i + S k)%nat with (S i + k)%nat by lia |].
        intros [| j] Hj.
        -- exists m. now rewrite Nat.add_0_r.
        -- replace (i + S j)%nat with (S i + j)%nat by lia. apply Hbefore. lia.
    + intros (k & Hk & Hgen & Hbefore). destruct k as [| k].
      * rewrite Nat.add_0_r in Hgen. now rewrite Hgen.
      * destruct (Hbefore 0%nat) as (m & Hm & Hjson); [lia |].
        rewrite Nat.add_0_r in Hm. rewrite Hm, Hjson. apply IH.
        exists k. split; [lia |].
        split; [now replace (S i + k)%nat with (i + S k)%nat by lia |].
        intros j Hj. destruct (Hbefore (S j)) as (m' & Hm' & Hjson'); [lia |].
        exists m'. now replace (S i + j)%nat with (i + S j)%nat by lia.
Qed.

Lemma generateFrom_gives_up (retries : nat) : forall (i : nat) attempts,
  (forall j, (j < retries)%nat ->
     exists m, attempts (i + j)%nat = Failed m /\ includesJSON m = true) ->
  generateFrom retries i attempts = inr "Failed to generate question after 3 attempts".
Proof.
  induction retries as [| r IH]; intros i attempts Hall; [reflexivity |].
  cbn [generateFrom]. destruct (Hall 0%nat) as (m & Hm & Hjson); [lia |].
  rewrite Nat.add_0_r in Hm. rewrite Hm, Hjson. apply IH.
  intros j Hj. destruct (Hall (S j)) as (m' & Hm' & Hjson'); [lia |].
  exists m'. now replace (S i + j)%nat with (i + S j)%nat by lia.
Qed.

Lemma generateFrom_reads (retries : nat) : forall (i : nat) attempts attempts',
  (forall j, (j < retries)%nat -> attempts (i + j)%nat = attempts' (i + j)%nat) ->
  generateFrom retries i attempts = generateFrom retries i attempts'.
Proof.
  induction retries as [| r IH]; intros i attempts attempts' Hsame; [reflexivity |].
  cbn [generateFrom]. pose proof (Hsame 0%nat ltac:(lia)) as H0.
  rewrite Nat.add_0_r in H0. rewrite <- H0.
  destruct (attempts i) as [q | m]; [reflexivity |].
  destruct (includesJSON m); [| reflexivity].
  apply IH. intros j Hj. replace (S i + j)%nat with (i + S j)%nat by lia.
  apply Hsame. lia.
Qed.

Lemma generateFrom_throws (retries : nat) : forall (i : nat) attempts k m,
  (k < retries)%nat ->
  attempts (i + k)%nat = Failed m -> includesJSON m = false ->
  (forall j, (j < k)%nat ->
     exists m', attempts (i + j)%nat = Failed m' /\ includesJSON m' = true) ->
  generateFrom retries i attempts = inr m.
Proof.
  induction retries as [| r IH]; intros i attempts k m Hk Hm Hjson Hbefore; [lia |].
  cbn [generateFrom]. destruct k as [| k].
  - rewrite Nat.add_0_r in Hm. now rewrite Hm, Hjson.
  - destruct (Hbefore 0%nat) as (m0 & Hm0 & Hjson0); [lia |].
    rewrite Nat.add_0_r in Hm0. rewrite Hm0, Hjson0.
    apply (IH (S i) attempts k m); [lia | | exact Hjson |].
    + now replace (S i + k)%nat with (i + S k)%nat by lia.
    + intros j Hj. destruct (Hbefore (S j)) as (m' & Hm' & Hjson'); [lia |].
      exists m'. now replace (S i + j)%nat with (i + S j)%nat by lia.
Qed.

(** X25. [generateQuestion] makes at most three passes. It returns a
    question exactly when one of them gives one and every pass before
    it failed with a message that has JSON in it; a failure with
    another message, on whichever of the three passes, is thrown as it
    is when every pass before it failed with JSON in the message; three
    failures with JSON in the message give the error of the end of the
    loop; and a response that cannot be parsed is a failure of the kind
    that is tried again. *)
Theorem question_generation_retries (attempts : nat -> attempt) :
  (forall q, generateQuestion attempts = inl q
     <-> exists k, (k < 3)%nat /\ attempts k = Generated q
           /\ forall j, (j < k)%nat ->
                exists m, attempts j = Failed m /\ includesJSON m = true)
  /\ ((forall j, (j < 3)%nat ->
         exists m, attempts j = Failed m /\ includesJSON m = true) ->
      generateQuestion attempts = inr "Failed to generate question after 3 attempts")
  /\ (forall k m,
        (k < 3)%nat -> attempts k = Failed m -> includesJSON m = false ->
        (forall j, (j < k)%nat ->
           exists m', attempts j = Failed m' /\ includesJSON m' = true) ->
        generateQuestion attempts = inr m)
  /\ (forall attempts', (forall j, (j < 3)%nat -> attempts j = attempts' j) ->
      generateQuestion attempts = generateQuestion attempts')
  /\ (attempts 0%nat = attemptOfParse Throws ->
      generateQuestion attempts = generateFrom 2 1 attempts).
Proof.
  split; [| split; [| split; [| split]]].
  - intros q. unfold generateQuestion. apply (generateFrom_returns 3 0).
  - intros Hall. unfold generateQuestion. apply generateFrom_gives_up. exact Hall.
  - intros k m Hk Hm Hjson Hbefore. unfold generateQuestion.
    now apply (generateFrom_throws 3 0 attempts k m).
  - intros attempts' Hsame. unfold generateQuestion. apply generateFrom_reads.
    exact Hsame.
  - intros Hparse. unfold generateQuestion. cbn [generateFrom].
    rewrite Hparse. reflexivity.
Qed.

End QuestionFacts.

(** ** The fused weight *)

Section FusedWeightFacts.

Import Centrality.

Lemma centrality_nonneg (files : list (string * list string)) (filePath : string) :
  0 <= calculateCentrality files filePath.
Proof.
  unfold calculateCentrality, pagerankAfter. apply RankFacts.rankOf_nonneg.
  exact (proj1 (RankFacts.iterations_spec _ iterations _
                  (RankFacts.initialRank_nonneg _))).
Qed.

Lemma powSevenTenths_nonneg (x : R) :
  0 <= x -> exists p, powSevenTenths x = Finite p /\ 0 <= p.
Proof.
  intros Hx. unfold powSevenTenths.
  destruct (Rlt_dec x 0) as [Hneg | _]; [lra |].
  destruct (Req_EM_T x 0) as [_ | _].
  - exists 0. split; [reflexivity | lra].
  - eexists. split; [reflexivity |]. unfold Rpower. left. apply exp_pos.
Qed.

(** X26. For a file with a weight entry, a non-negative initial weight
    and a clock that has not gone back, [calculateCognitiveWeight]
    returns a number, never below the initial weight decayed at the
    largest seasonal rate, 0.065 a day: the memory strength only scales
    it up, and the other two terms are not negative. Without a weight
    entry it throws, after the easiness factor has been stored. *)
Theorem fused_weight_keeps_decayed_initial
    (data : gmap string WeightData) (memoryData : gmap string MemoryStrengthData)
    (files : list (string * list string)) (t : Z) (filePath : string)
    (d : WeightData)
    (Hentry : data !! filePath = Some d)
    (Hweight : 0 <= initialWeight d)
    (Hclock : (lastUpdated d <= t)%Z) :
  (exists w,
     (calculateCognitiveWeight data memoryData files t filePath).1
     = Returns (Finite w)
     /\ initialWeight d
        * exp (- (65 / 1000) * (IZR (t - lastUpdated d) / IZR (1000 * 60 * 60 * 24)))
        <= w)
  /\ (calculateCognitiveWeight data memoryData files t filePath).2
     = (calculateMemoryStrength memoryData filePath).2
  /\ (calculateCognitiveWeight (delete filePath data) memoryData files t filePath).1
     = Throws
  /\ (calculateCognitiveWeight (delete filePath data) memoryData files t filePath).2
     = (calculateMemoryStrength memoryData filePath).2.
Proof.
  unfold calculateCognitiveWeight.
  pose proof (calculateMemoryStrength_strength memoryData filePath) as Hm.
  pose proof (strengthOf_ge_1 (default fallbackMemory (memoryData !! filePath)))
    as Hge.
  destruct (calculateMemoryStrength memoryData filePath) as [m memoryData'].
  cbn [fst snd] in *. rewrite <- Hm in Hge. clear Hm.
  rewrite lookup_delete_eq, Hentry.
  split; [| repeat split].
  destruct (powSevenTenths_nonneg _ (centrality_nonneg files filePath))
    as (p & -> & Hp).
  eexists. split; [reflexivity |].
  set (c := calculateCentrality files filePath).
  set (days := IZR (t - lastUpdated d) / IZR (1000 * 60 * 60 * 24)).
  set (lambda := 5 / 100 * (1 + 3 / 10 * sin (2 * PI * IZR t / 31540000000))).
  set (N := INR (interactionCount d)).
  assert (Hdays : 0 <= days).
  { unfold days. apply Rmult_le_pos.
    - apply IZR_le. lia.
    - left. apply Rinv_0_lt_compat, IZR_lt. reflexivity. }
  assert (Hlambda : lambda <= 65 / 1000).
  { unfold lambda. pose proof (SIN_bound (2 * PI * IZR t / 31540000000)). lra. }
  assert (Hdecay : exp (- (65 / 1000) * days) <= exp (- lambda * days))
    by (apply exp_le; nra).
  pose proof (exp_pos (- (65 / 1000) * days)) as Hpos.
  assert (HN : 0 <= N) by apply pos_INR.
  assert (Hln : 0 <= ln (1 + N)) by (apply ln_nonneg; lra).
  assert (Hbeta : 0 < 2 / 10 / (1 + exp (- (5 / 10) * (N - 4)))).
  { pose proof (exp_pos (- (5 / 10) * (N - 4))). apply Rdiv_lt_0_compat; lra. }
  assert (Hden : 0 < / (1 + c * c)).
  { apply Rinv_0_lt_compat. nra. }
  assert (Hboost : 0 <= 2 / 10 / (1 + exp (- (5 / 10) * (N - 4)))
                        * ln (1 + N) / (1 + c * c)).
  { unfold Rdiv at 1. apply Rmult_le_pos; [| lra].
    apply Rmult_le_pos; lra. }
  assert (Hfirst : initialWeight d * exp (- (65 / 1000) * days)
                   <= initialWeight d * exp (- lambda * days))
    by (apply Rmult_le_compat_l; assumption).
  assert (0 <= initialWeight d * exp (- (65 / 1000) * days))
    by (apply Rmult_le_pos; lra).
  nra.
Qed.

Lemma fused_weight_keeps_decayed_initial_witness :
  exists w,
    (calculateCognitiveWeight {["a.md" := mkWeightData 1 0 0 None]} ∅ [] 0 "a.md").1
    = Returns (Finite w)
    /\ 1 * exp (- (65 / 1000) * (IZR (0 - 0) / IZR (1000 * 60 * 60 * 24))) <= w.
Proof.
  refine (proj1 (fused_weight_keeps_decayed_initial
                   {["a.md" := mkWeightData 1 0 0 None]} ∅ [] 0 "a.md"
                   (mkWeightData 1 0 0 None) _ _ _)).
  - apply lookup_singleton_eq.
  - cbn. lra.
  - cbn. lia.
Defined.

End FusedWeightFacts.

(** ** The feature vector *)

Module FeatureFacts.

Import FeatureMatrix.

Lemma log2_1024 : Num.log2 1024 = 10.
Proof.
  unfold Num.log2. replace 1024 with (2 ^ 10) by lra.
  rewrite ln_pow by lra. pose proof ln_2_pos. cbn [INR]. field. lra.
Qed.

Lemma Rmin_1_iff (x : R) : Rmin 1 x = 1 <-> 1 <= x.
Proof.
  split; intros H.
  - pose proof (Rmin_r 1 x). lra.
  - now apply Rmin_left.
Qed.

Lemma clipped (x : R) : 0 <= x -> 0 <= Rmin 1 x <= 1.
Proof. intros Hx. split; [apply Rmin_glb; lra | apply Rmin_l]. Qed.

(** X27. For a node with content, at a clock reading not before its
    last update, the four context factors are numbers in [0,1]; the
    content factor reaches 1 exactly from 1024 code units on, the link
    factor from 10 links on. The complexity factor is not clipped: it
    is above 1 from 715 code units on. The vector has six entries more
    than the embedding. For an empty content the content factor is
    minus infinity. *)
Theorem context_factors_are_clipped
    (semanticVector : list R) (t : Z) (contentLength linkCount : nat)
    (w : CognitiveWeight)
    (Hclock : (weightLastUpdated w <= t)%Z)
    (Hcontent : (0 < contentLength)%nat) :
  (exists link content age interaction,
     getContextFactors t contentLength linkCount w
     = [Number link; Number content; Number age; Number interaction]
     /\ 0 <= link <= 1 /\ 0 <= content <= 1
     /\ 0 <= age <= 1 /\ 0 <= interaction <= 1
     /\ (content = 1 <-> (1024 <= contentLength)%nat)
     /\ (link = 1 <-> (10 <= linkCount)%nat))
  /\ ((715 <= contentLength)%nat -> 1 < calculateComplexity contentLength linkCount)
  /\ length (updateNodeVector semanticVector t contentLength linkCount w)
     = (length semanticVector + 6)%nat
  /\ MinusInfinity ∈ updateNodeVector semanticVector t 0 linkCount w.
Proof.
  assert (Hlen : 1 <= INR contentLength).
  { replace 1 with (INR 1) by reflexivity. apply le_INR. lia. }
  split; [| split; [| split]].
  - unfold getContextFactors.
    destruct contentLength as [| n] eqn:E; [lia |]. rewrite <- E in *.
    eexists _, _, _, _. split; [reflexivity |].
    pose proof (pos_INR linkCount) as Hlinks.
    pose proof (pos_INR (interactions w)) as Hint.
    split; [apply clipped; lra |].
    split; [apply clipped; pose proof (log2_nonneg _ Hlen); lra |].
    split.
    { apply clipped. apply Rmult_le_pos.
      - apply IZR_le. lia.
      - left. apply Rinv_0_lt_compat, IZR_lt. reflexivity. }
    split; [apply clipped; lra |].
    split.
    + rewrite Rmin_1_iff. split.
      * intros Hlog. apply INR_le. replace (INR 1024) with 1024 by (cbn; lra).
        destruct (Rle_lt_dec 1024 (INR contentLength)) as [Hle | Hlt]; [exact Hle |].
        exfalso. assert (Hlt' : ln (INR contentLength) < ln 1024)
          by (apply ln_increasing; lra).
        pose proof log2_1024 as H10. unfold Num.log2 in *.
        pose proof ln_2_pos as H2.
        assert (ln 1024 = 10 * ln 2).
        { apply (Rmult_eq_reg_r (/ ln 2)); [| apply Rinv_neq_0_compat; lra].
          unfold Rdiv in H10. rewrite H10. field. lra. }
        assert (10 * ln 2 <= ln (INR contentLength)).
        { apply (Rmult_le_reg_r (/ ln 2)); [now apply Rinv_0_lt_compat |].
          replace (10 * ln 2 * / ln 2) with 10 by (field; lra).
          unfold Rdiv in Hlog. lra. }
        lra.
      * intros Hge. apply le_INR in Hge.
        replace (INR 1024) with 1024 in Hge by (cbn; lra).
        pose proof (log2_le 1024 (INR contentLength) ltac:(lra) Hge) as Hlog.
        rewrite log2_1024 in Hlog. lra.
    + rewrite Rmin_1_iff. split.
      * intros Hge. apply INR_le. replace (INR 10) with 10 by (cbn; lra). lra.
      * intros Hge. apply le_INR in Hge.
        replace (INR 10) with 10 in Hge by (cbn; lra). lra.
  - intros Hlong. apply le_INR in Hlong.
    replace (INR 715) with 715 in Hlong by (cbn; lra).
    unfold calculateComplexity. pose proof (pos_INR linkCount). lra.
  - unfold updateNodeVector, getContextFactors.
    rewrite !length_app, length_fmap. cbn. lia.
  - unfold updateNodeVector, getContextFactors.
    rewrite !elem_of_app. right. right. left.
    apply list_elem_of_further, list_elem_of_here.
Qed.

Lemma context_factors_are_clipped_witness :
  length (updateNodeVector [1; 0] 0 2000 3 (mkCognitiveWeight (5 / 10) (5 / 100) 1 0))
  = (length [1; 0] + 6)%nat.
Proof.
  refine (proj1 (proj2 (proj2 (context_factors_are_clipped
            [1; 0] 0 2000 3 (mkCognitiveWeight (5 / 10) (5 / 100) 1 0) _ _)))).
  - cbn. lia.
  - lia.
Defined.

End FeatureFacts.

(** ** The learning stage *)

Module StageDetectorFacts.

Import StageDetector.

Lemma exp_double (x lo hi : R) :
  0 <= lo -> lo <= exp x <= hi -> lo * lo <= exp (x + x) <= hi * hi.
Proof. intros Hlo [H1 H2]. rewrite exp_plus. split; nra. Qed.

(** The square of Euler's number lies between 7 and 8. *)
Lemma exp_2_bounds : 7 < exp 2 < 8.
Proof.
  assert (H32 : 33 / 32 <= exp (1 / 32) <= 32 / 31).
  { split.
    - pose proof (exp_ineq1_le (1 / 32)). lra.
    - pose proof (exp_ineq1_le (- (1 / 32))) as Hneg.
      pose proof (exp_pos (1 / 32)) as Hpos.
      assert (Hone : exp (1 / 32) * exp (- (1 / 32)) = 1).
      { rewrite <- exp_plus. replace (1 / 32 + - (1 / 32)) with 0 by lra.
        apply exp_0. }
      nra. }
  assert (H16 : 10634 / 10000 <= exp (1 / 16) <= 10656 / 10000).
  { pose proof (exp_double _ (33 / 32) _ ltac:(lra) H32) as H.
    replace (1 / 32 + 1 / 32) with (1 / 16) in H by lra. lra. }
  assert (H8 : 11308 / 10000 <= exp (1 / 8) <= 11356 / 10000).
  { pose proof (exp_double _ (10634 / 10000) _ ltac:(lra) H16) as H.
    replace (1 / 16 + 1 / 16) with (1 / 8) in H by lra. lra. }
  assert (H4 : 12787 / 10000 <= exp (1 / 4) <= 12896 / 10000).
  { pose proof (exp_double _ (11308 / 10000) _ ltac:(lra) H8) as H.
    replace (1 / 8 + 1 / 8) with (1 / 4) in H by lra. lra. }
  assert (H2 : 16350 / 10000 <= exp (1 / 2) <= 16631 / 10000).
  { pose proof (exp_double _ (12787 / 10000) _ ltac:(lra) H4) as H.
    replace (1 / 4 + 1 / 4) with (1 / 2) in H by lra. lra. }
  assert (H1 : 26732 / 10000 <= exp 1 <= 27660 / 10000).
  { pose proof (exp_double _ (16350 / 10000) _ ltac:(lra) H2) as H.
    replace (1 / 2 + 1 / 2) with 1 in H by lra. lra. }
  pose proof (exp_double _ (26732 / 10000) _ ltac:(lra) H1) as H.
  replace (1 + 1) with 2 in H by lra. lra.
Qed.

Lemma ln_7_8 : ln 7 < 2 < ln 8.
Proof.
  destruct exp_2_bounds as [Hlo Hhi]. split.
  - rewrite <- (ln_exp 2). apply ln_increasing; lra.
  - rewrite <- (ln_exp 2) at 1. apply ln_increasing; [apply exp_pos | lra].
Qed.

Lemma calculateStageScore_le (len len' links links' n n' : nat) :
  (len <= len')%nat -> (links <= links')%nat -> (n <= n')%nat ->
  calculateStageScore len links n <= calculateStageScore len' links' n'.
Proof.
  intros Hlen Hlinks Hn. unfold calculateStageScore. cbn zeta.
  apply le_INR in Hlen, Hlinks, Hn.
  pose proof (pos_INR n).
  assert (ln (1 + INR n) <= ln (1 + INR n')) by (apply ln_le_mono; lra).
  lra.
Qed.

Lemma stageNumber_le (x y : R) :
  x <= y ->
  (stageNumber (if Rlt_dec x (5 / 10) then NOVICE
                else if Rlt_dec x (8 / 10) then INTERMEDIATE else EXPERT)
   <= stageNumber (if Rlt_dec y (5 / 10) then NOVICE
                   else if Rlt_dec y (8 / 10) then INTERMEDIATE else EXPERT))%Z.
Proof.
  intros Hxy.
  destruct (Rlt_dec x (5 / 10)), (Rlt_dec x (8 / 10)),
    (Rlt_dec y (5 / 10)), (Rlt_dec y (8 / 10)); cbn; try lia; lra.
Qed.

(** X28. The stage [determineStage] gives never goes down when the
    content, the links or the interactions of a node grow. From seven
    interactions on every node is an expert, whatever its content and
    links; a node without content and links is no expert with six
    interactions or fewer, and a novice with none. *)
Theorem stage_follows_interactions (len links n : nat) :
  (forall len' links' n',
     (len <= len')%nat -> (links <= links')%nat -> (n <= n')%nat ->
     (stageNumber (determineStage len links n)
      <= stageNumber (determineStage len' links' n'))%Z)
  /\ ((7 <= n)%nat -> determineStage len links n = EXPERT)
  /\ ((n <= 6)%nat -> determineStage 0 0 n <> EXPERT)
  /\ determineStage 0 0 0 = NOVICE.
Proof.
  split; [| split; [| split]].
  - intros len' links' n' Hlen Hlinks Hn. unfold determineStage. cbn zeta.
    apply stageNumber_le. now apply calculateStageScore_le.
  - intros Hn.
    assert (Hscore : 8 / 10 <= calculateStageScore len links n).
    { unfold calculateStageScore. cbn zeta.
      pose proof (pos_INR len). pose proof (pos_INR links).
      apply le_INR in Hn. replace (INR 7) with 7 in Hn by (cbn; lra).
      assert (ln 8 <= ln (1 + INR n)) by (apply ln_le_mono; lra).
      pose proof ln_7_8. lra. }
    unfold determineStage. cbn zeta.
    destruct (Rlt_dec _ (5 / 10)); [lra |].
    destruct (Rlt_dec _ (8 / 10)); [lra | reflexivity].
  - intros Hn.
    assert (Hscore : calculateStageScore 0 0 n < 8 / 10).
    { unfold calculateStageScore. cbn zeta. cbn [INR].
      apply le_INR in Hn. replace (INR 6) with 6 in Hn by (cbn; lra).
      pose proof (pos_INR n).
      assert (ln (1 + INR n) <= ln 7) by (apply ln_le_mono; lra).
      pose proof ln_7_8. lra. }
    unfold determineStage. cbn zeta.
    destruct (Rlt_dec _ (5 / 10)); [discriminate |].
    destruct (Rlt_dec _ (8 / 10)); [discriminate | lra].
  - unfold determineStage, calculateStageScore. cbn zeta. cbn [INR].
    rewrite Rplus_0_r, ln_1.
    destruct (Rlt_dec _ (5 / 10)) as [_ | Hge]; [reflexivity | lra].
Qed.

End StageDetectorFacts.
